(** * renameThemAll: the name-structure inspector, verified

    A shallow embedding of [name_structure_inspector.py] (class
    [NameStructureInspector]), of the uniqueness loop of
    [outliner_logics.py] ([rename_non_unique_name]) and of the category
    edits of [renamer_logics.py] ([rename_with_type] and its siblings),
    followed by the properties of the naming specification.

    Conventions of the embedding:
    - a Python [str] is a [list ascii] (the model covers ASCII text; the
      only character classes the code looks at are the underscore, the
      two brackets, the pipe and, through [isdigit], the decimal digits);
    - a Python [dict] is an association list in insertion order with
      unique keys, because the code iterates dictionaries in order;
    - a function that mutates [part_dict] takes it and returns it;
    - a raised exception is the [Raise] branch of [result];
    - the module constants of [constants.py] are the fields of a
      [config] record handed to every function that reads them. *)

From Stdlib Require Import Ascii String Bool Arith ZArith Lia List.
From Stdlib Require Import DecimalString DecimalPos DecimalN.
Import ListNotations.
Open Scope string_scope.
Open Scope list_scope.

Abbreviation str := (list ascii).
Coercion list_ascii_of_string : string >-> list.

Definition strs (l : list string) : list str := map list_ascii_of_string l.

(** ** Exceptions and results *)

Inductive exn : Type :=
| TypeError
| KeyError
| IndexError
| ValueError
| AttributeError
| UnboundLocalError
| RecursionError.

Inductive result (A : Type) : Type :=
| Ok (a : A)
| Raise (e : exn).
Arguments Ok {A} a.
Arguments Raise {A} e.

Definition bind {A B : Type} (c : result A) (k : A -> result B) : result B :=
  match c with
  | Ok a => k a
  | Raise e => Raise e
  end.

Notation "x <- c ;; k" := (bind c (fun x => k))
  (at level 61, c at next level, right associativity).
Notation "' p <- c ;; k" := (bind c (fun x => let p := x in k))
  (at level 61, p pattern, c at next level, right associativity).

(** [for x in l: acc = f(acc, x)] with exceptions. *)
Fixpoint for_each {A S : Type} (l : list A) (f : S -> A -> result S) (s : S)
  : result S :=
  match l with
  | [] => Ok s
  | x :: r => s' <- f s x ;; for_each r f s'
  end.

(** ** Python built-ins on strings *)

Module Py.

Fixpoint str_eqb (a b : str) : bool :=
  match a, b with
  | [], [] => true
  | c :: a', d :: b' => Ascii.eqb c d && str_eqb a' b'
  | _, _ => false
  end.

(** [s.startswith(v)] *)
Fixpoint startswith (s v : str) : bool :=
  match v, s with
  | [], _ => true
  | _ :: _, [] => false
  | c :: v', d :: s' => Ascii.eqb c d && startswith s' v'
  end.

(** [s.endswith(v)] *)
Definition endswith (s v : str) : bool := startswith (rev s) (rev v).

(** [s[n:]] and [s[:n]] for [n >= 0]. *)
Definition slice_from (n : nat) (s : str) : str := skipn n s.
Definition slice_to (n : nat) (s : str) : str := firstn n s.

(** [s[-n:]]: for [n = 0] Python reads [s[0:]], the whole string. *)
Definition slice_last (n : nat) (s : str) : str :=
  match n with
  | 0 => s
  | S _ => skipn (length s - n) s
  end.

(** [s[:-n]]: for [n = 0] Python reads [s[:0]], the empty string. *)
Definition slice_but_last (n : nat) (s : str) : str :=
  match n with
  | 0 => []
  | S _ => firstn (length s - n) s
  end.

Definition is_digit (c : ascii) : bool :=
  let n := nat_of_ascii c in Nat.leb 48 n && Nat.leb n 57.

(** [s.isdigit()]: false on the empty string. *)
Definition isdigit (s : str) : bool :=
  match s with
  | [] => false
  | _ :: _ => forallb is_digit s
  end.

(** [s.split(sep)] for a one-character separator. *)
Fixpoint split (sep : ascii) (s : str) : list str :=
  match s with
  | [] => [[]]
  | c :: r =>
      if Ascii.eqb c sep then [] :: split sep r
      else match split sep r with
           | [] => [[c]]
           | h :: t => (c :: h) :: t
           end
  end.

Definition char_in (c : ascii) (chars : str) : bool :=
  existsb (Ascii.eqb c) chars.

Fixpoint lstrip (chars s : str) : str :=
  match s with
  | [] => []
  | c :: r => if char_in c chars then lstrip chars r else s
  end.

Definition rstrip (chars s : str) : str := rev (lstrip chars (rev s)).

(** [s.strip(chars)] *)
Definition strip (chars s : str) : str := rstrip chars (lstrip chars s).

(** Split at the first occurrence of [sep], if any. *)
Fixpoint partition_char (sep : ascii) (s : str) : option (str * str) :=
  match s with
  | [] => None
  | c :: r =>
      if Ascii.eqb c sep then Some ([], r)
      else match partition_char sep r with
           | Some (a, b) => Some (c :: a, b)
           | None => None
           end
  end.

(** [s.rpartition(sep)] for a one-character separator. *)
Definition rpartition (sep : ascii) (s : str) : str * str * str :=
  match partition_char sep (rev s) with
  | Some (a, b) => (rev b, [sep], rev a)
  | None => ([], [], s)
  end.

(** [sub in s] on strings: the substring test. *)
Fixpoint contains (sub s : str) : bool :=
  startswith s sub ||
  match s with
  | [] => false
  | _ :: r => contains sub r
  end.

Definition repeat_char (c : ascii) (n : nat) : str := repeat c n.

(** [f"{n:0{w}d}"]: sign-aware zero padding of a decimal integer. *)
Definition format_0d (w : nat) (n : Z) : str :=
  let digits : str := NilEmpty.string_of_uint (N.to_uint (Z.abs_N n)) in
  let sign : str := if (n <? 0)%Z then "-" else "" in
  sign ++ repeat_char "0" (w - length sign - length digits) ++ digits.

(** [chr(ord(c) + 1)] on a one-character string; the successor of the
    last character of the model's range is outside the model. *)
Definition chr_succ (s : str) : result str :=
  match s with
  | [c] =>
      if Nat.ltb (nat_of_ascii c) 255
      then Ok [ascii_of_nat (S (nat_of_ascii c))]
      else Raise ValueError
  | _ => Raise TypeError
  end.

End Py.

(** ** Ordered dictionaries *)

Section Dict.
Context {K V : Type} (eqb : K -> K -> bool).

Fixpoint dict_get (k : K) (d : list (K * V)) : option V :=
  match d with
  | [] => None
  | (k', v) :: r => if eqb k k' then Some v else dict_get k r
  end.

(** [d[k] = v]: an existing key keeps its place, a new one goes last. *)
Fixpoint dict_set (k : K) (v : V) (d : list (K * V)) : list (K * V) :=
  match d with
  | [] => [(k, v)]
  | (k', v') :: r =>
      if eqb k k' then (k', v) :: r else (k', v') :: dict_set k v r
  end.

Fixpoint dict_del (k : K) (d : list (K * V)) : list (K * V) :=
  match d with
  | [] => []
  | (k', v') :: r => if eqb k k' then r else (k', v') :: dict_del k r
  end.

Definition dict_mem (k : K) (d : list (K * V)) : bool :=
  match dict_get k d with
  | Some _ => true
  | None => false
  end.

Definition dict_keys (d : list (K * V)) : list K := map fst d.
Definition dict_values (d : list (K * V)) : list V := map snd d.
End Dict.

(** ** Configuration: the constants of [constants.py]

    [constants.py] computes these once, from the last used preset or
    from [default_settings.py].  The inspector reads the vocabularies
    only through [.values()], so each is kept as its list of values in
    dictionary order. *)

Record config : Type := {
  NAME_STRUCTURE : str;
  OPTIONAL_CATEGORIES : list str;
  MANDATORY_CATEGORIES : list str;
  SYMMETRY_OPTIONS : list str;
  ALL_TYPES_DICT : list str;
  ZONING_SINGLE_DICT : list str;
  ORIENT_SINGLE_DICT : list str;
  INC_NUMBER_OF_DIGITS : nat
}.

(** [default_settings.py]; [ALL_TYPES_DICT = GROUP_TYPES_DICT | MESH_TYPES_DICT]. *)
Definition default_config : config := {|
  NAME_STRUCTURE :=
    "[symmetry]_[type]_[name][zoning][orientation][alphabetical_inc]_[numerical_inc]";
  OPTIONAL_CATEGORIES :=
    strs ["symmetry"; "zoning"; "orientation"; "alphabetical_inc"; "numerical_inc"];
  MANDATORY_CATEGORIES := strs ["type"; "name"];
  SYMMETRY_OPTIONS := strs ["L"; "R"];
  ALL_TYPES_DICT :=
    strs ["prx"; "prp"; "grp"; "ctrl"; "proxy"; "render"] ++ strs ["hi"; "lo"];
  ZONING_SINGLE_DICT := strs ["Lt"; "Ct"; "Rt"; "Tp"; "Md"; "Bt"; "Ft"; "Bk"];
  ORIENT_SINGLE_DICT := strs ["Nt"; "Wt"; "Et"; "St"];
  INC_NUMBER_OF_DIGITS := 3
|}.

(** ** The part dictionary

    [Dict[int, Dict[str, str]]], plus the string stored under the
    top-level key ["bad_naming"]: keys are integers or strings, values
    are category dictionaries or strings. *)

Inductive key : Type :=
| KInt (i : nat)
| KStr (s : str).

Definition key_eqb (a b : key) : bool :=
  match a, b with
  | KInt i, KInt j => Nat.eqb i j
  | KStr s, KStr t => Py.str_eqb s t
  | _, _ => false
  end.

Abbreviation part := (list (str * str)).

Inductive value : Type :=
| VDict (p : part)
| VStr (s : str).

Abbreviation part_dict := (list (key * value)).

Definition in_list (s : str) (l : list str) : bool := existsb (Py.str_eqb s) l.

(** [part_dict[index]], read as a category dictionary. *)
Definition get_part (d : part_dict) (k : key) : result part :=
  match dict_get key_eqb k d with
  | None => Raise KeyError
  | Some (VDict p) => Ok p
  | Some (VStr _) => Raise TypeError
  end.

(** [part_dict[index][category]] *)
Definition get_item (d : part_dict) (k : key) (category : str) : result str :=
  p <- get_part d k ;;
  match dict_get Py.str_eqb category p with
  | Some v => Ok v
  | None => Raise KeyError
  end.

(** [part_dict[index][category] = v] *)
Definition set_item (d : part_dict) (k : key) (category v : str)
  : result part_dict :=
  p <- get_part d k ;;
  Ok (dict_set key_eqb k (VDict (dict_set Py.str_eqb category v p)) d).

(** [del part_dict[index][category]] *)
Definition del_item (d : part_dict) (k : key) (category : str)
  : result part_dict :=
  p <- get_part d k ;;
  if dict_mem Py.str_eqb category p
  then Ok (dict_set key_eqb k (VDict (dict_del Py.str_eqb category p)) d)
  else Raise KeyError.

(** [name.split("_")[i]] *)
Definition name_segment (name : str) (i : nat) : result str :=
  match nth_error (Py.split "_" name) i with
  | Some s => Ok s
  | None => Raise IndexError
  end.

(** ** Compiling the template *)

(** The lookahead [[^\[]*\]] of the split pattern succeeds at a position
    exactly when the first bracket from there on is a closing one. *)
Fixpoint closes_first (s : str) : bool :=
  match s with
  | [] => false
  | c :: r =>
      if Ascii.eqb c "]" then true
      else if Ascii.eqb c "[" then false
      else closes_first r
  end.

(** [re.split(r'_(?![^\[]*\])', name_structure)] *)
Fixpoint split_structure (s : str) : list str :=
  match s with
  | [] => [[]]
  | c :: r =>
      if Ascii.eqb c "_" && negb (closes_first r) then [] :: split_structure r
      else match split_structure r with
           | [] => [[c]]
           | h :: t => (c :: h) :: t
           end
  end.

(** [re.findall(r'\[([^\]]+)\]', part)], scanning left to right: [cur]
    is [None] outside a group and [Some acc] after an opening bracket,
    with [acc] the group's text so far, reversed.  An empty group [[]]
    and a group the string ends in match nothing. *)
Fixpoint findall_groups (s : str) (cur : option str) : list str :=
  match s with
  | [] => []
  | c :: r =>
      match cur with
      | None =>
          if Ascii.eqb c "[" then findall_groups r (Some [])
          else findall_groups r None
      | Some acc =>
          if Ascii.eqb c "]" then
            match acc with
            | [] => findall_groups r None
            | _ :: _ => rev acc :: findall_groups r None
            end
          else findall_groups r (Some (c :: acc))
      end
  end.

(** [{word.strip('[]'): '' for word in re.findall(...)}] *)
Definition part_categories (part_text : str) : part :=
  fold_left (fun (p : part) word => dict_set Py.str_eqb (Py.strip "[]" word) [] p)
            (findall_groups part_text None) [].

(** The loop that fills [part_dict[part_index]] for [part_index = 0, 1, ...]. *)
Fixpoint build_part_dict (name_parts : list str) (part_index : nat)
  (d : part_dict) : part_dict :=
  match name_parts with
  | [] => d
  | p :: r =>
      build_part_dict r (S part_index)
        (dict_set key_eqb (KInt part_index) (VDict (part_categories p)) d)
  end.

(** The loop over [part_dict.items()] that fills [optional_parts] and
    [mandatory_parts]. *)
Fixpoint classify_parts (optional_categories : list str) (items : part_dict)
  : result (list key * list key) :=
  match items with
  | [] => Ok ([], [])
  | (part_index, VStr _) :: _ => Raise AttributeError
  | (part_index, VDict categories) :: r =>
      '(optional_parts, mandatory_parts) <- classify_parts optional_categories r ;;
      if forallb (fun category => in_list category optional_categories)
                 (dict_keys categories)
      then Ok (part_index :: optional_parts, mandatory_parts)
      else Ok (optional_parts, part_index :: mandatory_parts)
  end.

(** ** Peeling one category value *)

(** [separate_number] *)
Definition separate_number (part_to_separate : str) (number_of_digits : nat)
  (start : bool) : str * str :=
  if start && Nat.leb number_of_digits (length part_to_separate)
     && Py.isdigit (Py.slice_to number_of_digits part_to_separate)
  then (Py.slice_to number_of_digits part_to_separate,
        Py.slice_from number_of_digits part_to_separate)
  else if negb start && Nat.leb number_of_digits (length part_to_separate)
          && Py.isdigit (Py.slice_last number_of_digits part_to_separate)
  then (Py.slice_last number_of_digits part_to_separate,
        Py.slice_but_last number_of_digits part_to_separate)
  else ([], part_to_separate).

(** [separate_value] *)
Fixpoint separate_value (part_to_separate : str) (value_list : list str)
  (start : bool) : str * str :=
  match value_list with
  | [] => ([], part_to_separate)
  | value :: rest =>
      if start && Py.startswith part_to_separate value
      then (value, Py.slice_from (length value) part_to_separate)
      else if negb start && Py.endswith part_to_separate value
      then (value, Py.slice_but_last (length value) part_to_separate)
      else separate_value part_to_separate rest start
  end.

(** [remove_prefix] *)
Definition remove_prefix (string prefix : str) : str :=
  match prefix with
  | [] => string
  | _ :: _ =>
      if Py.startswith string prefix
      then Py.slice_from (length prefix) string
      else string
  end.

(** [separate_suffixes_recurcive].  [depth] bounds the nesting of the
    calls: a candidate that is the empty string matches for ever and
    Python ends in [RecursionError]; a non-empty match shortens the
    fragment, so [S (length part_to_separate)] levels are enough.  The
    interpreter's own limit on the depth of calls is not modelled. *)
Fixpoint separate_suffixes_recurcive (depth : nat) (part_to_separate : str)
  (value_list : list str) (backup_suffix : str) (start : bool)
  : result (str * str) :=
  match depth with
  | 0 => Raise RecursionError
  | S depth' =>
      if start then
        match find (fun value => Py.startswith part_to_separate value) value_list with
        | Some value =>
            separate_suffixes_recurcive depth'
              (Py.slice_from (length value) part_to_separate) value_list
              (backup_suffix ++ value) true
        | None => Ok (backup_suffix, part_to_separate)
        end
      else
        match find (fun value => Py.endswith part_to_separate value) value_list with
        | Some value =>
            separate_suffixes_recurcive depth'
              (Py.slice_but_last (length value) part_to_separate) value_list
              (value ++ backup_suffix) false
        | None => Ok (backup_suffix, part_to_separate)
        end
  end.

(** [separate_value_recursive] *)
Definition separate_value_recursive (part_to_separate : str)
  (value_list : list str) (start : bool) : result (str * str) :=
  separate_suffixes_recurcive (S (length part_to_separate)) part_to_separate
    value_list [] start.

(** The dictionary [category_lists] of [process_category]. *)
Inductive category_entry : Type :=
| Values (l : list str)
| Digits (n : nat).

Definition alphabet : list str :=
  map (fun c => [c]) (list_ascii_of_string "ABCDEFGHIJKLMNOPQRSTUVWXYZ").

Definition category_lists (cfg : config) : list (str * category_entry) :=
  [ ("symmetry" : str, Values (SYMMETRY_OPTIONS cfg));
    ("type" : str, Values (ALL_TYPES_DICT cfg));
    ("zoning" : str, Values (ZONING_SINGLE_DICT cfg));
    ("orientation" : str, Values (ORIENT_SINGLE_DICT cfg));
    ("alphabetical_inc" : str, Values alphabet);
    ("numerical_inc" : str, Digits (INC_NUMBER_OF_DIGITS cfg)) ].

(** [process_category] *)
Definition process_category (cfg : config) (key : str) (d : part_dict)
  (part_index : nat) (part_to_separate : str) (start : bool)
  : result (part_dict * str) :=
  match dict_get Py.str_eqb key (category_lists cfg) with
  | Some entry =>
      '(value, rest) <-
        (if Py.str_eqb key "orientation" || Py.str_eqb key "zoning" then
           match entry with
           | Values l => separate_value_recursive part_to_separate l start
           | Digits _ => Raise TypeError
           end
         else if Py.str_eqb key "numerical_inc" then
           Ok (separate_number part_to_separate (INC_NUMBER_OF_DIGITS cfg) start)
         else
           match entry with
           | Values l => Ok (separate_value part_to_separate l start)
           | Digits _ => Raise TypeError
           end) ;;
      d' <- set_item d (KInt part_index) key value ;;
      Ok (d', rest)
  | None =>
      if Py.str_eqb key "name" then
        d' <- set_item d (KInt part_index) key part_to_separate ;;
        Ok (d', [])
      else Ok (d, part_to_separate)
  end.

(** ** Peeling the categories of one part *)

(** The loop of [separate_category_start]: the keys of the part in
    order, stopping after ["name"]. *)
Fixpoint separate_category_start_loop (cfg : config) (keys : list str)
  (d : part_dict) (part_index : nat) (part_to_separate : str)
  : result (part_dict * str) :=
  match keys with
  | [] => Ok (d, part_to_separate)
  | key :: rest =>
      '(d', part_to_separate') <-
        process_category cfg key d part_index part_to_separate true ;;
      if Py.str_eqb key "name" then Ok (d', part_to_separate')
      else separate_category_start_loop cfg rest d' part_index part_to_separate'
  end.

(** [separate_category_start] *)
Definition separate_category_start (cfg : config) (d : part_dict)
  (part_index : nat) (part_to_separate : str) : result (part_dict * str) :=
  p <- get_part d (KInt part_index) ;;
  separate_category_start_loop cfg (dict_keys p) d part_index part_to_separate.

(** The loop of [separate_category_end]: the keys of the part in reverse
    order; ["name"] takes what is left, less the prefix, and ends it. *)
Fixpoint separate_category_end_loop (cfg : config) (keys : list str)
  (d : part_dict) (part_index : nat) (part_to_separate prefix_name : str)
  : result (part_dict * str) :=
  match keys with
  | [] => Ok (d, part_to_separate)
  | key :: rest =>
      if Py.str_eqb key "name" then
        d' <- set_item d (KInt part_index) key
                (remove_prefix part_to_separate prefix_name) ;;
        Ok (d', part_to_separate)
      else
        '(d', part_to_separate') <-
          process_category cfg key d part_index part_to_separate false ;;
        separate_category_end_loop cfg rest d' part_index part_to_separate'
          prefix_name
  end.

(** [separate_category_end] *)
Definition separate_category_end (cfg : config) (d : part_dict)
  (part_index : nat) (part_to_separate prefix_name : str)
  : result (part_dict * str) :=
  p <- get_part d (KInt part_index) ;;
  separate_category_end_loop cfg (rev (dict_keys p)) d part_index
    part_to_separate prefix_name.

(** [handle_remaining_part] *)
Definition handle_remaining_part (d : part_dict) (part_index : nat)
  (part_to_separate : str) : result part_dict :=
  p <- get_part d (KInt part_index) ;;
  if negb (dict_mem Py.str_eqb "name" p)
  then set_item d (KInt part_index) "bad_naming" part_to_separate
  else Ok d.

(** [separate_category] *)
Definition separate_category (cfg : config) (name : str)
  (part_index name_part_index : nat) (d : part_dict) (start : bool)
  (prefix_name : str) : result part_dict :=
  part_to_separate <- name_segment name name_part_index ;;
  '(d', part_to_separate') <-
    (if start then separate_category_start cfg d part_index part_to_separate
     else separate_category_end cfg d part_index part_to_separate prefix_name) ;;
  match part_to_separate' with
  | [] => Ok d'
  | _ :: _ => handle_remaining_part d' part_index part_to_separate'
  end.

(** [list.index] *)
Fixpoint list_index (x : str) (l : list str) : result nat :=
  match l with
  | [] => Raise ValueError
  | y :: r => if Py.str_eqb y x then Ok 0 else i <- list_index x r ;; Ok (S i)
  end.

(** [get_before_after_mandatory]; [get_before_after_name] is the same
    code with ['name'] for [mandatory_name]. *)
Definition get_before_after_mandatory (mandatory_name : str) (index : nat)
  (d : part_dict) : result (list str * list str) :=
  p <- get_part d (KInt index) ;;
  let categories_in_part := dict_keys p in
  mandatory_position <- list_index mandatory_name categories_in_part ;;
  if Nat.eqb mandatory_position 0 then
    Ok ([], skipn (mandatory_position + 1) categories_in_part)
  else if Nat.eqb mandatory_position (length categories_in_part - 1) then
    Ok (firstn mandatory_position categories_in_part, [])
  else
    Ok (firstn mandatory_position categories_in_part,
        skipn (mandatory_position + 1) categories_in_part).

Definition get_before_after_name (index : nat) (d : part_dict)
  : result (list str * list str) :=
  get_before_after_mandatory "name" index d.

(** [for category in categories: part_dict = separate_category(...)]:
    the loop variable is not used by the body. *)
Definition separate_category_each (cfg : config) (categories : list str)
  (name : str) (part_index name_part_index : nat) (d : part_dict)
  (start : bool) (prefix_name : str) : result part_dict :=
  for_each categories
    (fun d' _ => separate_category cfg name part_index name_part_index d'
                   start prefix_name)
    d.

(** [for category in before: prefix_name += part_dict[index][category]] *)
Definition extend_prefix (d : part_dict) (index : nat) (before : list str)
  (prefix_name : str) : result str :=
  for_each before
    (fun prefix category =>
       v <- get_item d (KInt index) category ;; Ok (prefix ++ v))
    prefix_name.

(** The body shared by the Exact branch of [inspect_name_structure]
    (with [in_name_pos = index]) and by [handle_name_category]: a part
    that holds ["name"]. *)
Definition name_part_body (cfg : config) (name : str)
  (index in_name_pos : nat) (d : part_dict) (prefix_name : str)
  : result (part_dict * str) :=
  '(before_name_categories, after_name_categories) <-
    get_before_after_name index d ;;
  d1 <- separate_category_each cfg before_name_categories name index
          in_name_pos d true [] ;;
  '(d2, prefix_name') <-
    match after_name_categories with
    | [] => Ok (d1, prefix_name)
    | _ :: _ =>
        prefix_name' <- extend_prefix d1 index before_name_categories prefix_name ;;
        d2 <- separate_category_each cfg (rev after_name_categories) name
                index in_name_pos d1 false prefix_name' ;;
        Ok (d2, prefix_name')
    end ;;
  match before_name_categories, after_name_categories with
  | [], [] =>
      seg <- name_segment name in_name_pos ;;
      d3 <- set_item d2 (KInt index) "name" seg ;;
      Ok (d3, prefix_name')
  | _, _ => Ok (d2, prefix_name')
  end.

Definition int_of_key (k : key) : result nat :=
  match k with
  | KInt i => Ok i
  | KStr _ => Raise ValueError
  end.

(** The loop of the Exact branch, [for index in list(part_dict.keys())],
    threading [part_dict] and [prefix_name]. *)
Fixpoint exact_loop (cfg : config) (name : str) (keys : list key)
  (d : part_dict) (prefix_name : str) : result part_dict :=
  match keys with
  | [] => Ok d
  | k :: rest =>
      p <- get_part d k ;;
      index <- int_of_key k ;;
      if dict_mem Py.str_eqb "name" p then
        '(d', prefix_name') <- name_part_body cfg name index index d prefix_name ;;
        exact_loop cfg name rest d' prefix_name'
      else
        d' <- separate_category_each cfg (dict_keys p) name index index d
                true [] ;;
        exact_loop cfg name rest d' prefix_name
  end.

(** The loop of the Underfilled branch: the first part with ["name"]
    takes the whole input. *)
Fixpoint underfilled_loop (name : str) (keys : list key) (d : part_dict)
  : result part_dict :=
  match keys with
  | [] => Ok d
  | index :: rest =>
      p <- get_part d index ;;
      if dict_mem Py.str_eqb "name" p then set_item d index "name" name
      else underfilled_loop name rest d
  end.

(** ** The traversal used between the mandatory and the full part count *)

(** [handle_bad_naming] *)
Definition handle_bad_naming (d : part_dict) (part_index : nat)
  : result part_dict :=
  p <- get_part d (KInt part_index) ;;
  d' <- for_each (dict_keys p)
          (fun d' key =>
             if negb (Py.str_eqb key "bad_naming")
             then set_item d' (KInt part_index) key []
             else Ok d')
          d ;;
  del_item d' (KInt part_index) "bad_naming".

Definition key_in (k : key) (l : list key) : bool := existsb (key_eqb k) l.

Section Traverse.
Variable cfg : config.
Variable name : str.
Variable len_name_parts : nat.
Variable optional_parts mandatory_parts : list key.
(** The recursive call [traverse_name_parts(name, len_name_parts,
    part_index, in_name_pos, ...)]. *)
Variable traverse : nat -> nat -> part_dict -> result part_dict.

(** [check_optional_part] *)
Definition check_optional_part (part_index in_name_pos : nat) (d : part_dict)
  : result part_dict :=
  p <- get_part d (KInt part_index) ;;
  let categories := dict_keys p in
  '(d1, part_filled) <-
    for_each categories
      (fun '(d', part_filled) category =>
         d'' <- separate_category cfg name part_index in_name_pos d' true [] ;;
         v <- get_item d'' (KInt part_index) category ;;
         Ok (d'', match v with [] => part_filled | _ :: _ => true end))
      (d, false) ;;
  p1 <- get_part d1 (KInt part_index) ;;
  if part_filled : bool then
    traverse (part_index + 1) (in_name_pos + 1) d1
  else if dict_mem Py.str_eqb "bad_naming" p1
          && negb (Nat.eqb part_index len_name_parts) then
    d2 <- handle_bad_naming d1 part_index ;;
    traverse (part_index + 1) in_name_pos d2
  else
    traverse (part_index + 1) (in_name_pos + 1) d1.

(** [handle_name_category] *)
Definition handle_name_category (part_index in_name_pos : nat) (d : part_dict)
  : result part_dict :=
  '(d', _) <- name_part_body cfg name part_index in_name_pos d [] ;;
  traverse (part_index + 1) (in_name_pos + 1) d'.

(** [handle_other_mandatory_category]: the first loop leaves the
    before and after lists of the last mandatory category of the part,
    or nothing bound when the part has none. *)
Definition handle_other_mandatory_category (part_index in_name_pos : nat)
  (d : part_dict) (mandatory_categories : list str) : result part_dict :=
  p <- get_part d (KInt part_index) ;;
  bound <-
    for_each (dict_keys p)
      (fun bound category =>
         if in_list category mandatory_categories
         then ba <- get_before_after_mandatory category part_index d ;;
              Ok (Some ba)
         else Ok bound)
      None ;;
  match bound with
  | None => Raise UnboundLocalError
  | Some (before_name_categories, after_name_categories) =>
      d1 <- separate_category_each cfg before_name_categories name
              part_index in_name_pos d true [] ;;
      d2 <- separate_category_each cfg (rev after_name_categories) name
              part_index in_name_pos d1 false [] ;;
      d3 <-
        match before_name_categories, after_name_categories with
        | [], [] =>
            match last (map Some (dict_keys p)) None with
            | None => Raise UnboundLocalError
            | Some category =>
                seg <- name_segment name in_name_pos ;;
                set_item d2 (KInt part_index) category seg
            end
        | _, _ => Ok d2
        end ;;
      traverse (part_index + 1) (in_name_pos + 1) d3
  end.

(** [check_mandatory_part] *)
Definition check_mandatory_part (part_index in_name_pos : nat) (d : part_dict)
  : result part_dict :=
  let mandatory_categories := MANDATORY_CATEGORIES cfg in
  p <- get_part d (KInt part_index) ;;
  if dict_mem Py.str_eqb "name" p
  then handle_name_category part_index in_name_pos d
  else handle_other_mandatory_category part_index in_name_pos d
         mandatory_categories.

(** The body of [traverse_name_parts]. *)
Definition traverse_body (part_index in_name_pos : nat) (d : part_dict)
  : result part_dict :=
  if Nat.eqb in_name_pos (length (Py.split "_" name)) then Ok d
  else if key_in (KInt part_index) optional_parts
  then check_optional_part part_index in_name_pos d
  else if key_in (KInt part_index) mandatory_parts
  then check_mandatory_part part_index in_name_pos d
  else Ok d.
End Traverse.

(** [traverse_name_parts].  Every call passes [part_index + 1], and a
    [part_index] that is no key of [part_dict] ends the recursion, so
    [depth] above the number of parts is never used up. *)
Fixpoint traverse_name_parts (depth : nat) (cfg : config) (name : str)
  (len_name_parts part_index in_name_pos : nat)
  (optional_parts mandatory_parts : list key) (d : part_dict)
  : result part_dict :=
  match depth with
  | 0 => Raise RecursionError
  | S depth' =>
      traverse_body cfg name len_name_parts optional_parts mandatory_parts
        (fun part_index' in_name_pos' d' =>
           traverse_name_parts depth' cfg name len_name_parts part_index'
             in_name_pos' optional_parts mandatory_parts d')
        part_index in_name_pos d
  end.

(** ** [inspect_name_structure] and [rebuilt_name] *)

Definition inspect_name_structure (cfg : config) (name name_structure : str)
  : result part_dict :=
  let optional_categories := OPTIONAL_CATEGORIES cfg in
  let name_parts := split_structure name_structure in
  let len_name_parts := length name_parts in
  let name_lenght := length (Py.split "_" name) in
  let d := build_part_dict name_parts 0 [] in
  '(optional_parts, mandatory_parts) <- classify_parts optional_categories d ;;
  if Nat.ltb name_lenght (length mandatory_parts) then
    underfilled_loop name (dict_keys d) d
  else if Nat.ltb len_name_parts name_lenght then
    Ok (dict_set key_eqb (KStr "bad_naming") (VStr name) d)
  else if Nat.eqb name_lenght len_name_parts then
    exact_loop cfg name (dict_keys d) d []
  else
    traverse_name_parts (S (S len_name_parts)) cfg name len_name_parts 0 0
      optional_parts mandatory_parts d.

(** The loop of [rebuilt_name] over the parts. *)
Fixpoint rebuilt_loop (items : part_dict) (rebuilt : str) : result str :=
  match items with
  | [] => Ok rebuilt
  | (_, VStr _) :: _ => Raise AttributeError
  | (_, VDict p) :: rest =>
      if forallb (fun v => Py.str_eqb v []) (dict_values p)
      then rebuilt_loop rest rebuilt
      else rebuilt_loop rest (rebuilt ++ concat (dict_values p) ++ "_")
  end.

(** [rebuilt_name].  The value under the top-level ["bad_naming"] is
    returned as it is; the embedding returns strings only, and
    [inspect_name_structure] stores nothing else there. *)
Definition rebuilt_name (d : part_dict) : result str :=
  match dict_get key_eqb (KStr "bad_naming") d with
  | Some (VStr s) => Ok s
  | Some (VDict _) => Raise TypeError
  | None =>
      rebuilt <- rebuilt_loop d [] ;;
      Ok (Py.strip "_" rebuilt)
  end.

(** [rebuild(inspect(name, template))] *)
Definition rebuild_of_inspect (cfg : config) (name name_structure : str)
  : result str :=
  d <- inspect_name_structure cfg name name_structure ;;
  rebuilt_name d.

(** ** [rename_non_unique_name] (outliner_logics.py)

    [mc.objExists] is the scene's existence test, a parameter here.  A
    [while] loop runs on [fuel]: [None] says that the loop was still
    running when the fuel ran out. *)

(** [category in part_dict[index]]: key membership on a dictionary, the
    substring test on a string. *)
Definition value_has (category : str) (v : value) : bool :=
  match v with
  | VDict p => dict_mem Py.str_eqb category p
  | VStr s => Py.contains category s
  end.

Inductive inc_slot : Type :=
| AlphabeticalInc (found_index : key)
| NumericalInc (found_index : key)
| NoInc.

(** The first loop: the first part that has either increment. *)
Fixpoint find_inc_slot (items : part_dict) : inc_slot :=
  match items with
  | [] => NoInc
  | (index, v) :: rest =>
      if value_has "alphabetical_inc" v then AlphabeticalInc index
      else if value_has "numerical_inc" v then NumericalInc index
      else find_inc_slot rest
  end.

(** [before, sep, after = long_name.rpartition("|")] followed by
    [f"{before}{sep}{new_short_name}"]. *)
Definition with_short_name (long_name new_short_name : str) : str :=
  let '(before, sep, _) := Py.rpartition "|" long_name in
  before ++ sep ++ new_short_name.

(** The four lines that set an increment, rebuild and rename. *)
Definition set_inc (d : part_dict) (found_index : key) (category v long_name : str)
  : result (str * str * part_dict) :=
  d' <- set_item d found_index category v ;;
  new_short_name <- rebuilt_name d' ;;
  Ok (new_short_name, with_short_name long_name new_short_name, d').

Definition str_of_Z (n : Z) : str := Py.format_0d 0 n.

Section Unique.
Variable cfg : config.
Variable objExists : str -> bool.

Definition n_inc_str (n_inc : Z) : str :=
  Py.format_0d (INC_NUMBER_OF_DIGITS cfg) n_inc.

Fixpoint a_inc_loop (fuel : nat) (found_index : key) (a_inc : str)
  (new_short_name long_name : str) (d : part_dict)
  : option (result (str * part_dict)) :=
  match fuel with
  | 0 => None
  | S fuel' =>
      if objExists long_name then
        match
          (a_inc' <- Py.chr_succ a_inc ;;
           r <- set_inc d found_index "alphabetical_inc" a_inc' long_name ;;
           Ok (a_inc', r))
        with
        | Ok (a_inc', (new_short_name', long_name', d')) =>
            a_inc_loop fuel' found_index a_inc' new_short_name' long_name' d'
        | Raise e => Some (Raise e)
        end
      else Some (Ok (new_short_name, d))
  end.

Fixpoint n_inc_loop (fuel : nat) (found_index : key) (n_inc : Z)
  (new_short_name long_name : str) (d : part_dict)
  : option (result (str * part_dict)) :=
  match fuel with
  | 0 => None
  | S fuel' =>
      if objExists long_name then
        match set_inc d found_index "numerical_inc" (n_inc_str (n_inc + 1))
                long_name with
        | Ok (new_short_name', long_name', d') =>
            n_inc_loop fuel' found_index (n_inc + 1) new_short_name'
              long_name' d'
        | Raise e => Some (Raise e)
        end
      else Some (Ok (new_short_name, d))
  end.

(** [while mc.objExists(long_name): suffix += 1;
    long_name = f"{long_name[:-1]}{suffix}"] *)
Fixpoint suffix_loop (fuel : nat) (suffix : Z) (long_name : str)
  : option str :=
  match fuel with
  | 0 => None
  | S fuel' =>
      if objExists long_name then
        suffix_loop fuel' (suffix + 1)
          (Py.slice_but_last 1 long_name ++ str_of_Z (suffix + 1))
      else Some long_name
  end.

Definition rename_non_unique_name (fuel : nat) (long_name : str)
  (name_part_dict : part_dict) (a_inc : str) (n_inc : Z)
  : option (result (str * part_dict)) :=
  match find_inc_slot name_part_dict with
  | AlphabeticalInc found_index =>
      match set_inc name_part_dict found_index "alphabetical_inc" a_inc
              long_name with
      | Ok (new_short_name, long_name', d) =>
          a_inc_loop fuel found_index a_inc new_short_name long_name' d
      | Raise e => Some (Raise e)
      end
  | NumericalInc found_index =>
      match set_inc name_part_dict found_index "numerical_inc"
              (n_inc_str n_inc) long_name with
      | Ok (new_short_name, long_name', d) =>
          n_inc_loop fuel found_index n_inc new_short_name long_name' d
      | Raise e => Some (Raise e)
      end
  | NoInc =>
      match rev long_name with
      | [] => Some (Raise IndexError)
      | c :: _ =>
          let '(suffix, long_name') :=
            if Py.isdigit [c]
            then (Z.of_nat (nat_of_ascii c - 48) + 1,
                  Py.slice_but_last 1 long_name
                    ++ str_of_Z (Z.of_nat (nat_of_ascii c - 48) + 1))%Z
            else (1%Z, long_name ++ "1") in
          match suffix_loop fuel suffix long_name' with
          | Some long_name'' =>
              Some (Ok (last (Py.split "|" long_name'') [], name_part_dict))
          | None => None
          end
      end
  end.
End Unique.

(** ** The category edits of [renamer_logics.py] *)

(** [get_name_from_item_data], from the long name the item holds. *)
Definition get_name_from_item_data (long_name : str) : result str :=
  match long_name with
  | [] => Raise ValueError
  | _ :: _ =>
      if Py.contains "|" long_name
      then Ok (last (Py.split "|" long_name) [])
      else Ok long_name
  end.

(** [for index in name_part_dict: if category in name_part_dict[index]:
    name_part_dict[index][category] = value] *)
Definition edit_loop (category v : str) (d : part_dict) : result part_dict :=
  for_each (dict_keys d)
    (fun d' index =>
       match dict_get key_eqb index d' with
       | None => Raise KeyError
       | Some entry =>
           if value_has category entry then set_item d' index category v
           else Ok d'
       end)
    d.

(** The six edits are one text with six category names; each returns
    the name it hands to [tree_widget.start_editing_by_renamer]. *)
Definition rename_with_category (category : str) (cfg : config)
  (long_name v : str) : result str :=
  name <- get_name_from_item_data long_name ;;
  match name with
  | [] => Raise ValueError
  | _ :: _ =>
      name_part_dict <- inspect_name_structure cfg name (NAME_STRUCTURE cfg) ;;
      name_part_dict' <- edit_loop category v name_part_dict ;;
      rebuilt_name name_part_dict'
  end.

Definition rename_with_type := rename_with_category "type".
Definition rename_with_zoning := rename_with_category "zoning".
Definition rename_with_orient := rename_with_category "orientation".
Definition rename_with_a_inc := rename_with_category "alphabetical_inc".
Definition rename_with_n_inc := rename_with_category "numerical_inc".
Definition rename_with_symmetry := rename_with_category "symmetry".
Definition rename_with_short_name := rename_with_category "name".

(** ** Vocabulary of the specification *)

Definition nonempty (s : str) : bool :=
  match s with
  | [] => false
  | _ :: _ => true
  end.

(** The category dictionaries of the template's parts, in order. *)
Definition template_parts (name_structure : str) : list part :=
  map part_categories (split_structure name_structure).

(** The part dictionary that holds the parts [ps] under the keys
    [i], [i + 1], ... *)
Fixpoint index_parts (i : nat) (ps : list part) : part_dict :=
  match ps with
  | [] => []
  | p :: r => (KInt i, VDict p) :: index_parts (S i) r
  end.

(** The regimes of [inspect_name_structure]: [N] segments against [P]
    template parts, [M] of them mandatory. *)
Definition segment_count (name : str) : nat := length (Py.split "_" name).
Definition part_count (name_structure : str) : nat :=
  length (split_structure name_structure).
Definition is_optional_part (cfg : config) (p : part) : bool :=
  forallb (fun category => in_list category (OPTIONAL_CATEGORIES cfg))
          (dict_keys p).
Definition mandatory_count (cfg : config) (name_structure : str) : nat :=
  length (filter (fun p => negb (is_optional_part cfg p))
                 (template_parts name_structure)).

Definition overfilled (name_structure name : str) : Prop :=
  part_count name_structure < segment_count name.
Definition underfilled (cfg : config) (name_structure name : str) : Prop :=
  segment_count name < mandatory_count cfg name_structure.
Definition exact (name_structure name : str) : Prop :=
  segment_count name = part_count name_structure.

(** No candidate of a vocabulary is the empty string. *)
Definition vocabulary_ok (cfg : config) : bool :=
  forallb nonempty
    (SYMMETRY_OPTIONS cfg ++ ALL_TYPES_DICT cfg ++ ZONING_SINGLE_DICT cfg
       ++ ORIENT_SINGLE_DICT cfg).

(** In a part that holds ["name"], it is the first or the last category. *)
Definition name_first_or_last (categories : list str) : bool :=
  negb (in_list "name" categories)
  || Py.str_eqb (hd [] categories) "name"
  || Py.str_eqb (last categories []) "name".

(** Every part of the template declares a category, none is called
    ["bad_naming"], and ["name"] is first or last where it occurs. *)
Definition structure_ok (name_structure : str) : bool :=
  forallb
    (fun p =>
       let categories := dict_keys p in
       negb (Nat.eqb (length categories) 0)
       && negb (in_list "bad_naming" categories)
       && name_first_or_last categories)
    (template_parts name_structure).

Definition has_name_category (name_structure : str) : bool :=
  existsb (fun p => dict_mem Py.str_eqb "name" p) (template_parts name_structure).

Definition segments_nonempty (name : str) : bool :=
  forallb nonempty (Py.split "_" name).




(** The text a part contributes to the rebuilt name. *)
Definition render (p : part) : str := concat (dict_values p).

(** ** The part-level view of the peeling

    What [process_category] and the loops around it do to the one part
    [part_dict[part_index]] they touch. *)

Definition peel_value (cfg : config) (key part_to_separate : str) (start : bool)
  : result (option str * str) :=
  match dict_get Py.str_eqb key (category_lists cfg) with
  | Some entry =>
      '(value, rest) <-
        (if Py.str_eqb key "orientation" || Py.str_eqb key "zoning" then
           match entry with
           | Values l => separate_value_recursive part_to_separate l start
           | Digits _ => Raise TypeError
           end
         else if Py.str_eqb key "numerical_inc" then
           Ok (separate_number part_to_separate (INC_NUMBER_OF_DIGITS cfg) start)
         else
           match entry with
           | Values l => Ok (separate_value part_to_separate l start)
           | Digits _ => Raise TypeError
           end) ;;
      Ok (Some value, rest)
  | None =>
      if Py.str_eqb key "name" then Ok (Some part_to_separate, [])
      else Ok (None, part_to_separate)
  end.

Definition assign (key : str) (ov : option str) (p : part) : part :=
  match ov with
  | Some v => dict_set Py.str_eqb key v p
  | None => p
  end.

Fixpoint start_keys (cfg : config) (keys : list str) (p : part) (s : str)
  : result (part * str) :=
  match keys with
  | [] => Ok (p, s)
  | key :: rest =>
      '(ov, r) <- peel_value cfg key s true ;;
      if Py.str_eqb key "name" then Ok (assign key ov p, r)
      else start_keys cfg rest (assign key ov p) r
  end.

Fixpoint end_keys (cfg : config) (keys : list str) (p : part) (s prefix_name : str)
  : result (part * str) :=
  match keys with
  | [] => Ok (p, s)
  | key :: rest =>
      if Py.str_eqb key "name"
      then Ok (dict_set Py.str_eqb key (remove_prefix s prefix_name) p, s)
      else
        '(ov, r) <- peel_value cfg key s false ;;
        end_keys cfg rest (assign key ov p) r prefix_name
  end.

(** [separate_category] on the part it touches, given the segment. *)
Definition separate_part (cfg : config) (p : part) (s : str) (start : bool)
  (prefix_name : str) : result part :=
  '(p', r) <-
    (if start then start_keys cfg (dict_keys p) p s
     else end_keys cfg (rev (dict_keys p)) p s prefix_name) ;;
  match r with
  | [] => Ok p'
  | _ :: _ =>
      if negb (dict_mem Py.str_eqb "name" p')
      then Ok (dict_set Py.str_eqb "bad_naming" r p')
      else Ok p'
  end.

Definition put (d : part_dict) (i : nat) (p : part) : part_dict :=
  dict_set key_eqb (KInt i) (VDict p) d.

(** The same loops read off the entries of the part, which is what they
    are when the keys of the part are the keys the loop runs over. *)

Definition assigned (ov : option str) (u : str) : str :=
  match ov with
  | Some v => v
  | None => u
  end.

Fixpoint start_entries (cfg : config) (p : part) (s : str)
  : result (part * str) :=
  match p with
  | [] => Ok ([], s)
  | (k, u) :: rest =>
      '(ov, r) <- peel_value cfg k s true ;;
      if Py.str_eqb k "name" then Ok ((k, assigned ov u) :: rest, r)
      else
        '(rest', r') <- start_entries cfg rest r ;;
        Ok ((k, assigned ov u) :: rest', r')
  end.

(** [rp] lists the entries of the part from the last to the first. *)
Fixpoint end_entries (cfg : config) (rp : part) (s prefix_name : str)
  : result (part * str) :=
  match rp with
  | [] => Ok ([], s)
  | (k, u) :: rest =>
      if Py.str_eqb k "name"
      then Ok ((k, remove_prefix s prefix_name) :: rest, s)
      else
        '(ov, r) <- peel_value cfg k s false ;;
        '(rest', r') <- end_entries cfg rest r prefix_name ;;
        Ok ((k, assigned ov u) :: rest', r')
  end.

(** A part as the template declares it: distinct categories, no value yet. *)
Definition fresh_part (p : part) : Prop :=
  NoDup (dict_keys p) /\ Forall (fun e => snd e = []) p.

(** What the Exact branch needs of a template part. *)
Definition part_ok (q : part) : Prop :=
  fresh_part q /\
  dict_keys q <> [] /\
  ~ In ("bad_naming" : str) (dict_keys q) /\
  name_first_or_last (dict_keys q) = true.

(** The number of decimal digits that stand at the anchored end of a
    fragment. *)
Fixpoint leading_digits (s : str) : nat :=
  match s with
  | [] => 0
  | c :: r => if Py.is_digit c then S (leading_digits r) else 0
  end.

Definition digit_run (s : str) (start : bool) : nat :=
  if start then leading_digits s else leading_digits (rev s).

(** The Underfilled policy in the words of the specification: the first
    part that contains ["name"] takes the whole input as its name, every
    other category stays as the template has it, empty. *)
Fixpoint assign_first_name (name : str) (ps : list part) : list part :=
  match ps with
  | [] => []
  | p :: r =>
      if dict_mem Py.str_eqb "name" p
      then dict_set Py.str_eqb "name" name p :: r
      else p :: assign_first_name name r
  end.

(** [rebuild(inspect(rebuild(inspect(name))))] *)
Definition rebuild_twice (cfg : config) (name name_structure : str)
  : result str :=
  m <- rebuild_of_inspect cfg name name_structure ;;
  rebuild_of_inspect cfg m name_structure.

(** A value and the rest of the fragment it was peeled from, put back
    together on the side the peeling was anchored at. *)
Definition glue (start : bool) (value rest : str) : str :=
  if start then value ++ rest else rest ++ value.

(** ** The settings and the scene of the specification's examples *)

(** The vocabulary of the exact-match example: one type, two zonings. *)
Definition example_config : config := {|
  NAME_STRUCTURE := "[type]_[name][zoning]";
  OPTIONAL_CATEGORIES := OPTIONAL_CATEGORIES default_config;
  MANDATORY_CATEGORIES := MANDATORY_CATEGORIES default_config;
  SYMMETRY_OPTIONS := SYMMETRY_OPTIONS default_config;
  ALL_TYPES_DICT := strs ["prp"];
  ZONING_SINGLE_DICT := strs ["Tp"; "Lt"];
  ORIENT_SINGLE_DICT := ORIENT_SINGLE_DICT default_config;
  INC_NUMBER_OF_DIGITS := 3
|}.

(** The scene of the specification's example: ["obj_001"] to
    ["obj_010"] exist, nothing else does. *)
Definition scene_obj_001_010 (long_name : str) : bool :=
  in_list long_name
    (strs ["obj_001"; "obj_002"; "obj_003"; "obj_004"; "obj_005";
           "obj_006"; "obj_007"; "obj_008"; "obj_009"; "obj_010"]).

Definition obj_part_dict (n : string) : part_dict :=
  [(KInt 0, VDict [("name" : str, "obj" : str)]);
   (KInt 1, VDict [("numerical_inc" : str, list_ascii_of_string n)])].

(** [v] stands at the anchored end of [s]: [s.startswith(v)] when the
    peeling runs from the start, [s.endswith(v)] when it runs from the end. *)
Definition matches_at (start : bool) (s v : str) : bool :=
  if start then Py.startswith s v else Py.endswith s v.

(** The first candidate of the catalogue, in its order, that stands at
    the anchored end; the empty string when none does. *)
Definition first_match (start : bool) (s : str) (l : list str) : str :=
  match find (matches_at start s) l with
  | Some v => v
  | None => []
  end.

(** No candidate stands at the anchored end of another one: the
    vocabulary is a prefix code (a suffix code, for the peeling from the
    end). *)
Definition code_free (start : bool) (l : list str) : bool :=
  forallb
    (fun a => forallb (fun b => implb (matches_at start a b) (Py.str_eqb a b)) l)
    l.

(** ** Writing a template

    The text of a template whose parts are given as lists of category
    identifiers: each category between brackets, the parts joined by
    underscores. *)

(** [sep.join(l)] for a one-character separator. *)
Fixpoint join (sep : ascii) (l : list str) : str :=
  match l with
  | [] => []
  | [x] => x
  | x :: r => x ++ sep :: join sep r
  end.

Definition bracketed (category : str) : str := "[" ++ category ++ "]".

Definition part_text (categories : list str) : str :=
  concat (map bracketed categories).

Definition template_text (parts : list (list str)) : str :=
  join "_" (map part_text parts).

(** A category identifier: not empty, no bracket in it. *)
Definition no_bracket (category : str) : bool :=
  forallb (fun c => negb (Ascii.eqb c "[") && negb (Ascii.eqb c "]")) category.

Fixpoint distinct (l : list str) : bool :=
  match l with
  | [] => true
  | x :: r => negb (in_list x r) && distinct r
  end.

Definition categories_ok (categories : list str) : bool :=
  forallb (fun c => nonempty c && no_bracket c) categories && distinct categories.

(** The category dictionary of a part as the template declares it. *)
Definition empty_part (categories : list str) : part :=
  map (fun c => (c, [])) categories.

(** What [split_structure] does with the text in front of a fragment
    that holds no separator. *)
Definition prepend (w : str) (l : list str) : list str :=
  match l with
  | [] => [w]
  | h :: t => (w ++ h) :: t
  end.

(** A part with the value of every category erased. *)
Definition cleared (p : part) : part := map (fun e => (fst e, [])) p.

(** The loop of [handle_bad_naming] on the part it touches. *)
Definition clear_keys (keys : list str) (p : part) : part :=
  fold_left
    (fun q key =>
       if negb (Py.str_eqb key "bad_naming") then dict_set Py.str_eqb key [] q
       else q)
    keys p.

(** A small part dictionary: a name with a type, the optional parts empty. *)
Definition prp_jar_part_dict : part_dict :=
  [(KInt 0, VDict [("symmetry" : str, [])]);
   (KInt 1, VDict [("type" : str, "prp" : str)]);
   (KInt 2, VDict [("name" : str, "jar" : str); ("zoning" : str, [])]);
   (KInt 3, VDict [("numerical_inc" : str, [])])].

(** ** Long names (outliner_logics.py) *)

(** [set_new_long_name], the name it returns from the long name the
    item holds; [mc.rename] and [update_children_data] act on the scene
    and on the children of the item. *)
Definition set_new_long_name (old_long_name short_name : str) : str :=
  let '(before, sep, _) := Py.rpartition "|" old_long_name in
  let new_long_name := before ++ sep ++ short_name in
  match sep with
  | [] => short_name
  | _ :: _ => new_long_name
  end.

(** The path of the parent in a long name: the text up to the last pipe,
    the pipe included; empty for a name without pipe. *)
Definition parent_path (long_name : str) : str :=
  let '(before, sep, _) := Py.rpartition "|" long_name in
  before ++ sep.

(** A scene in which [base] with the suffixes 1 to 10 exists. *)
Definition ten_suffixes_exist (objExists : str -> bool) (base : str) : bool :=
  forallb (fun k => objExists (base ++ k))
    (strs ["1"; "2"; "3"; "4"; "5"; "6"; "7"; "8"; "9"; "10"]).

(** The entries of a part that stand before ["name"]. *)
Fixpoint before_name (p : part) : part :=
  match p with
  | [] => []
  | (k, v) :: r => if Py.str_eqb k "name" then [] else (k, v) :: before_name r
  end.

(** In the part [p] matched against the segment [s], the categories
    before ["name"], peeled from the start, and those after it, peeled
    from the end, do not overlap: what the end peeling leaves is at
    least as long as the prefix the start peeling took. *)
Definition peeled_apart (cfg : config) (p : part) (s : str) : bool :=
  match start_entries cfg p s with
  | Ok (p1, _) =>
      let prefix_name := render (before_name p1) in
      match end_entries cfg (rev p1) s prefix_name with
      | Ok (_, r) => Nat.leb (length prefix_name) (length r)
      | Raise _ => false
      end
  | Raise _ => false
  end.

(** In every part of the template that holds ["name"], matched against
    its segment of the name, the two peelings do not overlap. *)
Definition peels_apart (cfg : config) (name_structure name : str) : bool :=
  forallb
    (fun ps => negb (dict_mem Py.str_eqb "name" (fst ps))
               || peeled_apart cfg (fst ps) (snd ps))
    (combine (template_parts name_structure) (Py.split "_" name)).

Definition name_count (ps : list part) : nat :=
  length (filter (fun p => dict_mem Py.str_eqb "name" p) ps).

(** At most one part of the template holds ["name"]. *)
Definition single_name (name_structure : str) : bool :=
  Nat.leb (name_count (template_parts name_structure)) 1.

(** Every part of the template declares a category, none of them called
    ["bad_naming"]. *)
Definition structure_declared (name_structure : str) : bool :=
  forallb
    (fun p =>
       let categories := dict_keys p in
       negb (Nat.eqb (length categories) 0)
       && negb (in_list "bad_naming" categories))
    (template_parts name_structure).

Definition part_declared (q : part) : Prop :=
  fresh_part q /\
  dict_keys q <> [] /\
  ~ In ("bad_naming" : str) (dict_keys q).

(** Two parts hold the same categories, ["bad_naming"] apart. *)
Definition same_categories (q' q : part) : Prop :=
  forall c : str,
    c <> "bad_naming" ->
    dict_mem Py.str_eqb c q' = dict_mem Py.str_eqb c q.

(** ** The category edits on the parts *)

(** What the edit loop of [rename_with_type] and its siblings does to
    one part: the value is written where the part holds the category. *)
Definition edit_part (category v : str) (q : part) : part :=
  if dict_mem Py.str_eqb category q then dict_set Py.str_eqb category v q
  else q.

(** [l] with its element at index [i] replaced; [l] itself when it has
    no such element. *)
Fixpoint set_nth {A : Type} (i : nat) (x : A) (l : list A) : list A :=
  match l, i with
  | [], _ => []
  | _ :: r, 0 => x :: r
  | y :: r, S i' => y :: set_nth i' x r
  end.

(** No part of the template holds the category. *)
Definition category_absent (category name_structure : str) : bool :=
  forallb (fun p => negb (dict_mem Py.str_eqb category p))
    (template_parts name_structure).

(** The part at index [i] of the template holds the category and nothing
    else, and no other part holds it. *)
Definition category_alone_at (category name_structure : str) (i : nat) : bool :=
  forallb
    (fun jp =>
       if Nat.eqb (fst jp) i
       then match snd jp with
            | [(c, _)] => Py.str_eqb c category
            | _ => false
            end
       else negb (dict_mem Py.str_eqb category (snd jp)))
    (combine (seq 0 (length (template_parts name_structure)))
             (template_parts name_structure))
  && Nat.ltb i (length (template_parts name_structure)).

(** ** The category lists and the compound vocabularies of [constants.py] *)

(** The loops [for value in defaults: if value not in acc and value not
    in others: acc.append(value)] of [build_categories_dict]. *)
Definition add_missing (others defaults acc : list str) : list str :=
  fold_left
    (fun acc value =>
       if negb (in_list value acc) && negb (in_list value others)
       then acc ++ [value]
       else acc)
    defaults acc.

(** The loop over the check boxes of the preset: a ticked category is
    optional, the others are mandatory. *)
Definition split_checkbox (entries : list (str * bool)) : list str * list str :=
  fold_left
    (fun '(optional_categories, mandatory_categories) '(key, value) =>
       if value : bool
       then (optional_categories ++ [key], mandatory_categories)
       else (optional_categories, mandatory_categories ++ [key]))
    entries ([], []).

(** [build_categories_dict], from what [get_user_optional_checkbox]
    reads in the settings file: [None] without preset, otherwise the
    check boxes of the last preset.  It returns the optional and the
    mandatory categories. *)
Definition build_categories_dict (checkbox : option (list (str * bool)))
  : list str * list str :=
  match checkbox with
  | None | Some [] =>
      (OPTIONAL_CATEGORIES default_config, MANDATORY_CATEGORIES default_config)
  | Some entries =>
      let '(optional_categories, mandatory_categories) := split_checkbox entries in
      let mandatory_categories :=
        add_missing optional_categories (MANDATORY_CATEGORIES default_config)
          mandatory_categories in
      let optional_categories :=
        add_missing mandatory_categories (OPTIONAL_CATEGORIES default_config)
          optional_categories in
      (optional_categories, mandatory_categories)
  end.

(** The compound entries [d[key] = d[first] + d[second]] of
    [build_zoning_dict] and [build_orientation_dict], in order. *)
Definition add_compounds (compounds : list (str * (str * str)))
  (single_dict : list (str * str)) : result (list (str * str)) :=
  for_each compounds
    (fun d '(key, (first, second)) =>
       match dict_get Py.str_eqb first d with
       | None => Raise KeyError
       | Some x =>
           match dict_get Py.str_eqb second d with
           | None => Raise KeyError
           | Some y => Ok (dict_set Py.str_eqb key (x ++ y) d)
           end
       end)
    single_dict.

Definition zoning_compounds : list (str * (str * str)) :=
  [ ("Top_Left" : str, ("Top" : str, "Left" : str));
    ("Top_Center" : str, ("Top" : str, "Center" : str));
    ("Top_Right" : str, ("Top" : str, "Right" : str));
    ("Middle_Left" : str, ("Middle" : str, "Left" : str));
    ("Middle_Center" : str, ("Middle" : str, "Center" : str));
    ("Middle_Right" : str, ("Middle" : str, "Right" : str));
    ("Bottom_Left" : str, ("Bottom" : str, "Left" : str));
    ("Bottom_Center" : str, ("Bottom" : str, "Center" : str));
    ("Bottom_Right" : str, ("Bottom" : str, "Right" : str));
    ("Front_Left" : str, ("Front" : str, "Left" : str));
    ("Front_Center" : str, ("Front" : str, "Center" : str));
    ("Front_Right" : str, ("Front" : str, "Right" : str));
    ("Back_Left" : str, ("Back" : str, "Left" : str));
    ("Back_Center" : str, ("Back" : str, "Center" : str));
    ("Back_Right" : str, ("Back" : str, "Right" : str)) ].

Definition orientation_compounds : list (str * (str * str)) :=
  [ ("North_East" : str, ("North" : str, "East" : str));
    ("North_West" : str, ("North" : str, "West" : str));
    ("South_East" : str, ("South" : str, "East" : str));
    ("South_West" : str, ("South" : str, "West" : str)) ].

(** [build_zoning_dict] and [build_orientation_dict], from the
    dictionaries of the single tokens. *)
Definition build_zoning_dict (zoning_single_dict : list (str * str))
  : result (list (str * str)) :=
  add_compounds zoning_compounds zoning_single_dict.

Definition build_orientation_dict (orient_single_dict : list (str * str))
  : result (list (str * str)) :=
  add_compounds orientation_compounds orient_single_dict.

(** The default dictionary of the single zoning tokens
    ([default_settings.py], keyed by the capitalised names). *)
Definition default_zoning_single_dict : list (str * str) :=
  [ ("Left" : str, "Lt" : str); ("Center" : str, "Ct" : str);
    ("Right" : str, "Rt" : str); ("Top" : str, "Tp" : str);
    ("Middle" : str, "Md" : str); ("Bottom" : str, "Bt" : str);
    ("Front" : str, "Ft" : str); ("Back" : str, "Bk" : str) ].

(** The names a compound reads are not names a compound writes. *)
Definition compounds_apart (compounds : list (str * (str * str))) : bool :=
  forallb
    (fun c =>
       negb (in_list (fst (snd c)) (map fst compounds))
       && negb (in_list (snd (snd c)) (map fst compounds)))
    compounds.

(** The names the compound entries read, in the order of the reads. *)
Definition single_names (compounds : list (str * (str * str))) : list str :=
  flat_map (fun c => [fst (snd c); snd (snd c)]) compounds.

(** What [build_zoning_dict] and [build_orientation_dict] do on a
    dictionary of single tokens: [KeyError] when a name that is read is
    no key; otherwise every compound key holds the two tokens put
    together and the other keys hold what they held. *)
Definition compounds_built (compounds : list (str * (str * str)))
  (build : list (str * str) -> result (list (str * str)))
  (single_dict : list (str * str)) : Prop :=
  if forallb (fun n => dict_mem Py.str_eqb n single_dict) (single_names compounds)
  then
    exists d,
      build single_dict = Ok d /\
      (forall key a b, In (key, (a, b)) compounds ->
         exists x y, dict_get Py.str_eqb a single_dict = Some x /\
                     dict_get Py.str_eqb b single_dict = Some y /\
                     dict_get Py.str_eqb key d = Some (x ++ y)) /\
      (forall k, ~ In k (map fst compounds) ->
         dict_get Py.str_eqb k d = dict_get Py.str_eqb k single_dict)
  else build single_dict = Raise KeyError.

(** ** The traversal, part by part *)

(** None of the categories holds a value in the part. *)
Definition unfilled (categories : list str) (p : part) : bool :=
  forallb
    (fun c =>
       match dict_get Py.str_eqb c p with
       | Some [] => true
       | _ => false
       end)
    categories.

(** A template with a category [foo] of the user's own after the name. *)
Definition foo_config : config := {|
  NAME_STRUCTURE := "[symmetry]_[type]_[name]_[foo]";
  OPTIONAL_CATEGORIES := OPTIONAL_CATEGORIES default_config;
  MANDATORY_CATEGORIES := MANDATORY_CATEGORIES default_config;
  SYMMETRY_OPTIONS := SYMMETRY_OPTIONS default_config;
  ALL_TYPES_DICT := ALL_TYPES_DICT default_config;
  ZONING_SINGLE_DICT := ZONING_SINGLE_DICT default_config;
  ORIENT_SINGLE_DICT := ORIENT_SINGLE_DICT default_config;
  INC_NUMBER_OF_DIGITS := INC_NUMBER_OF_DIGITS default_config
|}.

(** Every integer key of the list is below [n]. *)
Definition keys_below (n : nat) (l : list key) : bool :=
  forallb
    (fun k =>
       match k with
       | KInt i => Nat.ltb i n
       | KStr _ => true
       end)
    l.

(** A zoning vocabulary in which ["T"] stands ahead of ["Tp"] and ["Lt"]. *)
Definition t_first_config : config := {|
  NAME_STRUCTURE := NAME_STRUCTURE default_config;
  OPTIONAL_CATEGORIES := OPTIONAL_CATEGORIES default_config;
  MANDATORY_CATEGORIES := MANDATORY_CATEGORIES default_config;
  SYMMETRY_OPTIONS := SYMMETRY_OPTIONS default_config;
  ALL_TYPES_DICT := ALL_TYPES_DICT default_config;
  ZONING_SINGLE_DICT := strs ["T"; "Tp"; "Lt"];
  ORIENT_SINGLE_DICT := ORIENT_SINGLE_DICT default_config;
  INC_NUMBER_OF_DIGITS := INC_NUMBER_OF_DIGITS default_config
|}.

(** The part dictionary [d] with the [numerical_inc] of its part [i],
    which is [p], set to the number [n] zero-padded to the configured
    width. *)
Definition numbered (cfg : config) (d : part_dict) (i : nat) (p : part) (n : Z)
  : part_dict :=
  put d i (dict_set Py.str_eqb "numerical_inc" (n_inc_str cfg n) p).

(** The scene of the specification's example under the group [|grp]:
    [|grp|obj_001] to [|grp|obj_010] exist, nothing else does. *)
Definition scene_grp_obj_001_010 (long_name : str) : bool :=
  in_list long_name
    (strs ["|grp|obj_001"; "|grp|obj_002"; "|grp|obj_003"; "|grp|obj_004";
           "|grp|obj_005"; "|grp|obj_006"; "|grp|obj_007"; "|grp|obj_008";
           "|grp|obj_009"; "|grp|obj_010"]).

(** A scene in which [|grp|jar1] and [|grp|jar2] exist, nothing else. *)
Definition scene_grp_jar_1_2 (long_name : str) : bool :=
  in_list long_name (strs ["|grp|jar1"; "|grp|jar2"]).

(** * Properties *)

(** ** Equality tests and string slices *)

Lemma str_eqb_eq (a b : str) : Py.str_eqb a b = true <-> a = b.
Proof.
  revert b; induction a as [|c a IH]; intros [|d b]; simpl; split;
    try congruence; try reflexivity.
  - intros H. apply andb_true_iff in H as [H1 H2].
    apply Ascii.eqb_eq in H1. apply IH in H2. congruence.
  - intros H. injection H as -> ->. apply andb_true_iff. split.
    + apply Ascii.eqb_refl.
    + now apply IH.
Qed.

Lemma str_eqb_refl (a : str) : Py.str_eqb a a = true.
Proof. now apply str_eqb_eq. Qed.

Lemma str_eqb_neq (a b : str) : Py.str_eqb a b = false <-> a <> b.
Proof.
  split.
  - intros H E. apply str_eqb_eq in E. congruence.
  - intros H. destruct (Py.str_eqb a b) eqn:E; [|reflexivity].
    apply str_eqb_eq in E. contradiction.
Qed.

Lemma str_eqb_sym (a b : str) : Py.str_eqb a b = Py.str_eqb b a.
Proof.
  destruct (Py.str_eqb b a) eqn:E.
  - apply str_eqb_eq in E. subst. apply str_eqb_refl.
  - apply str_eqb_neq in E. apply str_eqb_neq. congruence.
Qed.

Lemma key_eqb_eq (a b : key) : key_eqb a b = true <-> a = b.
Proof.
  destruct a as [i|s], b as [j|t]; simpl; split; try congruence.
  - intros H. apply Nat.eqb_eq in H. congruence.
  - intros H. injection H as ->. apply Nat.eqb_refl.
  - intros H. apply str_eqb_eq in H. congruence.
  - intros H. injection H as ->. apply str_eqb_refl.
Qed.

Lemma key_eqb_refl (a : key) : key_eqb a a = true.
Proof. now apply key_eqb_eq. Qed.

Lemma in_list_In (s : str) (l : list str) : in_list s l = true <-> In s l.
Proof.
  unfold in_list. rewrite existsb_exists. split.
  - intros [x [Hx E]]. apply str_eqb_eq in E. now subst.
  - intros H. exists s. split; [assumption|apply str_eqb_refl].
Qed.

Lemma startswith_inv (s v : str) :
  Py.startswith s v = true -> s = v ++ skipn (length v) s.
Proof.
  revert s; induction v as [|c v IH]; intros s H; simpl in *.
  - reflexivity.
  - destruct s as [|d s]; [discriminate|].
    apply andb_true_iff in H as [H1 H2]. apply Ascii.eqb_eq in H1. subst d.
    simpl. f_equal. now apply IH.
Qed.

Lemma startswith_app (v r : str) : Py.startswith (v ++ r) v = true.
Proof.
  induction v as [|c v IH]; simpl; [now destruct r|].
  now rewrite Ascii.eqb_refl, IH.
Qed.

Lemma slice_but_last_rev (n : nat) (s : str) :
  n <> 0 -> Py.slice_but_last n s = rev (skipn n (rev s)).
Proof.
  intros Hn. destruct n as [|n]; [contradiction|]. unfold Py.slice_but_last.
  rewrite skipn_rev, rev_involutive. reflexivity.
Qed.

Lemma slice_last_rev (n : nat) (s : str) :
  n <> 0 -> Py.slice_last n s = rev (firstn n (rev s)).
Proof.
  intros Hn. destruct n as [|n]; [contradiction|]. unfold Py.slice_last.
  rewrite firstn_rev, rev_involutive. reflexivity.
Qed.

Lemma slice_last_but_last (n : nat) (s : str) :
  Py.slice_but_last n s ++ Py.slice_last n s = s.
Proof.
  destruct n as [|n]; simpl; [reflexivity|]. apply firstn_skipn.
Qed.

Lemma endswith_inv (s v : str) :
  Py.endswith s v = true -> v <> [] ->
  s = Py.slice_but_last (length v) s ++ v.
Proof.
  intros H Hv. unfold Py.endswith in H. apply startswith_inv in H.
  rewrite slice_but_last_rev by (destruct v; simpl; congruence).
  rewrite length_rev in H.
  rewrite <- (rev_involutive s) at 1. rewrite H at 1.
  rewrite rev_app_distr, rev_involutive. reflexivity.
Qed.

(** ** One peeled value and the rest make up the fragment *)


Lemma separate_number_glue (s : str) (w : nat) (start : bool) :
  glue start (fst (separate_number s w start)) (snd (separate_number s w start)) = s.
Proof.
  unfold separate_number, glue.
  destruct start; simpl.
  - destruct (Nat.leb w (length s) && Py.isdigit (Py.slice_to w s)); simpl.
    + apply firstn_skipn.
    + reflexivity.
  - destruct (Nat.leb w (length s) && Py.isdigit (Py.slice_last w s)); simpl.
    + apply slice_last_but_last.
    + apply app_nil_r.
Qed.

Lemma separate_value_glue (s : str) (l : list str) (start : bool) :
  forallb nonempty l = true ->
  glue start (fst (separate_value s l start)) (snd (separate_value s l start)) = s.
Proof.
  intros Hl. induction l as [|v l IH]; simpl.
  - destruct start; simpl; [reflexivity|apply app_nil_r].
  - simpl in Hl. apply andb_true_iff in Hl as [Hv Hl].
    destruct start; simpl.
    + destruct (Py.startswith s v) eqn:E; simpl.
      * symmetry. now apply startswith_inv.
      * now apply IH.
    + destruct (Py.endswith s v) eqn:E; simpl.
      * symmetry. apply endswith_inv; [assumption|].
        destruct v; [discriminate|congruence].
      * now apply IH.
Qed.

Lemma find_nonempty (f : str -> bool) (l : list str) (v : str) :
  forallb nonempty l = true -> find f l = Some v -> v <> [] /\ f v = true.
Proof.
  intros Hl Hf. apply find_some in Hf as [Hin Hfv]. split; [|assumption].
  rewrite forallb_forall in Hl. specialize (Hl v Hin).
  destruct v; [discriminate|congruence].
Qed.

Lemma separate_suffixes_glue (l : list str) (start : bool) :
  forallb nonempty l = true ->
  forall depth s backup,
    length s < depth ->
    exists value rest,
      separate_suffixes_recurcive depth s l backup start = Ok (value, rest) /\
      (if start then value ++ rest = backup ++ s
       else rest ++ value = s ++ backup).
Proof.
  intros Hl. induction depth as [|depth IH]; intros s backup Hd; [lia|].
  simpl. destruct start.
  - destruct (find _ l) as [v|] eqn:Ef.
    + destruct (find_nonempty _ _ _ Hl Ef) as [Hv Hs].
      pose proof (startswith_inv _ _ Hs) as Es.
      destruct (IH (Py.slice_from (length v) s) (backup ++ v)) as (value & rest & E & G).
      { assert (0 < length v) by (destruct v; [congruence|simpl; lia]).
        unfold Py.slice_from. rewrite Es in Hd at 1. rewrite length_app in Hd.
        lia. }
      exists value, rest. split; [assumption|].
      rewrite G. unfold Py.slice_from. rewrite <- app_assoc.
      now rewrite <- Es.
    + exists backup, s. split; reflexivity.
  - destruct (find _ l) as [v|] eqn:Ef.
    + destruct (find_nonempty _ _ _ Hl Ef) as [Hv He].
      pose proof (endswith_inv _ _ He Hv) as Es.
      destruct (IH (Py.slice_but_last (length v) s) (v ++ backup)) as (value & rest & E & G).
      { assert (0 < length v) by (destruct v; [congruence|simpl; lia]).
        rewrite Es in Hd at 1. rewrite length_app in Hd. lia. }
      exists value, rest. split; [assumption|].
      rewrite G. rewrite app_assoc. now rewrite <- Es.
    + exists backup, s. split; reflexivity.
Qed.

Lemma separate_value_recursive_glue (s : str) (l : list str) (start : bool) :
  forallb nonempty l = true ->
  exists value rest,
    separate_value_recursive s l start = Ok (value, rest) /\
    glue start value rest = s.
Proof.
  intros Hl. unfold separate_value_recursive.
  destruct (separate_suffixes_glue l start Hl (S (length s)) s [])
    as (value & rest & E & G); [lia|].
  exists value, rest. split; [assumption|].
  unfold glue. destruct start; rewrite G; [reflexivity|apply app_nil_r].
Qed.

(** ** Ordered dictionaries *)

Section DictFacts.
Context {K V : Type} (eqb : K -> K -> bool).
Hypothesis eqb_eq : forall a b, eqb a b = true <-> a = b.

Lemma eqb_refl' (k : K) : eqb k k = true.
Proof. now apply eqb_eq. Qed.

Lemma eqb_neq' (a b : K) : a <> b -> eqb a b = false.
Proof.
  intros H. destruct (eqb a b) eqn:E; [|reflexivity].
  apply eqb_eq in E. contradiction.
Qed.

Lemma dict_get_set_same (k : K) (v : V) (d : list (K * V)) :
  dict_get eqb k (dict_set eqb k v d) = Some v.
Proof.
  induction d as [|[k' v'] d IH]; simpl.
  - now rewrite eqb_refl'.
  - destruct (eqb k k') eqn:E; simpl; rewrite E; [reflexivity|assumption].
Qed.

Lemma dict_get_set_other (k k' : K) (v : V) (d : list (K * V)) :
  k <> k' -> dict_get eqb k' (dict_set eqb k v d) = dict_get eqb k' d.
Proof.
  intros Hne. induction d as [|[k0 v0] d IH]; simpl.
  - rewrite eqb_neq' by congruence. reflexivity.
  - destruct (eqb k k0) eqn:E; simpl.
    + apply eqb_eq in E. subst k0.
      rewrite (eqb_neq' k' k) by congruence. reflexivity.
    + now rewrite IH.
Qed.

Lemma dict_set_set (k : K) (v v' : V) (d : list (K * V)) :
  dict_set eqb k v (dict_set eqb k v' d) = dict_set eqb k v d.
Proof.
  induction d as [|[k0 v0] d IH]; simpl.
  - now rewrite eqb_refl'.
  - destruct (eqb k k0) eqn:E; simpl; rewrite E; [reflexivity|].
    now rewrite IH.
Qed.

Lemma dict_set_same (k : K) (v : V) (d : list (K * V)) :
  dict_get eqb k d = Some v -> dict_set eqb k v d = d.
Proof.
  induction d as [|[k0 v0] d IH]; simpl; [discriminate|].
  destruct (eqb k k0) eqn:E.
  - intros H. injection H as ->. reflexivity.
  - intros H. now rewrite IH.
Qed.

Lemma dict_get_None (k : K) (d : list (K * V)) :
  dict_get eqb k d = None <-> ~ In k (dict_keys d).
Proof.
  induction d as [|[k0 v0] d IH]; simpl.
  - tauto.
  - destruct (eqb k k0) eqn:E.
    + apply eqb_eq in E. subst. split; [discriminate|]. intros H. exfalso. auto.
    + rewrite IH. split.
      * intros H [H'|H']; [|auto]. subst. rewrite eqb_refl' in E. discriminate.
      * intros H H'. auto.
Qed.

Lemma dict_get_Some_In (k : K) (v : V) (d : list (K * V)) :
  dict_get eqb k d = Some v -> In k (dict_keys d).
Proof.
  induction d as [|[k0 v0] d IH]; simpl; [discriminate|].
  destruct (eqb k k0) eqn:E.
  - apply eqb_eq in E. auto.
  - auto.
Qed.

Lemma dict_mem_In (k : K) (d : list (K * V)) :
  dict_mem eqb k d = true <-> In k (dict_keys d).
Proof.
  unfold dict_mem. destruct (dict_get eqb k d) eqn:E.
  - apply dict_get_Some_In in E. tauto.
  - apply dict_get_None in E. split; [discriminate|contradiction].
Qed.

Lemma dict_keys_set_in (k : K) (v : V) (d : list (K * V)) :
  In k (dict_keys d) -> dict_keys (dict_set eqb k v d) = dict_keys d.
Proof.
  induction d as [|[k0 v0] d IH]; simpl; [contradiction|].
  intros H. destruct (eqb k k0) eqn:E; simpl; [reflexivity|].
  f_equal. apply IH. destruct H as [H|H]; [|assumption].
  subst. rewrite eqb_refl' in E. discriminate.
Qed.

Lemma dict_set_fresh (k : K) (v : V) (d : list (K * V)) :
  ~ In k (dict_keys d) -> dict_set eqb k v d = d ++ [(k, v)].
Proof.
  induction d as [|[k0 v0] d IH]; simpl; [reflexivity|].
  intros H. rewrite eqb_neq' by (intros ->; auto). f_equal. apply IH. auto.
Qed.

Lemma dict_set_app_notin (k : K) (v u : V) (pre suf : list (K * V)) :
  ~ In k (dict_keys pre) ->
  dict_set eqb k v (pre ++ (k, u) :: suf) = pre ++ (k, v) :: suf.
Proof.
  induction pre as [|[k0 v0] pre IH]; simpl; intros H.
  - now rewrite eqb_refl'.
  - rewrite eqb_neq' by (intros ->; auto). f_equal. apply IH. auto.
Qed.

Lemma dict_get_app_notin (k : K) (pre suf : list (K * V)) :
  ~ In k (dict_keys pre) ->
  dict_get eqb k (pre ++ suf) = dict_get eqb k suf.
Proof.
  induction pre as [|[k0 v0] pre IH]; simpl; intros H; [reflexivity|].
  rewrite eqb_neq' by (intros ->; auto). apply IH. auto.
Qed.
End DictFacts.

(** ** From the part dictionary to the part it holds *)

(** Case analysis on the first string comparison of the goal. *)
Ltac case_str_eqb :=
  match goal with
  | |- context [Py.str_eqb ?a ?b] => destruct (Py.str_eqb a b) eqn:?
  end.

Lemma get_part_put_same (d : part_dict) (i : nat) (p : part) :
  get_part (put d i p) (KInt i) = Ok p.
Proof.
  unfold get_part, put. now rewrite (dict_get_set_same key_eqb key_eqb_eq).
Qed.

Lemma put_put (d : part_dict) (i : nat) (p p' : part) :
  put (put d i p) i p' = put d i p'.
Proof. unfold put. apply (dict_set_set key_eqb key_eqb_eq). Qed.

Lemma get_part_inv (d : part_dict) (k : key) (p : part) :
  get_part d k = Ok p -> dict_get key_eqb k d = Some (VDict p).
Proof.
  unfold get_part. destruct (dict_get key_eqb k d) as [[q|s]|]; congruence.
Qed.

Lemma put_same (d : part_dict) (i : nat) (p : part) :
  get_part d (KInt i) = Ok p -> put d i p = d.
Proof.
  intros H. apply get_part_inv in H. unfold put.
  now apply dict_set_same.
Qed.

Lemma set_item_put (d : part_dict) (i : nat) (p : part) (k v : str) :
  get_part d (KInt i) = Ok p ->
  set_item d (KInt i) k v = Ok (put d i (dict_set Py.str_eqb k v p)).
Proof. intros H. unfold set_item. rewrite H. reflexivity. Qed.

Lemma process_category_part (cfg : config) (key : str) (d : part_dict)
  (i : nat) (p : part) (s : str) (start : bool) :
  get_part d (KInt i) = Ok p ->
  process_category cfg key d i s start =
  ('(ov, r) <- peel_value cfg key s start ;; Ok (put d i (assign key ov p), r)).
Proof.
  intros H. unfold process_category, peel_value.
  destruct (dict_get Py.str_eqb key (category_lists cfg)) as [entry|].
  - match goal with
    | |- bind ?c _ = _ => destruct c as [[value rest]|e]
    end; simpl; [|reflexivity].
    now rewrite (set_item_put _ _ _ _ _ H).
  - case_str_eqb; simpl.
    + now rewrite (set_item_put _ _ _ _ _ H).
    + now rewrite (put_same _ _ _ H).
Qed.

Lemma start_loop_part (cfg : config) (i : nat) (keys : list str) :
  forall (p : part) (d : part_dict) (s : str),
    get_part d (KInt i) = Ok p ->
    separate_category_start_loop cfg keys d i s =
    ('(p', r) <- start_keys cfg keys p s ;; Ok (put d i p', r)).
Proof.
  induction keys as [|key keys IH]; intros p d s H; simpl.
  - now rewrite (put_same _ _ _ H).
  - rewrite (process_category_part _ _ _ _ _ _ _ H).
    destruct (peel_value cfg key s true) as [[ov r]|e]; simpl; [|reflexivity].
    case_str_eqb; [reflexivity|].
    rewrite (IH (assign key ov p)) by apply get_part_put_same.
    destruct (start_keys cfg keys (assign key ov p) r) as [[p' r']|e]; simpl;
      [|reflexivity].
    now rewrite put_put.
Qed.

Lemma end_loop_part (cfg : config) (i : nat) (prefix_name : str)
  (keys : list str) :
  forall (p : part) (d : part_dict) (s : str),
    get_part d (KInt i) = Ok p ->
    separate_category_end_loop cfg keys d i s prefix_name =
    ('(p', r) <- end_keys cfg keys p s prefix_name ;; Ok (put d i p', r)).
Proof.
  induction keys as [|key keys IH]; intros p d s H; simpl.
  - now rewrite (put_same _ _ _ H).
  - case_str_eqb.
    + now rewrite (set_item_put _ _ _ _ _ H).
    + rewrite (process_category_part _ _ _ _ _ _ _ H).
      destruct (peel_value cfg key s false) as [[ov r]|e]; simpl; [|reflexivity].
      rewrite (IH (assign key ov p)) by apply get_part_put_same.
      destruct (end_keys cfg keys (assign key ov p) r prefix_name)
        as [[p' r']|e]; simpl; [|reflexivity].
      now rewrite put_put.
Qed.

Lemma separate_category_part (cfg : config) (name : str) (i j : nat)
  (d : part_dict) (p : part) (s : str) (start : bool) (prefix_name : str) :
  get_part d (KInt i) = Ok p ->
  name_segment name j = Ok s ->
  separate_category cfg name i j d start prefix_name =
  (p' <- separate_part cfg p s start prefix_name ;; Ok (put d i p')).
Proof.
  intros H Hs. unfold separate_category, separate_part. rewrite Hs. simpl.
  unfold separate_category_start, separate_category_end. rewrite H. simpl.
  assert (E :
    (if start
     then separate_category_start_loop cfg (dict_keys p) d i s
     else separate_category_end_loop cfg (rev (dict_keys p)) d i s prefix_name)
    = ('(p', r) <- (if start then start_keys cfg (dict_keys p) p s
                    else end_keys cfg (rev (dict_keys p)) p s prefix_name) ;;
       Ok (put d i p', r))).
  { destruct start;
      [apply start_loop_part|apply end_loop_part]; assumption. }
  rewrite E. clear E.
  destruct (if start then _ else _) as [[p' r]|e]; simpl; [|reflexivity].
  destruct r as [|c r]; [reflexivity|].
  unfold handle_remaining_part. rewrite get_part_put_same. simpl.
  match goal with
  | |- context [dict_mem ?e ?k ?q] => destruct (dict_mem e k q)
  end; simpl.
  - reflexivity.
  - rewrite (set_item_put _ _ _ _ _ (get_part_put_same d i p')).
    now rewrite put_put.
Qed.

(** Repeating a step that has reached its fixed point. *)
Lemma separate_category_each_fix (cfg : config) (name : str) (i j : nat)
  (s : str) (start : bool) (prefix_name : str) (p p1 : part)
  (categories : list str) :
  name_segment name j = Ok s ->
  separate_part cfg p s start prefix_name = Ok p1 ->
  separate_part cfg p1 s start prefix_name = Ok p1 ->
  categories <> [] ->
  forall d, get_part d (KInt i) = Ok p ->
  separate_category_each cfg categories name i j d start prefix_name
  = Ok (put d i p1).
Proof.
  intros Hs H0 H1 Hc. unfold separate_category_each.
  destruct categories as [|c categories]; [congruence|]. clear Hc.
  intros d Hd. simpl.
  rewrite (separate_category_part _ _ _ _ _ _ _ _ _ Hd Hs), H0. simpl.
  assert (G : forall d', get_part d' (KInt i) = Ok p1 ->
    for_each categories
      (fun d'' _ => separate_category cfg name i j d'' start prefix_name) d'
    = Ok d').
  { induction categories as [|c' categories IH]; intros d' G; simpl.
    - reflexivity.
    - rewrite (separate_category_part _ _ _ _ _ _ _ _ _ G Hs), H1. simpl.
      rewrite (put_same _ _ _ G). now apply IH. }
  apply G, get_part_put_same.
Qed.

(** ** The value peeled for one category *)

Lemma peel_value_name (cfg : config) (s : str) (start : bool) :
  peel_value cfg "name" s start = Ok (Some s, []).
Proof. reflexivity. Qed.

Lemma peel_value_bad_naming (cfg : config) (s : str) (start : bool) :
  peel_value cfg "bad_naming" s start = Ok (None, s).
Proof. reflexivity. Qed.

Lemma vocabulary_ok_inv (cfg : config) :
  vocabulary_ok cfg = true ->
  forallb nonempty (SYMMETRY_OPTIONS cfg) = true /\
  forallb nonempty (ALL_TYPES_DICT cfg) = true /\
  forallb nonempty (ZONING_SINGLE_DICT cfg) = true /\
  forallb nonempty (ORIENT_SINGLE_DICT cfg) = true.
Proof.
  unfold vocabulary_ok. rewrite !forallb_app, !andb_true_iff. tauto.
Qed.

Lemma alphabet_nonempty : forallb nonempty alphabet = true.
Proof. reflexivity. Qed.

Local Opaque alphabet.

Lemma peel_value_glue (cfg : config) (key s : str) (start : bool) :
  vocabulary_ok cfg = true ->
  Py.str_eqb key "name" = false ->
  exists ov r,
    peel_value cfg key s start = Ok (ov, r) /\
    glue start (assigned ov []) r = s.
Proof.
  intros Hv Hn. apply vocabulary_ok_inv in Hv as (Hs & Ht & Hz & Ho).
  unfold peel_value, category_lists. simpl dict_get.
  repeat (case_str_eqb;
          [ match goal with
            | H : Py.str_eqb key _ = true |- _ => apply str_eqb_eq in H; subst key
            end
          | ]); simpl.
  - pose proof (separate_value_glue s _ start Hs) as G.
    destruct (separate_value s (SYMMETRY_OPTIONS cfg) start) as [value rest].
    eexists _, _. split; [reflexivity|exact G].
  - pose proof (separate_value_glue s _ start Ht) as G.
    destruct (separate_value s (ALL_TYPES_DICT cfg) start) as [value rest].
    eexists _, _. split; [reflexivity|exact G].
  - destruct (separate_value_recursive_glue s (ZONING_SINGLE_DICT cfg) start Hz)
      as (value & rest & E & G).
    rewrite E. simpl. eexists _, _. split; [reflexivity|assumption].
  - destruct (separate_value_recursive_glue s (ORIENT_SINGLE_DICT cfg) start Ho)
      as (value & rest & E & G).
    rewrite E. simpl. eexists _, _. split; [reflexivity|assumption].
  - pose proof (separate_value_glue s _ start alphabet_nonempty) as G.
    destruct (separate_value s alphabet start) as [value rest].
    eexists _, _. split; [reflexivity|exact G].
  - pose proof (separate_number_glue s (INC_NUMBER_OF_DIGITS cfg) start) as G.
    destruct (separate_number s (INC_NUMBER_OF_DIGITS cfg) start) as [value rest].
    eexists _, _. split; [reflexivity|exact G].
  - discriminate Hn.
  - eexists _, _. split; [reflexivity|].
    destruct start; simpl; [reflexivity|apply app_nil_r].
Qed.

Local Transparent alphabet.

(** ** The loops on the entries of a part *)

Lemma dict_keys_app {K V : Type} (a b : list (K * V)) :
  dict_keys (a ++ b) = dict_keys a ++ dict_keys b.
Proof. apply map_app. Qed.

Lemma dict_keys_rev {K V : Type} (a : list (K * V)) :
  dict_keys (rev a) = rev (dict_keys a).
Proof. apply map_rev. Qed.

Lemma assign_app (k : str) (ov : option str) (u : str) (pre suf : part) :
  ~ In k (dict_keys pre) ->
  assign k ov (pre ++ (k, u) :: suf) = pre ++ (k, assigned ov u) :: suf.
Proof.
  intros H. destruct ov as [v|]; simpl; [|reflexivity].
  now apply (dict_set_app_notin Py.str_eqb str_eqb_eq).
Qed.

Lemma NoDup_keys_mid (pre suf : part) (k u : str) :
  NoDup (dict_keys (pre ++ (k, u) :: suf)) -> ~ In k (dict_keys pre).
Proof.
  rewrite dict_keys_app. simpl. intros H.
  apply NoDup_remove_2 in H. intros Hin. apply H. apply in_or_app. now left.
Qed.

Lemma start_keys_entries (cfg : config) :
  forall (suf pre : part) (s : str),
    NoDup (dict_keys (pre ++ suf)) ->
    start_keys cfg (dict_keys suf) (pre ++ suf) s =
    ('(suf', r) <- start_entries cfg suf s ;; Ok (pre ++ suf', r)).
Proof.
  induction suf as [|[k u] suf IH]; intros pre s Hnd; simpl.
  - reflexivity.
  - destruct (peel_value cfg k s true) as [[ov r]|e]; simpl; [|reflexivity].
    rewrite (assign_app _ _ _ _ _ (NoDup_keys_mid _ _ _ _ Hnd)).
    case_str_eqb; [reflexivity|].
    replace (pre ++ (k, assigned ov u) :: suf)
      with ((pre ++ [(k, assigned ov u)]) ++ suf)
      by (now rewrite <- app_assoc).
    rewrite IH.
    + destruct (start_entries cfg suf r) as [[suf' r']|e]; simpl; [|reflexivity].
      now rewrite <- app_assoc.
    + rewrite <- app_assoc. simpl.
      rewrite dict_keys_app in *. exact Hnd.
Qed.

Lemma end_keys_entries (cfg : config) (prefix_name : str) :
  forall (rf back : part) (s : str),
    NoDup (dict_keys (rev rf ++ back)) ->
    end_keys cfg (dict_keys rf) (rev rf ++ back) s prefix_name =
    ('(rf', r) <- end_entries cfg rf s prefix_name ;; Ok (rev rf' ++ back, r)).
Proof.
  induction rf as [|[k u] rf IH]; intros back s Hnd; simpl.
  - reflexivity.
  - simpl in Hnd. rewrite <- app_assoc in Hnd. simpl in Hnd.
    case_str_eqb.
    + simpl. rewrite <- app_assoc. simpl.
      rewrite (dict_set_app_notin Py.str_eqb str_eqb_eq)
        by (eapply NoDup_keys_mid; eassumption).
      now rewrite <- app_assoc.
    + destruct (peel_value cfg k s false) as [[ov r]|e]; simpl; [|reflexivity].
      rewrite <- app_assoc. simpl.
      rewrite (assign_app _ _ _ _ _ (NoDup_keys_mid _ _ _ _ Hnd)).
      rewrite IH.
      * destruct (end_entries cfg rf r prefix_name) as [[rf' r']|e]; simpl;
          [|reflexivity].
        now rewrite <- app_assoc.
      * rewrite dict_keys_app in *. exact Hnd.
Qed.

(** Running a loop again on its own result changes nothing. *)
Lemma start_entries_again (cfg : config) :
  forall (p p' : part) (s r : str),
    start_entries cfg p s = Ok (p', r) -> start_entries cfg p' s = Ok (p', r).
Proof.
  induction p as [|[k u] p IH]; intros p' s r H; simpl in H.
  - now injection H as <- <-.
  - destruct (peel_value cfg k s true) as [[ov r1]|e] eqn:E; simpl in H;
      [|discriminate].
    revert H. case_str_eqb; intros H.
    + injection H as <- <-. simpl. rewrite E. simpl.
      match goal with H : Py.str_eqb k _ = true |- _ => rewrite H end.
      now destruct ov.
    + destruct (start_entries cfg p r1) as [[rest' r']|e] eqn:E1; simpl in H;
        [|discriminate].
      injection H as <- <-. simpl. rewrite E. simpl.
      match goal with H : Py.str_eqb k _ = false |- _ => rewrite H end.
      rewrite (IH _ _ _ E1). simpl. now destruct ov.
Qed.

Lemma end_entries_again (cfg : config) (prefix_name : str) :
  forall (rp rp' : part) (s r : str),
    end_entries cfg rp s prefix_name = Ok (rp', r) ->
    end_entries cfg rp' s prefix_name = Ok (rp', r).
Proof.
  induction rp as [|[k u] rp IH]; intros rp' s r H; simpl in H.
  - now injection H as <- <-.
  - revert H. case_str_eqb; intros H.
    + injection H as <- <-. simpl.
      match goal with H : Py.str_eqb k _ = true |- _ => rewrite H end.
      reflexivity.
    + destruct (peel_value cfg k s false) as [[ov r1]|e] eqn:E; simpl in H;
        [|discriminate].
      destruct (end_entries cfg rp r1 prefix_name) as [[rest' r']|e] eqn:E1;
        simpl in H; [|discriminate].
      injection H as <- <-. simpl.
      match goal with H : Py.str_eqb k _ = false |- _ => rewrite H end.
      rewrite E. simpl. rewrite (IH _ _ _ E1). simpl. now destruct ov.
Qed.

Lemma start_entries_app (cfg : config) :
  forall (a b : part) (s : str),
    ~ In ("name" : str) (dict_keys a) ->
    start_entries cfg (a ++ b) s =
    ('(a', r) <- start_entries cfg a s ;;
     '(b', r') <- start_entries cfg b r ;;
     Ok (a' ++ b', r')).
Proof.
  induction a as [|[k u] a IH]; intros b s Hn; simpl.
  - destruct (start_entries cfg b s) as [[b' r']|e]; reflexivity.
  - destruct (peel_value cfg k s true) as [[ov r1]|e]; simpl; [|reflexivity].
    case_str_eqb.
    + exfalso. apply Hn. left.
      match goal with H : Py.str_eqb k _ = true |- _ => apply str_eqb_eq in H end.
      assumption.
    + rewrite IH by (intros H; apply Hn; now right).
      destruct (start_entries cfg a r1) as [[a' r']|e]; simpl; [|reflexivity].
      destruct (start_entries cfg b r') as [[b' r'']|e]; reflexivity.
Qed.

(** ** What one part renders after peeling *)

Lemma render_app (a b : part) : render (a ++ b) = render a ++ render b.
Proof. unfold render, dict_values. now rewrite map_app, concat_app. Qed.

Lemma render_cons (k v : str) (p : part) : render ((k, v) :: p) = v ++ render p.
Proof. reflexivity. Qed.

Lemma render_empty (p : part) : Forall (fun e => snd e = []) p -> render p = [].
Proof.
  induction 1 as [|[k v] p Hv _ IH]; [reflexivity|].
  simpl in Hv. subst v. rewrite render_cons. now rewrite IH.
Qed.

Lemma not_name_eqb (k : str) :
  Py.str_eqb k "name" = false <-> k <> ("name" : str).
Proof. apply str_eqb_neq. Qed.

Lemma start_entries_render (cfg : config) :
  vocabulary_ok cfg = true ->
  forall (p : part) (s : str),
    Forall (fun e => snd e = []) p ->
    exists p' r,
      start_entries cfg p s = Ok (p', r) /\
      dict_keys p' = dict_keys p /\
      render p' ++ r = s /\
      (In ("name" : str) (dict_keys p) -> r = []).
Proof.
  intros Hv. induction p as [|[k u] p IH]; intros s Hp; simpl.
  - exists [], s. repeat split; try reflexivity. contradiction.
  - inversion Hp as [|? ? Hu Hp']; subst. simpl in Hu. subst u.
    case_str_eqb.
    + match goal with H : Py.str_eqb k _ = true |- _ =>
        apply str_eqb_eq in H; subst k end.
      rewrite peel_value_name. simpl.
      eexists _, _. split; [reflexivity|]. repeat split.
      rewrite render_cons, (render_empty _ Hp'). now rewrite !app_nil_r.
    + match goal with H : Py.str_eqb k _ = false |- _ =>
        destruct (peel_value_glue cfg k s true Hv H) as (ov & r1 & E & G);
        apply not_name_eqb in H; rename H into Hk0 end.
      rewrite E. simpl.
      destruct (IH r1 Hp') as (p' & r & E1 & Hk & Hr & Hn).
      rewrite E1. simpl. eexists _, _. split; [reflexivity|]. repeat split.
      * simpl. now rewrite Hk.
      * rewrite render_cons, <- app_assoc, Hr. exact G.
      * intros [H'|H']; [exfalso; apply Hk0; exact H'|auto].
Qed.

Lemma end_entries_render (cfg : config) :
  vocabulary_ok cfg = true ->
  forall (rp : part) (s : str),
    Forall (fun e => snd e = []) rp ->
    exists rp' r,
      end_entries cfg rp s [] = Ok (rp', r) /\
      dict_keys rp' = dict_keys rp /\
      (In ("name" : str) (dict_keys rp) -> render (rev rp') = s) /\
      (~ In ("name" : str) (dict_keys rp) -> r ++ render (rev rp') = s).
Proof.
  intros Hv. induction rp as [|[k u] rp IH]; intros s Hp; simpl.
  - exists [], s. repeat split; try reflexivity.
    + contradiction.
    + intros _. apply app_nil_r.
  - inversion Hp as [|? ? Hu Hp']; subst. simpl in Hu. subst u.
    case_str_eqb.
    + match goal with H : Py.str_eqb k _ = true |- _ =>
        apply str_eqb_eq in H; subst k end.
      eexists _, _. split; [reflexivity|]. repeat split.
      * intros _. simpl. rewrite render_app, render_cons.
        rewrite render_empty by (now apply Forall_rev).
        simpl. apply app_nil_r.
      * intros H. exfalso. apply H. now left.
    + match goal with H : Py.str_eqb k _ = false |- _ =>
        destruct (peel_value_glue cfg k s false Hv H) as (ov & r1 & E & G);
        apply not_name_eqb in H; rename H into Hk0 end.
      rewrite E. simpl.
      destruct (IH r1 Hp') as (rp' & r & E1 & Hk & Hin & Hout).
      rewrite E1. simpl. eexists _, _. split; [reflexivity|]. repeat split.
      * simpl. now rewrite Hk.
      * intros [H'|H']; [exfalso; apply Hk0; exact H'|].
        simpl. rewrite render_app, render_cons, (Hin H').
        simpl in G. now rewrite app_nil_r.
      * intros H'. simpl. rewrite render_app, render_cons, app_nil_r.
        rewrite app_assoc, Hout by (intros H''; apply H'; now right).
        exact G.
Qed.

Lemma dict_mem_keys (p p' : part) (k : str) :
  dict_keys p' = dict_keys p ->
  dict_mem Py.str_eqb k p' = dict_mem Py.str_eqb k p.
Proof.
  intros E. destruct (dict_mem Py.str_eqb k p) eqn:H.
  - apply (dict_mem_In Py.str_eqb str_eqb_eq) in H.
    apply (dict_mem_In Py.str_eqb str_eqb_eq). congruence.
  - destruct (dict_mem Py.str_eqb k p') eqn:H'; [|reflexivity].
    apply (dict_mem_In Py.str_eqb str_eqb_eq) in H'. rewrite E in H'.
    apply (dict_mem_In Py.str_eqb str_eqb_eq) in H'. congruence.
Qed.

Lemma dict_mem_false (p : part) (k : str) :
  ~ In k (dict_keys p) -> dict_mem Py.str_eqb k p = false.
Proof.
  intros H. destruct (dict_mem Py.str_eqb k p) eqn:E; [|reflexivity].
  apply (dict_mem_In Py.str_eqb str_eqb_eq) in E. contradiction.
Qed.

Lemma dict_mem_true (p : part) (k : str) :
  In k (dict_keys p) -> dict_mem Py.str_eqb k p = true.
Proof. apply (dict_mem_In Py.str_eqb str_eqb_eq). Qed.

(** A part without ["name"], peeled from the start: the values and the
    rest kept under ["bad_naming"] spell the segment. *)
Lemma separate_part_plain (cfg : config) (p : part) (s : str) :
  vocabulary_ok cfg = true ->
  fresh_part p ->
  ~ In ("name" : str) (dict_keys p) ->
  ~ In ("bad_naming" : str) (dict_keys p) ->
  exists p1,
    separate_part cfg p s true [] = Ok p1 /\
    separate_part cfg p1 s true [] = Ok p1 /\
    render p1 = s /\
    ~ In ("name" : str) (dict_keys p1).
Proof.
  intros Hv [Hnd Hp] Hn Hb.
  destruct (start_entries_render cfg Hv p s Hp) as (p' & r & E & Hk & Hr & _).
  pose proof (start_keys_entries cfg p [] s Hnd) as E0. simpl in E0.
  rewrite E in E0. simpl in E0.
  pose proof (start_entries_again cfg _ _ _ _ E) as E'.
  assert (Hnd' : NoDup (dict_keys p')) by now rewrite Hk.
  unfold separate_part. rewrite E0. simpl.
  destruct r as [|c r].
  - exists p'. rewrite app_nil_r in Hr. repeat split.
    + pose proof (start_keys_entries cfg p' [] s Hnd') as E1. simpl in E1.
      rewrite E' in E1. simpl in E1. now rewrite E1.
    + assumption.
    + now rewrite Hk.
  - rewrite (dict_mem_false p') by now rewrite Hk. simpl.
    rewrite (dict_set_fresh Py.str_eqb str_eqb_eq) by now rewrite Hk.
    set (p1 := p' ++ [("bad_naming" : str, c :: r)]).
    assert (Hk1 : dict_keys p1 = dict_keys p ++ ["bad_naming" : str]).
    { unfold p1. rewrite dict_keys_app, Hk. reflexivity. }
    assert (Hn1 : ~ In ("name" : str) (dict_keys p1)).
    { rewrite Hk1. intros H. apply in_app_or in H as [H|[H|[]]];
        [auto|discriminate]. }
    exists p1. repeat split.
    + assert (Hnd1 : NoDup (dict_keys p1)).
      { rewrite Hk1. apply NoDup_app; [assumption|repeat constructor; auto|].
        intros x Hx [Hx'|[]]. subst. auto. }
      pose proof (start_keys_entries cfg p1 [] s Hnd1) as E1. simpl in E1.
      rewrite E1. unfold p1 at 1.
      rewrite start_entries_app by now rewrite Hk.
      rewrite E'. simpl. fold p1.
      rewrite (dict_mem_false p1) by assumption. simpl.
      f_equal. apply dict_set_same.
      etransitivity;
        [apply (dict_get_app_notin Py.str_eqb str_eqb_eq); now rewrite Hk|].
      reflexivity.
    + unfold p1. rewrite render_app, render_cons. simpl.
      now rewrite app_nil_r.
    + assumption.
Qed.

(** A part with ["name"], peeled from the start: ["name"] takes the rest. *)
Lemma separate_part_name_start (cfg : config) (p : part) (s : str) :
  vocabulary_ok cfg = true ->
  fresh_part p ->
  In ("name" : str) (dict_keys p) ->
  exists p1,
    separate_part cfg p s true [] = Ok p1 /\
    separate_part cfg p1 s true [] = Ok p1 /\
    render p1 = s /\
    dict_keys p1 = dict_keys p.
Proof.
  intros Hv [Hnd Hp] Hn.
  destruct (start_entries_render cfg Hv p s Hp) as (p' & r & E & Hk & Hr & Hr0).
  specialize (Hr0 Hn). subst r. rewrite app_nil_r in Hr.
  pose proof (start_keys_entries cfg p [] s Hnd) as E0. simpl in E0.
  rewrite E in E0. simpl in E0.
  pose proof (start_entries_again cfg _ _ _ _ E) as E'.
  assert (Hnd' : NoDup (dict_keys p')) by now rewrite Hk.
  pose proof (start_keys_entries cfg p' [] s Hnd') as E1. simpl in E1.
  rewrite E' in E1. simpl in E1.
  exists p'. unfold separate_part. rewrite E0, E1. simpl. auto.
Qed.

(** A part with ["name"], peeled from the end with no prefix to strip. *)
Lemma separate_part_name_end (cfg : config) (p : part) (s : str) :
  vocabulary_ok cfg = true ->
  fresh_part p ->
  In ("name" : str) (dict_keys p) ->
  exists p1,
    separate_part cfg p s false [] = Ok p1 /\
    separate_part cfg p1 s false [] = Ok p1 /\
    render p1 = s /\
    dict_keys p1 = dict_keys p.
Proof.
  intros Hv [Hnd Hp] Hn.
  assert (Hrp : Forall (fun e : str * str => snd e = []) (rev p))
    by now apply Forall_rev.
  destruct (end_entries_render cfg Hv (rev p) s Hrp)
    as (rp' & r & E & Hk & Hin & _).
  assert (Hn' : In ("name" : str) (dict_keys (rev p))).
  { rewrite dict_keys_rev. now apply -> in_rev. }
  specialize (Hin Hn').
  assert (Hk' : dict_keys (rev rp') = dict_keys p).
  { rewrite dict_keys_rev, Hk, dict_keys_rev. apply rev_involutive. }
  assert (E0 : end_keys cfg (rev (dict_keys p)) p s [] = Ok (rev rp', r)).
  { pose proof (end_keys_entries cfg [] (rev p) [] s) as H.
    rewrite rev_involutive, app_nil_r, dict_keys_rev in H.
    rewrite (H Hnd), E. simpl. now rewrite app_nil_r. }
  assert (E1 : end_keys cfg (rev (dict_keys (rev rp'))) (rev rp') s []
               = Ok (rev rp', r)).
  { pose proof (end_keys_entries cfg [] rp' [] s) as H.
    rewrite app_nil_r in H. rewrite dict_keys_rev, rev_involutive.
    rewrite H by now rewrite Hk'.
    rewrite (end_entries_again cfg _ _ _ _ _ E). simpl. now rewrite app_nil_r. }
  exists (rev rp'). unfold separate_part. rewrite E0, E1. simpl.
  rewrite (dict_mem_true (rev rp')) by now rewrite Hk'.
  simpl. destruct r; auto.
Qed.

(** ** A part that holds ["name"] first or last *)

Lemma list_index_app (x : str) (before after : list str) :
  ~ In x before -> list_index x (before ++ x :: after) = Ok (length before).
Proof.
  induction before as [|y before IH]; intros H; simpl.
  - now rewrite str_eqb_refl.
  - rewrite (proj2 (str_eqb_neq y x)) by (intros ->; apply H; now left).
    rewrite IH by (intros H'; apply H; now right). reflexivity.
Qed.

Lemma name_first_or_last_inv (categories : list str) :
  NoDup categories ->
  In ("name" : str) categories ->
  name_first_or_last categories = true ->
  (exists after, categories = ("name" : str) :: after) \/
  (exists before, categories = before ++ ["name" : str] /\ before <> [] /\
                  ~ In ("name" : str) before).
Proof.
  intros Hnd Hin H. unfold name_first_or_last in H.
  rewrite (proj2 (in_list_In _ _) Hin) in H. simpl in H.
  apply orb_true_iff in H as [H|H].
  - left. destruct categories as [|c after]; [contradiction|].
    simpl in H. apply str_eqb_eq in H. subst c. now exists after.
  - destruct categories as [|c l _] using rev_ind; [contradiction|].
    rewrite last_last in H. apply str_eqb_eq in H. subst c.
    destruct l as [|c before].
    + left. now exists [].
    + right. exists (c :: before). repeat split; [discriminate|].
      intros Hb. apply NoDup_remove_2 in Hnd. apply Hnd.
      now rewrite app_nil_r.
Qed.

Lemma get_before_after_name_first (d : part_dict) (i : nat) (p : part)
  (after : list str) :
  get_part d (KInt i) = Ok p ->
  dict_keys p = ("name" : str) :: after ->
  get_before_after_name i d = Ok ([], after).
Proof.
  intros H Hk. unfold get_before_after_name, get_before_after_mandatory.
  rewrite H. simpl. rewrite Hk. reflexivity.
Qed.

Lemma get_before_after_name_last (d : part_dict) (i : nat) (p : part)
  (before : list str) :
  get_part d (KInt i) = Ok p ->
  dict_keys p = before ++ ["name" : str] ->
  before <> [] ->
  ~ In ("name" : str) before ->
  get_before_after_name i d = Ok (before, []).
Proof.
  intros H Hk Hb Hn. unfold get_before_after_name, get_before_after_mandatory.
  rewrite H. cbn [bind]. cbv zeta. rewrite Hk.
  rewrite (list_index_app _ _ _ Hn). cbn [bind].
  assert (Hl : length before <> 0) by (destruct before; simpl; congruence).
  rewrite (proj2 (Nat.eqb_neq _ _) Hl).
  rewrite length_app. simpl length.
  replace (length before + 1 - 1) with (length before) by lia.
  rewrite Nat.eqb_refl.
  now rewrite firstn_app, Nat.sub_diag, firstn_all, app_nil_r.
Qed.

Lemma name_part_body_ok (cfg : config) (name : str) (i j : nat)
  (d : part_dict) (p : part) (s : str) :
  vocabulary_ok cfg = true ->
  get_part d (KInt i) = Ok p ->
  fresh_part p ->
  In ("name" : str) (dict_keys p) ->
  name_first_or_last (dict_keys p) = true ->
  name_segment name j = Ok s ->
  exists p1,
    name_part_body cfg name i j d [] = Ok (put d i p1, []) /\
    render p1 = s.
Proof.
  intros Hv Hd Hf Hin Hfl Hs.
  destruct (name_first_or_last_inv _ (proj1 Hf) Hin Hfl)
    as [[after Hk]|(before & Hk & Hb & Hn)].
  - unfold name_part_body.
    rewrite (get_before_after_name_first _ _ _ _ Hd Hk). simpl.
    destruct after as [|a after].
    + rewrite Hs. simpl. rewrite (set_item_put _ _ _ _ _ Hd). simpl.
      eexists. split; [reflexivity|].
      destruct p as [|[k u] [|e p]]; try discriminate.
      simpl in Hk. injection Hk as ->. simpl.
      unfold render. simpl. apply app_nil_r.
    + destruct (separate_part_name_end cfg p s Hv Hf Hin)
        as (p1 & E0 & E1 & Hr & _).
      assert (Hne : rev (a :: after) <> []).
      { intros H. apply (f_equal (@length str)) in H.
        rewrite length_rev in H. discriminate. }
      rewrite (separate_category_each_fix cfg name i j s false [] p p1
                 (rev (a :: after)) Hs E0 E1 Hne d Hd).
      simpl. eexists. split; [reflexivity|assumption].
  - unfold name_part_body.
    rewrite (get_before_after_name_last _ _ _ _ Hd Hk Hb Hn). simpl.
    destruct (separate_part_name_start cfg p s Hv Hf Hin)
      as (p1 & E0 & E1 & Hr & _).
    rewrite (separate_category_each_fix cfg name i j s true [] p p1
               before Hs E0 E1 Hb d Hd).
    simpl. destruct before; [congruence|].
    eexists. split; [reflexivity|assumption].
Qed.

(** ** The part dictionary as the list of its parts *)

Lemma index_parts_app (a : nat) (x y : list part) :
  index_parts a (x ++ y) = index_parts a x ++ index_parts (length x + a) y.
Proof.
  revert a; induction x as [|p x IH]; intros a; simpl; [reflexivity|].
  f_equal. rewrite IH. now rewrite Nat.add_succ_r.
Qed.

Lemma dict_keys_index_parts (a : nat) (qs : list part) :
  dict_keys (index_parts a qs) = map KInt (seq a (length qs)).
Proof.
  revert a; induction qs as [|q qs IH]; intros a; simpl; [reflexivity|].
  f_equal. apply IH.
Qed.

Lemma index_parts_length (a : nat) (qs : list part) :
  length (index_parts a qs) = length qs.
Proof.
  revert a; induction qs as [|q qs IH]; intros a; simpl; [reflexivity|].
  now rewrite IH.
Qed.

Lemma index_parts_fresh_key (a i : nat) (qs : list part) :
  i < a \/ length qs + a <= i ->
  ~ In (KInt i) (dict_keys (index_parts a qs)).
Proof.
  rewrite dict_keys_index_parts. intros H Hin.
  apply in_map_iff in Hin as [j [E Hj]]. injection E as ->.
  apply in_seq in Hj. lia.
Qed.

Lemma get_part_index_mid (a : nat) (done todo : list part) (q : part) :
  get_part (index_parts a (done ++ q :: todo)) (KInt (length done + a)) = Ok q.
Proof.
  unfold get_part. rewrite index_parts_app.
  rewrite (dict_get_app_notin key_eqb key_eqb_eq)
    by (apply index_parts_fresh_key; lia).
  simpl. now rewrite Nat.eqb_refl.
Qed.

Lemma put_index_mid (a : nat) (done todo : list part) (q q' : part) :
  put (index_parts a (done ++ q :: todo)) (length done + a) q'
  = index_parts a (done ++ q' :: todo).
Proof.
  unfold put. rewrite !index_parts_app. simpl.
  apply (dict_set_app_notin key_eqb key_eqb_eq).
  apply index_parts_fresh_key. lia.
Qed.

Lemma exact_loop_ok (cfg : config) (name : str) :
  vocabulary_ok cfg = true ->
  forall (todo done : list part),
    Forall part_ok todo ->
    (forall j, j < length todo ->
               exists s, name_segment name (length done + j) = Ok s) ->
    exists todo',
      exact_loop cfg name (map KInt (seq (length done) (length todo)))
        (index_parts 0 (done ++ todo)) []
      = Ok (index_parts 0 (done ++ todo')) /\
      length todo' = length todo /\
      (forall j q', nth_error todo' j = Some q' ->
                    name_segment name (length done + j) = Ok (render q')).
Proof.
  intros Hv. induction todo as [|q todo IH]; intros done Hok Hseg.
  - exists []. simpl. repeat split. intros [|j] q' H; discriminate.
  - inversion Hok as [|? ? (Hf & Hne & Hb & Hfl) Hok']; subst.
    destruct (Hseg 0) as [s Hs]; [simpl; lia|]. rewrite Nat.add_0_r in Hs.
    pose proof (get_part_index_mid 0 done todo q) as Hd.
    rewrite Nat.add_0_r in Hd.
    assert (Hstep : exists p1,
      render p1 = s /\
      exact_loop cfg name (map KInt (seq (length done) (length (q :: todo))))
        (index_parts 0 (done ++ q :: todo)) []
      = exact_loop cfg name (map KInt (seq (S (length done)) (length todo)))
          (index_parts 0 ((done ++ [p1]) ++ todo)) []).
    { simpl. rewrite Hd. simpl.
      match goal with
      | |- context [dict_mem ?e ?k q] => destruct (dict_mem e k q) eqn:Hm
      end.
      - apply (dict_mem_In Py.str_eqb str_eqb_eq) in Hm.
        destruct (name_part_body_ok cfg name (length done) (length done) _ q s
                    Hv Hd Hf Hm Hfl Hs) as (p1 & E & Hr).
        exists p1. split; [assumption|]. rewrite E. simpl.
        pose proof (put_index_mid 0 done todo q p1) as Hp.
        rewrite Nat.add_0_r in Hp. rewrite Hp.
        now rewrite <- app_assoc.
      - assert (Hn : ~ In ("name" : str) (dict_keys q)).
        { intros H. apply (dict_mem_In Py.str_eqb str_eqb_eq) in H.
          change (dict_mem Py.str_eqb "name" q = false) in Hm.
          rewrite H in Hm. discriminate. }
        destruct (separate_part_plain cfg q s Hv Hf Hn Hb)
          as (p1 & E0 & E1 & Hr & _).
        exists p1. split; [assumption|].
        rewrite (separate_category_each_fix cfg name (length done) (length done)
                   s true [] q p1 (dict_keys q) Hs E0 E1 Hne _ Hd).
        simpl.
        pose proof (put_index_mid 0 done todo q p1) as Hp.
        rewrite Nat.add_0_r in Hp. rewrite Hp.
        now rewrite <- app_assoc. }
    destruct Hstep as (p1 & Hr & Hstep). rewrite Hstep.
    destruct (IH (done ++ [p1]) Hok') as (todo' & E & Hl & Hseg').
    { intros j Hj. rewrite length_app. simpl.
      replace (length done + 1 + j) with (length done + S j) by lia.
      apply Hseg. simpl. lia. }
    rewrite length_app in E. simpl in E. rewrite Nat.add_1_r in E.
    exists (p1 :: todo'). rewrite E. rewrite <- app_assoc. simpl.
    repeat split.
    + now rewrite Hl.
    + intros [|j] q' H; simpl in H.
      * injection H as <-. rewrite Nat.add_0_r. now rewrite Hr.
      * specialize (Hseg' j q' H). rewrite length_app in Hseg'. simpl in Hseg'.
        now replace (length done + S j) with (length done + 1 + j) by lia.
Qed.

(** ** The compiled template *)

Lemma dict_set_empty_fresh (k : str) (p : part) :
  fresh_part p -> fresh_part (dict_set Py.str_eqb k [] p).
Proof.
  intros [Hnd Hp]. split.
  - destruct (in_dec (list_eq_dec ascii_dec) k (dict_keys p)) as [Hin|Hout].
    + now rewrite (dict_keys_set_in Py.str_eqb str_eqb_eq).
    + rewrite (dict_set_fresh Py.str_eqb str_eqb_eq) by assumption.
      rewrite dict_keys_app. simpl. apply NoDup_app.
      * assumption.
      * repeat constructor. auto.
      * intros x Hx [Hx'|[]]. subst. auto.
  - clear Hnd. induction Hp as [|[k' v] p Hv Hp IH]; simpl.
    + repeat constructor.
    + destruct (Py.str_eqb k k'); constructor; auto.
Qed.

Lemma part_categories_fresh (part_text : str) :
  fresh_part (part_categories part_text).
Proof.
  unfold part_categories.
  assert (H : fresh_part []) by (split; constructor).
  revert H. generalize (@nil (str * str)).
  induction (findall_groups part_text None) as [|w ws IH]; intros p H; simpl.
  - assumption.
  - apply IH. now apply dict_set_empty_fresh.
Qed.

Lemma build_part_dict_index (name_parts : list str) :
  forall done : list part,
    build_part_dict name_parts (length done) (index_parts 0 done)
    = index_parts 0 (done ++ map part_categories name_parts).
Proof.
  induction name_parts as [|t name_parts IH]; intros done; simpl.
  - now rewrite app_nil_r.
  - rewrite (dict_set_fresh key_eqb key_eqb_eq)
      by (apply index_parts_fresh_key; lia).
    replace (index_parts 0 done ++ [(KInt (length done), VDict (part_categories t))])
      with (index_parts 0 (done ++ [part_categories t]))
      by (rewrite index_parts_app; simpl; now rewrite Nat.add_0_r).
    replace (S (length done)) with (length (done ++ [part_categories t]))
      by (rewrite length_app; simpl; lia).
    rewrite IH. now rewrite <- app_assoc.
Qed.

Lemma build_part_dict_template (name_structure : str) :
  build_part_dict (split_structure name_structure) 0 []
  = index_parts 0 (template_parts name_structure).
Proof. apply (build_part_dict_index _ []). Qed.

Lemma filter_length_le {A : Type} (f : A -> bool) (l : list A) :
  length (filter f l) <= length l.
Proof.
  induction l as [|x l IH]; simpl; [lia|]. destruct (f x); simpl; lia.
Qed.

Lemma classify_index_parts (cfg : config) (a : nat) (qs : list part) :
  exists optional_parts mandatory_parts,
    classify_parts (OPTIONAL_CATEGORIES cfg) (index_parts a qs)
    = Ok (optional_parts, mandatory_parts) /\
    length mandatory_parts
    = length (filter (fun p => negb (is_optional_part cfg p)) qs).
Proof.
  revert a; induction qs as [|q qs IH]; intros a; simpl.
  - exists [], []. split; reflexivity.
  - destruct (IH (S a)) as (o & m & E & Hl). rewrite E. simpl.
    unfold is_optional_part at 1.
    destruct (forallb _ (dict_keys q)); simpl.
    + exists (KInt a :: o), m. split; [reflexivity|assumption].
    + exists o, (KInt a :: m). split; [reflexivity|]. simpl. now rewrite Hl.
Qed.

Lemma split_structure_nonempty (s : str) : split_structure s <> [].
Proof.
  destruct s as [|c s]; simpl; [discriminate|].
  destruct (Ascii.eqb c "_" && negb (closes_first s)); [discriminate|].
  destruct (split_structure s); discriminate.
Qed.

Lemma structure_ok_parts (name_structure : str) :
  structure_ok name_structure = true ->
  Forall part_ok (template_parts name_structure).
Proof.
  unfold structure_ok, template_parts. intros H.
  rewrite forallb_forall in H. apply Forall_forall. intros q Hq.
  specialize (H q Hq). cbv zeta in H.
  apply andb_true_iff in H as [H Hfl]. apply andb_true_iff in H as [Hne Hb].
  apply in_map_iff in Hq as [t [<- _]].
  repeat split.
  - apply part_categories_fresh.
  - apply part_categories_fresh.
  - intros E. rewrite E in Hne. discriminate.
  - intros Hin. apply in_list_In in Hin. rewrite Hin in Hb. discriminate.
  - assumption.
Qed.

(** ** Splitting, joining and stripping *)

Lemma split_nonempty (sep : ascii) (s : str) : Py.split sep s <> [].
Proof.
  destruct s as [|c s]; simpl; [discriminate|].
  destruct (Ascii.eqb c sep); [discriminate|].
  destruct (Py.split sep s); discriminate.
Qed.

Lemma join_split (sep : ascii) (s : str) :
  concat (map (fun x => x ++ [sep]) (Py.split sep s)) = s ++ [sep].
Proof.
  induction s as [|c s IH]; simpl; [reflexivity|].
  destruct (Ascii.eqb c sep) eqn:E.
  - apply Ascii.eqb_eq in E. subst c. simpl. now rewrite IH.
  - destruct (Py.split sep s) as [|h t] eqn:Es.
    + now apply split_nonempty in Es.
    + simpl in *. now rewrite IH.
Qed.

Lemma split_app_sep (sep : ascii) (a : str) :
  Py.split sep (a ++ [sep]) = Py.split sep a ++ [[]].
Proof.
  induction a as [|c a IH]; simpl.
  - now rewrite Ascii.eqb_refl.
  - destruct (Ascii.eqb c sep); [now rewrite IH|].
    rewrite IH. destruct (Py.split sep a) as [|h t] eqn:Es.
    + now apply split_nonempty in Es.
    + reflexivity.
Qed.

Lemma segments_first (sep : ascii) (s : str) :
  forallb nonempty (Py.split sep s) = true ->
  exists c r, s = c :: r /\ Ascii.eqb c sep = false.
Proof.
  destruct s as [|c s]; simpl; [discriminate|].
  destruct (Ascii.eqb c sep) eqn:E; simpl; [discriminate|].
  intros _. now exists c, s.
Qed.

Lemma segments_last (sep : ascii) (s : str) :
  forallb nonempty (Py.split sep s) = true ->
  exists r c, s = r ++ [c] /\ Ascii.eqb c sep = false.
Proof.
  destruct s as [|c r _] using rev_ind; [discriminate|].
  intros H. exists r, c. split; [reflexivity|].
  destruct (Ascii.eqb c sep) eqn:E; [|reflexivity].
  apply Ascii.eqb_eq in E. subst c. rewrite split_app_sep in H.
  rewrite forallb_app in H. simpl in H. now rewrite andb_false_r in H.
Qed.

Lemma strip_join (sep : ascii) (s : str) :
  forallb nonempty (Py.split sep s) = true ->
  Py.strip [sep] (s ++ [sep]) = s.
Proof.
  intros H.
  destruct (segments_first sep s H) as (c & r & Es & Hc).
  destruct (segments_last sep s H) as (r' & c' & El & Hc').
  unfold Py.strip, Py.rstrip.
  assert (E1 : Py.lstrip [sep] (s ++ [sep]) = s ++ [sep]).
  { rewrite Es. simpl. now rewrite Hc. }
  rewrite E1, rev_app_distr. simpl. rewrite Ascii.eqb_refl. simpl.
  rewrite El, rev_app_distr. simpl. rewrite Hc'. simpl.
  now rewrite rev_involutive.
Qed.

(** ** Rebuilding *)

Lemma all_empty_concat (vs : list str) :
  forallb (fun v => Py.str_eqb v []) vs = true -> concat vs = [].
Proof.
  induction vs as [|v vs IH]; simpl; [reflexivity|].
  intros H. apply andb_true_iff in H as [H1 H2].
  apply str_eqb_eq in H1. subst v. now apply IH.
Qed.

Lemma dict_get_index_parts_str (k : str) (a : nat) (qs : list part) :
  dict_get key_eqb (KStr k) (index_parts a qs) = None.
Proof.
  revert a; induction qs as [|q qs IH]; intros a; simpl; [reflexivity|apply IH].
Qed.

Lemma rebuilt_loop_index (qs : list part) :
  forall (a : nat) (acc : str),
    Forall (fun q => render q <> []) qs ->
    rebuilt_loop (index_parts a qs) acc
    = Ok (acc ++ concat (map (fun x : str => x ++ ["_"%char]) (map render qs))).
Proof.
  induction qs as [|q qs IH]; intros a acc H; simpl.
  - now rewrite app_nil_r.
  - inversion H as [|? ? Hq Hqs]; subst.
    destruct (forallb (fun v => Py.str_eqb v []) (dict_values q)) eqn:E.
    + apply all_empty_concat in E. contradiction.
    + rewrite IH by assumption. fold (render q). now rewrite <- !app_assoc.
Qed.

Lemma rebuilt_name_index (qs : list part) (name : str) :
  map render qs = Py.split "_" name ->
  segments_nonempty name = true ->
  rebuilt_name (index_parts 0 qs) = Ok name.
Proof.
  intros Hm Hs. unfold rebuilt_name.
  rewrite dict_get_index_parts_str.
  rewrite rebuilt_loop_index.
  - rewrite Hm, join_split. simpl. f_equal. now apply strip_join.
  - unfold segments_nonempty in Hs. rewrite <- Hm in Hs.
    rewrite forallb_forall in Hs. apply Forall_forall. intros q Hq.
    specialize (Hs (render q) (in_map render _ _ Hq)).
    destruct (render q); [discriminate|congruence].
Qed.

(** ** The Exact regime *)

Lemma exact_inspect (cfg : config) (name_structure name : str) :
  vocabulary_ok cfg = true ->
  structure_ok name_structure = true ->
  exact name_structure name ->
  exists qs,
    inspect_name_structure cfg name name_structure = Ok (index_parts 0 qs) /\
    map render qs = Py.split "_" name.
Proof.
  intros Hv Hs He. unfold exact, segment_count, part_count in He.
  unfold inspect_name_structure.
  rewrite build_part_dict_template.
  destruct (classify_index_parts cfg 0 (template_parts name_structure))
    as (o & m & E & Hl).
  rewrite E. cbn [bind].
  assert (Hp : length (template_parts name_structure)
               = length (split_structure name_structure))
    by apply length_map.
  assert (Hm : length m <= length (split_structure name_structure)).
  { rewrite Hl, <- Hp. apply filter_length_le. }
  rewrite (proj2 (Nat.ltb_ge _ _)) by (rewrite He; exact Hm).
  rewrite (proj2 (Nat.ltb_ge _ _)) by lia.
  rewrite (proj2 (Nat.eqb_eq _ _) He).
  rewrite dict_keys_index_parts.
  destruct (exact_loop_ok cfg name Hv (template_parts name_structure) []
              (structure_ok_parts _ Hs)) as (qs & El & Hlen & Hseg).
  { intros j Hj. simpl. unfold name_segment.
    destruct (nth_error (Py.split "_" name) j) eqn:En; [eauto|].
    apply nth_error_None in En. lia. }
  simpl in El. exists qs. split; [exact El|].
  apply nth_error_ext. intros j. rewrite nth_error_map.
  destruct (nth_error qs j) as [q|] eqn:Eq; simpl.
  - specialize (Hseg j q Eq). simpl in Hseg. unfold name_segment in Hseg.
    destruct (nth_error (Py.split "_" name) j); congruence.
  - symmetry. apply nth_error_None. apply nth_error_None in Eq. lia.
Qed.

(** In the Exact regime, on a well-formed template and a name without
    empty segment, rebuilding what was inspected gives the name back. *)
Lemma exact_rebuild (cfg : config) (name_structure name : str) :
  vocabulary_ok cfg = true ->
  structure_ok name_structure = true ->
  exact name_structure name ->
  segments_nonempty name = true ->
  rebuild_of_inspect cfg name name_structure = Ok name.
Proof.
  intros Hv Hs He Hn.
  destruct (exact_inspect cfg name_structure name Hv Hs He) as (qs & E & Hm).
  unfold rebuild_of_inspect. rewrite E. simpl.
  now apply rebuilt_name_index.
Qed.

(** ** The regimes *)

Lemma inspect_regimes (cfg : config) (name_structure name : str) :
  exists optional_parts mandatory_parts,
    length mandatory_parts = mandatory_count cfg name_structure /\
    inspect_name_structure cfg name name_structure =
    let d := index_parts 0 (template_parts name_structure) in
    if Nat.ltb (segment_count name) (mandatory_count cfg name_structure) then
      underfilled_loop name (dict_keys d) d
    else if Nat.ltb (part_count name_structure) (segment_count name) then
      Ok (dict_set key_eqb (KStr "bad_naming") (VStr name) d)
    else if Nat.eqb (segment_count name) (part_count name_structure) then
      exact_loop cfg name (dict_keys d) d []
    else
      traverse_name_parts (S (S (part_count name_structure))) cfg name
        (part_count name_structure) 0 0 optional_parts mandatory_parts d.
Proof.
  destruct (classify_index_parts cfg 0 (template_parts name_structure))
    as (o & m & E & Hl).
  exists o, m. split; [exact Hl|].
  unfold inspect_name_structure. rewrite build_part_dict_template, E.
  cbn [bind]. cbv zeta. fold (segment_count name) (part_count name_structure).
  unfold mandatory_count. rewrite <- Hl. reflexivity.
Qed.

Lemma mandatory_le_parts (cfg : config) (name_structure : str) :
  mandatory_count cfg name_structure <= part_count name_structure.
Proof.
  unfold mandatory_count, part_count.
  etransitivity; [apply filter_length_le|].
  unfold template_parts. now rewrite length_map.
Qed.

Lemma part_count_pos (name_structure : str) : 0 < part_count name_structure.
Proof.
  unfold part_count. pose proof (split_structure_nonempty name_structure).
  destruct (split_structure name_structure); [congruence|simpl; lia].
Qed.

Lemma inspect_overfilled (cfg : config) (name_structure name : str) :
  overfilled name_structure name ->
  inspect_name_structure cfg name name_structure
  = Ok (index_parts 0 (template_parts name_structure)
          ++ [(KStr "bad_naming", VStr name)]).
Proof.
  intros H. unfold overfilled in H.
  destruct (inspect_regimes cfg name_structure name) as (o & m & _ & E).
  rewrite E. cbv zeta.
  pose proof (mandatory_le_parts cfg name_structure).
  rewrite (proj2 (Nat.ltb_ge _ _)) by lia.
  rewrite (proj2 (Nat.ltb_lt _ _)) by lia.
  f_equal. apply (dict_set_fresh key_eqb key_eqb_eq).
  rewrite dict_keys_index_parts. intros Hin.
  apply in_map_iff in Hin as [j [Ej _]]. discriminate.
Qed.

Lemma dict_get_index_parts_In (a i : nat) (qs : list part) (v : value) :
  dict_get key_eqb (KInt i) (index_parts a qs) = Some v ->
  exists p, v = VDict p /\ In p qs.
Proof.
  revert a; induction qs as [|q qs IH]; intros a; simpl; [discriminate|].
  destruct (Nat.eqb i a).
  - intros H. injection H as <-. exists q. auto.
  - intros H. destruct (IH _ H) as (p & -> & Hp). exists p. auto.
Qed.

Lemma template_parts_fresh (name_structure : str) (p : part) :
  In p (template_parts name_structure) -> fresh_part p.
Proof.
  unfold template_parts. intros H. apply in_map_iff in H as [t [<- _]].
  apply part_categories_fresh.
Qed.

(** C3 (bad naming passthrough).  When the name has more segments than
    the template has parts, [inspect_name_structure] returns a part
    dictionary whose top-level ["bad_naming"] entry is the input string
    itself, every part keeps all its categories empty, and
    [rebuilt_name] gives that exact string back. *)
Theorem overfilled_passthrough (cfg : config) (name_structure name : str) :
  overfilled name_structure name ->
  exists d,
    inspect_name_structure cfg name name_structure = Ok d /\
    dict_get key_eqb (KStr "bad_naming") d = Some (VStr name) /\
    (forall i p, dict_get key_eqb (KInt i) d = Some (VDict p) ->
                 Forall (fun e => snd e = []) p) /\
    rebuilt_name d = Ok name.
Proof.
  intros H. rewrite (inspect_overfilled cfg _ _ H).
  eexists. split; [reflexivity|].
  assert (Hb : dict_get key_eqb (KStr "bad_naming")
                 (index_parts 0 (template_parts name_structure)
                    ++ [(KStr "bad_naming", VStr name)]) = Some (VStr name)).
  { rewrite (dict_get_app_notin key_eqb key_eqb_eq); [reflexivity|].
    rewrite dict_keys_index_parts. intros Hin.
    apply in_map_iff in Hin as [j [Ej _]]. discriminate. }
  repeat split.
  - exact Hb.
  - intros i p Hp.
    assert (Hp' : dict_get key_eqb (KInt i)
                    (index_parts 0 (template_parts name_structure))
                  = Some (VDict p)).
    { revert Hp. generalize (index_parts 0 (template_parts name_structure)).
      induction l as [|[k v] l IH]; simpl; intros Hp.
      - discriminate Hp.
      - destruct k as [j|t]; [destruct (Nat.eqb i j)|]; auto. }
    apply dict_get_index_parts_In in Hp' as (q & Eq & Hq).
    injection Eq as ->. now apply (template_parts_fresh name_structure).
  - unfold rebuilt_name.
    change (KStr (list_ascii_of_string "bad_naming")) with (KStr "bad_naming").
    now rewrite Hb.
Qed.

Lemma overfilled_passthrough_witness :
  overfilled (NAME_STRUCTURE default_config) "a_b_c_d_e" /\
  exists d,
    inspect_name_structure default_config "a_b_c_d_e"
      (NAME_STRUCTURE default_config) = Ok d /\
    dict_get key_eqb (KStr "bad_naming") d = Some (VStr "a_b_c_d_e") /\
    (forall i p, dict_get key_eqb (KInt i) d = Some (VDict p) ->
                 Forall (fun e => snd e = []) p) /\
    rebuilt_name d = Ok ("a_b_c_d_e" : str).
Proof.
  assert (H : overfilled (NAME_STRUCTURE default_config) "a_b_c_d_e")
    by (unfold overfilled; vm_compute; lia).
  split; [exact H|].
  exact (overfilled_passthrough default_config _ _ H).
Defined.

(** ** The fixed-width number *)

Lemma forallb_rev {A : Type} (f : A -> bool) (l : list A) :
  forallb f (rev l) = forallb f l.
Proof.
  induction l as [|x l IH]; simpl; [reflexivity|].
  rewrite forallb_app, IH. simpl. rewrite andb_true_r. apply andb_comm.
Qed.

Lemma isdigit_rev (s : str) : Py.isdigit (rev s) = Py.isdigit s.
Proof.
  unfold Py.isdigit. destruct s as [|c s]; [reflexivity|].
  rewrite forallb_rev. simpl rev.
  destruct (rev s ++ [c]) eqn:E; [|reflexivity].
  apply app_eq_nil in E as [_ E]. discriminate.
Qed.

Lemma digits_prefix (s : str) :
  forall w,
    Nat.leb w (length s) && forallb Py.is_digit (firstn w s)
    = Nat.leb w (leading_digits s).
Proof.
  induction s as [|c s IH]; intros [|w]; simpl; try reflexivity.
  destruct (Py.is_digit c); simpl.
  - apply IH.
  - apply andb_false_r.
Qed.

Lemma isdigit_prefix (s : str) (w : nat) :
  0 < w ->
  Nat.leb w (length s) && Py.isdigit (firstn w s)
  = Nat.leb w (leading_digits s).
Proof.
  intros Hw. rewrite <- digits_prefix.
  destruct (Nat.leb w (length s)) eqn:E; [|reflexivity]. simpl.
  apply Nat.leb_le in E. unfold Py.isdigit.
  destruct (firstn w s) eqn:Ef; [|reflexivity].
  apply (f_equal (@length ascii)) in Ef. rewrite length_firstn in Ef.
  simpl in Ef. lia.
Qed.

Lemma separate_number_run (s : str) (w : nat) (start : bool) :
  0 < w ->
  separate_number s w start =
  if Nat.leb w (digit_run s start)
  then if start then (firstn w s, skipn w s)
       else (Py.slice_last w s, Py.slice_but_last w s)
  else ([], s).
Proof.
  intros Hw. unfold separate_number, digit_run.
  destruct start; simpl.
  - unfold Py.slice_to, Py.slice_from. now rewrite (isdigit_prefix s w Hw).
  - rewrite slice_last_rev by lia. rewrite isdigit_rev.
    rewrite <- (length_rev s). rewrite (isdigit_prefix (rev s) w Hw).
    destruct (Nat.leb w (leading_digits (rev s))); reflexivity.
Qed.

(** C4, as the code has it (numeric increment).  With a width [w] of
    at least one digit, and so with the width 3 of [numerical_inc]: a
    fragment whose digit run at the anchored end is shorter than [w]
    does not match, its value stays empty and the fragment is left
    whole; a fragment whose digit run there has [w] digits or more does
    match, with exactly the [w] digits next to that end for value, the
    rest of the run staying in the fragment. *)
Theorem separate_number_exact_width (s : str) (w : nat) (start : bool) :
  0 < w ->
  (digit_run s start < w -> separate_number s w start = ([], s)) /\
  (w <= digit_run s start ->
   exists value rest,
     separate_number s w start = (value, rest) /\
     length value = w /\
     forallb Py.is_digit value = true /\
     glue start value rest = s).
Proof.
  intros Hw. rewrite (separate_number_run s w start Hw). split.
  - intros H. now rewrite (proj2 (Nat.leb_gt _ _) H).
  - intros H. rewrite (proj2 (Nat.leb_le _ _) H).
    pose proof (separate_number_glue s w start) as G.
    rewrite (separate_number_run s w start Hw) in G.
    rewrite (proj2 (Nat.leb_le _ _) H) in G.
    unfold digit_run in H. destruct start.
    + exists (firstn w s), (skipn w s). simpl in G.
      pose proof (digits_prefix s w) as D.
      rewrite (proj2 (Nat.leb_le _ _) H) in D.
      apply andb_true_iff in D as [D1 D2]. apply Nat.leb_le in D1.
      repeat split; try assumption. rewrite length_firstn. lia.
    + exists (Py.slice_last w s), (Py.slice_but_last w s). simpl in G.
      pose proof (digits_prefix (rev s) w) as D.
      rewrite (proj2 (Nat.leb_le _ _) H) in D.
      apply andb_true_iff in D as [D1 D2]. apply Nat.leb_le in D1.
      rewrite length_rev in D1.
      repeat split; try assumption.
      * rewrite slice_last_rev by lia.
        rewrite length_rev, length_firstn, length_rev. lia.
      * rewrite slice_last_rev by lia. now rewrite forallb_rev.
Qed.

Lemma separate_number_exact_width_witness :
  0 < 3 /\
  (digit_run "jar12" false < 3 ->
   separate_number "jar12" 3 false = ([], "jar12" : str)) /\
  (3 <= digit_run "jar1234" false ->
   exists value rest,
     separate_number "jar1234" 3 false = (value, rest) /\
     length value = 3 /\
     forallb Py.is_digit value = true /\
     glue false value rest = "jar1234").
Proof.
  split; [lia|]. split.
  - exact (proj1 (separate_number_exact_width "jar12" 3 false ltac:(lia))).
  - exact (proj2 (separate_number_exact_width "jar1234" 3 false ltac:(lia))).
Defined.

(** C4, as stated, fails: the fragment ["jar1234"] ends in a run of four
    digits, and [numerical_inc] of width 3 matches it all the same, with
    the value ["234"]. *)
Lemma four_digit_run_matches :
  digit_run "jar1234" false = 4 /\
  separate_number "jar1234" 3 false = ("234" : str, "jar1" : str) /\
  fst (separate_number "jar1234" 3 false) <> [].
Proof. repeat split; try reflexivity. discriminate. Qed.

(** ** Worked examples of the specification *)



(** ** The Underfilled regime *)

Lemma underfilled_loop_ok (name : str) :
  forall todo done : list part,
    underfilled_loop name (map KInt (seq (length done) (length todo)))
      (index_parts 0 (done ++ todo))
    = Ok (index_parts 0 (done ++ assign_first_name name todo)).
Proof.
  induction todo as [|q todo IH]; intros done; simpl.
  - reflexivity.
  - pose proof (get_part_index_mid 0 done todo q) as Hd.
    rewrite Nat.add_0_r in Hd. rewrite Hd. simpl.
    match goal with
    | |- context [dict_mem ?e ?k q] => destruct (dict_mem e k q)
    end.
    + rewrite (set_item_put _ _ _ _ _ Hd).
      pose proof (put_index_mid 0 done todo q) as Hp.
      rewrite Nat.add_0_r in Hp. now rewrite Hp.
    + replace (done ++ q :: todo) with ((done ++ [q]) ++ todo)
        by (now rewrite <- app_assoc).
      replace (S (length done)) with (length (done ++ [q]))
        by (rewrite length_app; simpl; lia).
      rewrite IH. now rewrite <- app_assoc.
Qed.

Lemma inspect_underfilled (cfg : config) (name_structure name : str) :
  underfilled cfg name_structure name ->
  inspect_name_structure cfg name name_structure
  = Ok (index_parts 0 (assign_first_name name (template_parts name_structure))).
Proof.
  intros H. unfold underfilled in H.
  destruct (inspect_regimes cfg name_structure name) as (o & m & _ & E).
  rewrite E. cbv zeta. rewrite (proj2 (Nat.ltb_lt _ _) H).
  rewrite dict_keys_index_parts.
  apply (underfilled_loop_ok name (template_parts name_structure) []).
Qed.

Lemma lstrip_app (chars a b : str) :
  Py.lstrip chars (a ++ b) =
  match Py.lstrip chars a with
  | [] => Py.lstrip chars b
  | c :: x => (c :: x) ++ b
  end.
Proof.
  induction a as [|c a IH]; simpl; [reflexivity|].
  destruct (Py.char_in c chars); [assumption|reflexivity].
Qed.

Lemma strip_app_sep (u : ascii) (s : str) :
  Py.strip [u] (s ++ [u]) = Py.strip [u] s.
Proof.
  unfold Py.strip. rewrite lstrip_app.
  destruct (Py.lstrip [u] s) as [|c x] eqn:E.
  - simpl. now rewrite Ascii.eqb_refl.
  - unfold Py.rstrip. rewrite rev_app_distr. simpl.
    now rewrite Ascii.eqb_refl.
Qed.

Lemma all_empty_values (p : part) :
  Forall (fun e => snd e = []) p ->
  forallb (fun v => Py.str_eqb v []) (dict_values p) = true.
Proof.
  induction 1 as [|[k v] q Hv _ IH]; simpl; [reflexivity|].
  simpl in Hv. subst v. exact IH.
Qed.

Lemma rebuilt_loop_empty (qs : list part) :
  forall (a : nat) (acc : str),
    Forall (fun p : part => Forall (fun e => snd e = []) p) qs ->
    rebuilt_loop (index_parts a qs) acc = Ok acc.
Proof.
  induction qs as [|q qs IH]; intros a acc H; simpl; [reflexivity|].
  inversion H as [|? ? Hq Hqs]; subst.
  rewrite (all_empty_values q Hq). now apply IH.
Qed.

Lemma values_set_name (name : str) (p : part) :
  Forall (fun e => snd e = []) p ->
  dict_mem Py.str_eqb "name" p = true ->
  concat (dict_values (dict_set Py.str_eqb "name" name p)) = name /\
  forallb (fun v => Py.str_eqb v []) (dict_values (dict_set Py.str_eqb "name" name p))
  = negb (nonempty name).
Proof.
  intros Hp. unfold dict_mem. generalize ("name" : str). intros key.
  induction Hp as [|[k v] p Hv Hp IH]; cbn [dict_get dict_set].
  - discriminate.
  - simpl in Hv. subst v. destruct (Py.str_eqb key k).
    + intros _. cbn [dict_values map concat snd forallb].
      pose proof (render_empty p Hp) as Hr. unfold render in Hr.
      unfold dict_values in *. rewrite Hr, app_nil_r. split; [reflexivity|].
      pose proof (all_empty_values p Hp) as E. unfold dict_values in E.
      rewrite E, andb_true_r. now destruct name.
    + intros H. destruct (IH H) as [E1 E2].
      cbn [dict_values map concat snd forallb]. unfold dict_values in *.
      simpl. split; assumption.
Qed.

Lemma rebuilt_loop_underfilled (name : str) (ps : list part) :
  forall (a : nat) (acc : str),
    Forall (fun p : part => Forall (fun e => snd e = []) p) ps ->
    rebuilt_loop (index_parts a (assign_first_name name ps)) acc
    = Ok (acc ++
          if existsb (fun p => dict_mem Py.str_eqb "name" p) ps && nonempty name
          then name ++ "_" else []).
Proof.
  induction ps as [|p ps IH]; intros a acc H; simpl.
  - now rewrite app_nil_r.
  - inversion H as [|? ? Hp Hps]; subst.
    match goal with
    | |- context [dict_mem ?e ?k p] => destruct (dict_mem e k p) eqn:Hm
    end; simpl.
    + destruct (values_set_name name p Hp Hm) as [E1 E2].
      simpl in E1, E2. rewrite E1, E2.
      destruct name as [|c name]; simpl.
      * rewrite app_nil_r. now apply rebuilt_loop_empty.
      * now apply rebuilt_loop_empty.
    + rewrite (all_empty_values p Hp). now apply IH.
Qed.

Lemma template_parts_empty (name_structure : str) :
  Forall (fun p : part => Forall (fun e => snd e = []) p)
         (template_parts name_structure).
Proof.
  apply Forall_forall. intros p Hp.
  now destruct (template_parts_fresh _ _ Hp).
Qed.

(** C6 (underfilled passthrough).  When the name has fewer segments than
    the template has mandatory parts, [inspect_name_structure] returns
    the template's parts, every category empty, except that the first
    part holding ["name"] has the whole input for its name; rebuilding
    gives the input back, less the underscores at its two ends. *)
Theorem underfilled_passthrough (cfg : config) (name_structure name : str) :
  underfilled cfg name_structure name ->
  inspect_name_structure cfg name name_structure
  = Ok (index_parts 0 (assign_first_name name (template_parts name_structure)))
  /\
  Forall (fun p : part => Forall (fun e => snd e = []) p)
         (template_parts name_structure)
  /\
  rebuilt_name
    (index_parts 0 (assign_first_name name (template_parts name_structure)))
  = Ok (if has_name_category name_structure then Py.strip "_" name else []).
Proof.
  intros H. split; [now apply inspect_underfilled|].
  split; [apply template_parts_empty|].
  unfold rebuilt_name. rewrite dict_get_index_parts_str.
  rewrite rebuilt_loop_underfilled by apply template_parts_empty.
  unfold has_name_category. simpl.
  destruct (existsb _ (template_parts name_structure)); simpl; [|reflexivity].
  destruct name as [|c name]; [reflexivity|].
  simpl nonempty. cbv iota. f_equal.
  apply (strip_app_sep "_" (c :: name)).
Qed.

Lemma underfilled_passthrough_witness :
  underfilled default_config "[type]_[name]" "Body" /\
  inspect_name_structure default_config "Body" "[type]_[name]"
  = Ok [(KInt 0, VDict [("type" : str, [] : str)]);
        (KInt 1, VDict [("name" : str, "Body" : str)])] /\
  rebuilt_name [(KInt 0, VDict [("type" : str, [] : str)]);
                (KInt 1, VDict [("name" : str, "Body" : str)])]
  = Ok ("Body" : str).
Proof.
  assert (H : underfilled default_config "[type]_[name]" "Body")
    by (unfold underfilled; vm_compute; lia).
  destruct (underfilled_passthrough default_config _ _ H) as (E & _ & R).
  split; [exact H|]. split; [exact E|exact R].
Defined.

(** ** A structure without ["name"] *)

Lemma assign_first_name_none (name : str) (ps : list part) :
  existsb (fun p => dict_mem Py.str_eqb "name" p) ps = false ->
  assign_first_name name ps = ps.
Proof.
  induction ps as [|p ps IH]; cbn [existsb assign_first_name]; [reflexivity|].
  intros H. apply orb_false_iff in H as [H1 H2].
  rewrite H1. now rewrite IH.
Qed.

(** C8, as the code has it.  The inspector has no [StructureError] and
    no test for a missing ["name"]: given a structure without ["name"]
    (well-formed otherwise, and a vocabulary without empty candidate),
    every name outside the traversal regime gets a part dictionary, and
    in the Underfilled regime it is the template's own, with every
    category empty. *)
Theorem no_name_structure_returns (cfg : config) (name_structure name : str) :
  has_name_category name_structure = false ->
  vocabulary_ok cfg = true ->
  structure_ok name_structure = true ->
  segment_count name < mandatory_count cfg name_structure \/
  part_count name_structure <= segment_count name ->
  exists d,
    inspect_name_structure cfg name name_structure = Ok d /\
    (underfilled cfg name_structure name ->
     d = index_parts 0 (template_parts name_structure)).
Proof.
  intros Hn Hv Hs Hr.
  destruct (Nat.lt_ge_cases (segment_count name)
              (mandatory_count cfg name_structure)) as [Hu|Hnu].
  - exists (index_parts 0 (template_parts name_structure)). split; [|reflexivity].
    rewrite (inspect_underfilled cfg _ _ Hu).
    now rewrite (assign_first_name_none name _ Hn).
  - destruct Hr as [Hr|Hr]; [lia|].
    assert (Hno : underfilled cfg name_structure name -> False)
      by (unfold underfilled; lia).
    destruct (Nat.eq_dec (segment_count name) (part_count name_structure))
      as [He|Hne].
    + destruct (exact_inspect cfg name_structure name Hv Hs He) as (qs & E & _).
      exists (index_parts 0 qs). split; [exact E|]. intros H. now apply Hno in H.
    + assert (Ho : overfilled name_structure name) by (unfold overfilled; lia).
      eexists. split; [apply (inspect_overfilled cfg _ _ Ho)|].
      intros H. now apply Hno in H.
Qed.

Lemma no_name_structure_returns_witness :
  has_name_category "[type]" = false /\
  vocabulary_ok default_config = true /\
  structure_ok "[type]" = true /\
  (segment_count "prp" < mandatory_count default_config "[type]" \/
   part_count "[type]" <= segment_count "prp") /\
  exists d,
    inspect_name_structure default_config "prp" "[type]" = Ok d /\
    (underfilled default_config "[type]" "prp" ->
     d = index_parts 0 (template_parts "[type]")).
Proof.
  assert (Hr : segment_count "prp" < mandatory_count default_config "[type]" \/
               part_count "[type]" <= segment_count "prp")
    by (right; vm_compute; lia).
  split; [reflexivity|]. split; [reflexivity|]. split; [reflexivity|].
  split; [exact Hr|].
  exact (no_name_structure_returns default_config "[type]" "prp"
           eq_refl eq_refl eq_refl Hr).
Defined.

(** C8, as stated, fails: the structure [[type]] has no ["name"]
    category, and the inspector returns a part dictionary for the name
    ["prp"] instead of raising. *)
Lemma no_name_structure_no_raise :
  has_name_category "[type]" = false /\
  inspect_name_structure default_config "prp" "[type]"
  = Ok [(KInt 0, VDict [("type" : str, "prp" : str)])] /\
  (forall e, inspect_name_structure default_config "prp" "[type]" <> Raise e).
Proof.
  split; [reflexivity|]. split; [reflexivity|]. intros e. discriminate.
Qed.

(** ** Category edits on an overfilled name *)

Lemma for_each_app {A S : Type} (f : S -> A -> result S) (l1 l2 : list A) (s : S) :
  for_each (l1 ++ l2) f s = (s' <- for_each l1 f s ;; for_each l2 f s').
Proof.
  revert s; induction l1 as [|x l1 IH]; intros s; simpl; [reflexivity|].
  destruct (f s x); simpl; [apply IH|reflexivity].
Qed.

Lemma dict_get_index_mid (a : nat) (done todo : list part) (q : part)
  (tail : part_dict) :
  dict_get key_eqb (KInt (length done + a))
    (index_parts a (done ++ q :: todo) ++ tail) = Some (VDict q).
Proof.
  rewrite index_parts_app, <- app_assoc.
  rewrite (dict_get_app_notin key_eqb key_eqb_eq)
    by (apply index_parts_fresh_key; lia).
  simpl. now rewrite Nat.eqb_refl.
Qed.

Lemma dict_set_index_mid (a : nat) (done todo : list part) (q q' : part)
  (tail : part_dict) :
  dict_set key_eqb (KInt (length done + a)) (VDict q')
    (index_parts a (done ++ q :: todo) ++ tail)
  = index_parts a (done ++ q' :: todo) ++ tail.
Proof.
  rewrite !index_parts_app, <- !app_assoc. simpl.
  apply (dict_set_app_notin key_eqb key_eqb_eq).
  apply index_parts_fresh_key. lia.
Qed.

(** The edit goes through the parts and leaves what follows them alone. *)
Lemma edit_parts (category v : str) (tail : part_dict) :
  forall todo done : list part,
    exists todo',
      for_each (map KInt (seq (length done) (length todo)))
        (fun d' index =>
           match dict_get key_eqb index d' with
           | None => Raise KeyError
           | Some entry =>
               if value_has category entry then set_item d' index category v
               else Ok d'
           end)
        (index_parts 0 (done ++ todo) ++ tail)
      = Ok (index_parts 0 (done ++ todo') ++ tail).
Proof.
  induction todo as [|q todo IH]; intros done.
  - exists []. reflexivity.
  - simpl.
    pose proof (dict_get_index_mid 0 done todo q tail) as Hg.
    rewrite Nat.add_0_r in Hg. rewrite Hg. simpl.
    assert (Hstep : exists q',
      (if dict_mem Py.str_eqb category q
       then set_item (index_parts 0 (done ++ q :: todo) ++ tail)
              (KInt (length done)) category v
       else Ok (index_parts 0 (done ++ q :: todo) ++ tail))
      = Ok (index_parts 0 ((done ++ [q']) ++ todo) ++ tail)).
    { destruct (dict_mem Py.str_eqb category q).
      - exists (dict_set Py.str_eqb category v q).
        unfold set_item, get_part. rewrite Hg. simpl.
        pose proof (dict_set_index_mid 0 done todo q
                      (dict_set Py.str_eqb category v q) tail) as Hp.
        rewrite Nat.add_0_r in Hp. rewrite Hp. now rewrite <- app_assoc.
      - exists q. now rewrite <- app_assoc. }
    destruct Hstep as (q' & ->). simpl.
    destruct (IH (done ++ [q'])) as (todo' & E).
    rewrite length_app in E. simpl in E. rewrite Nat.add_1_r in E.
    rewrite E. exists (q' :: todo'). now rewrite <- app_assoc.
Qed.

(** C10 (category edit on an overfilled name).  When the name of the
    item has more segments than the template has parts and its text
    contains the identifier of the edited category, the edit ends in a
    [TypeError]: the loop reaches the top-level ["bad_naming"] string,
    finds the identifier in it and assigns an item of a string.  So it
    is for [rename_with_type] and for each of its siblings. *)
Theorem edit_of_overfilled_name_raises (category : str) (cfg : config)
  (long_name name v : str) :
  get_name_from_item_data long_name = Ok name ->
  overfilled (NAME_STRUCTURE cfg) name ->
  Py.contains category name = true ->
  rename_with_category category cfg long_name v = Raise TypeError.
Proof.
  intros Hn Ho Hc. unfold rename_with_category. rewrite Hn. simpl.
  assert (Hne : name <> []).
  { intros ->. unfold overfilled, segment_count in Ho. simpl in Ho.
    pose proof (part_count_pos (NAME_STRUCTURE cfg)). lia. }
  destruct name as [|c name]; [congruence|].
  rewrite (inspect_overfilled cfg _ _ Ho). simpl.
  unfold edit_loop. rewrite dict_keys_app, dict_keys_index_parts.
  rewrite for_each_app.
  destruct (edit_parts category v [(KStr "bad_naming", VStr (c :: name))]
              (template_parts (NAME_STRUCTURE cfg)) []) as (qs & E).
  simpl in E. rewrite E. simpl.
  rewrite (dict_get_app_notin key_eqb key_eqb_eq).
  - simpl. simpl in Hc. rewrite Hc. unfold set_item, get_part.
    rewrite (dict_get_app_notin key_eqb key_eqb_eq); [reflexivity|].
    rewrite dict_keys_index_parts. intros Hin.
    apply in_map_iff in Hin as [j [Ej _]]. discriminate.
  - rewrite dict_keys_index_parts. intros Hin.
    apply in_map_iff in Hin as [j [Ej _]]. discriminate.
Qed.

Lemma edit_of_overfilled_name_raises_witness :
  get_name_from_item_data "|grp|a_b_c_d_type" = Ok ("a_b_c_d_type" : str) /\
  overfilled (NAME_STRUCTURE default_config) "a_b_c_d_type" /\
  Py.contains "type" "a_b_c_d_type" = true /\
  rename_with_type default_config "|grp|a_b_c_d_type" "prp" = Raise TypeError.
Proof.
  assert (Ho : overfilled (NAME_STRUCTURE default_config) "a_b_c_d_type")
    by (unfold overfilled; vm_compute; lia).
  split; [reflexivity|]. split; [exact Ho|]. split; [reflexivity|].
  exact (edit_of_overfilled_name_raises "type" default_config
           "|grp|a_b_c_d_type" "a_b_c_d_type" "prp" eq_refl Ho eq_refl).
Defined.


(** ** Round trip *)




(** With the hypotheses of the round trip, rebuilding twice is
    rebuilding once. *)
Corollary exact_rebuild_twice (cfg : config) (name_structure name : str) :
  vocabulary_ok cfg = true ->
  structure_ok name_structure = true ->
  exact name_structure name ->
  segments_nonempty name = true ->
  rebuild_twice cfg name name_structure
  = rebuild_of_inspect cfg name name_structure.
Proof.
  intros Hv Hs He Hn. unfold rebuild_twice.
  rewrite (exact_rebuild cfg _ _ Hv Hs He Hn). simpl.
  now apply exact_rebuild.
Qed.

(** C2 (idempotent re-edit) at the failing input.  Under the default
    template the name ["_foo_bar_baz"] is in the Exact regime and
    rebuilds to ["foo_bar_baz"]; inspected again, that name goes through
    the traversal, where the last, optional part takes ["baz"] as
    ["bad_naming"], [handle_bad_naming] deletes it, and the rebuilt name
    is ["foo_bar"]: rebuilding twice is not rebuilding once. *)
Theorem idempotence_breaks_on_dropped_segment :
  exact (NAME_STRUCTURE default_config) "_foo_bar_baz" /\
  rebuild_of_inspect default_config "_foo_bar_baz" (NAME_STRUCTURE default_config)
  = Ok ("foo_bar_baz" : str) /\
  inspect_name_structure default_config "foo_bar_baz" (NAME_STRUCTURE default_config)
  = Ok [(KInt 0, VDict [("symmetry" : str, [] : str)]);
        (KInt 1, VDict [("type" : str, "foo" : str)]);
        (KInt 2, VDict [("name" : str, "bar" : str); ("zoning" : str, [] : str);
                        ("orientation" : str, [] : str);
                        ("alphabetical_inc" : str, [] : str)]);
        (KInt 3, VDict [("numerical_inc" : str, [] : str)])] /\
  rebuild_twice default_config "_foo_bar_baz" (NAME_STRUCTURE default_config)
  = Ok ("foo_bar" : str) /\
  rebuild_twice default_config "_foo_bar_baz" (NAME_STRUCTURE default_config)
  <> rebuild_of_inspect default_config "_foo_bar_baz"
       (NAME_STRUCTURE default_config).
Proof.
  split; [reflexivity|]. split; [vm_compute; reflexivity|].
  split; [vm_compute; reflexivity|]. split; [vm_compute; reflexivity|].
  vm_compute. discriminate.
Qed.

Lemma find_none_iff {A : Type} (f : A -> bool) (l : list A) :
  (forall x, In x l -> f x = false) -> find f l = None.
Proof.
  induction l as [|a l IH]; intros H; simpl; [reflexivity|].
  rewrite (H a) by now left. apply IH. intros x Hx. apply H. now right.
Qed.

Lemma matches_at_nil (start : bool) (s : str) : matches_at start s [] = true.
Proof.
  destruct start; simpl.
  - now destruct s.
  - unfold Py.endswith. simpl. now destruct (rev s).
Qed.

Lemma separate_value_find (s : str) (l : list str) (start : bool) :
  separate_value s l start =
  match find (matches_at start s) l with
  | Some v =>
      (v, if start then Py.slice_from (length v) s
          else Py.slice_but_last (length v) s)
  | None => ([], s)
  end.
Proof.
  induction l as [|v l IH]; simpl; [reflexivity|].
  destruct start; simpl.
  - destruct (Py.startswith s v); [reflexivity|exact IH].
  - destruct (Py.endswith s v); [reflexivity|exact IH].
Qed.

(** X1: [separate_value] takes the first candidate, in catalogue order,
    that stands at the anchored end of the fragment, and nothing when no
    candidate does; with no empty candidate, value and rest put back
    together are the fragment. *)
Theorem separate_value_first_match (s : str) (l : list str) (start : bool) :
  forallb nonempty l = true ->
  exists rest,
    separate_value s l start = (first_match start s l, rest) /\
    glue start (first_match start s l) rest = s.
Proof.
  intros Hl.
  pose proof (separate_value_glue s l start Hl) as G.
  rewrite separate_value_find in G |- *. unfold first_match.
  destruct (find (matches_at start s) l) as [v|]; simpl in G |- *;
    eexists; split; try reflexivity; exact G.
Qed.

Lemma separate_value_first_match_witness :
  exists rest,
    separate_value "LtBody" (strs ["L"; "Lt"]) true
    = (first_match true "LtBody" (strs ["L"; "Lt"]), rest) /\
    glue true (first_match true "LtBody" (strs ["L"; "Lt"])) rest
    = ("LtBody" : str).
Proof.
  apply (separate_value_first_match "LtBody" (strs ["L"; "Lt"]) true).
  reflexivity.
Defined.

Lemma suffixes_sound (l : list str) (start : bool) :
  forallb nonempty l = true ->
  forall depth s backup,
    length s < depth ->
    exists vs rest,
      separate_suffixes_recurcive depth s l backup start
      = Ok ((if start then backup ++ concat vs else concat vs ++ backup), rest) /\
      Forall (fun v => In v l) vs /\
      glue start (concat vs) rest = s /\
      (forall c, In c l -> matches_at start rest c = false).
Proof.
  intros Hl. induction depth as [|depth IH]; intros s backup Hd; [lia|].
  destruct start; simpl.
  - destruct (find (fun value => Py.startswith s value) l) as [v|] eqn:F.
    + pose proof (find_some _ _ F) as [Hin _].
      destruct (find_nonempty _ _ _ Hl F) as [Hv Hs].
      apply startswith_inv in Hs.
      assert (Hlen : length (Py.slice_from (length v) s) < depth).
      { unfold Py.slice_from. rewrite length_skipn.
        destruct v; [congruence|]. simpl in *. destruct s; simpl in *; [discriminate|lia]. }
      destruct (IH _ (backup ++ v) Hlen) as (vs & rest & E & Hvs & G & M).
      exists (v :: vs), rest. repeat split.
      * rewrite E. simpl. now rewrite <- app_assoc.
      * now constructor.
      * simpl in *. rewrite <- app_assoc, G. now symmetry.
      * exact M.
    + exists [], s. repeat split.
      * simpl. now rewrite app_nil_r.
      * constructor.
      * intros c Hc. exact (find_none _ _ F c Hc).
  - destruct (find (fun value => Py.endswith s value) l) as [v|] eqn:F.
    + pose proof (find_some _ _ F) as [Hin _].
      destruct (find_nonempty _ _ _ Hl F) as [Hv Hs].
      apply endswith_inv in Hs; [|assumption].
      assert (Hlen : length (Py.slice_but_last (length v) s) < depth).
      { apply (f_equal (@length ascii)) in Hs. rewrite length_app in Hs.
        destruct v; [congruence|]. simpl in *. lia. }
      destruct (IH _ (v ++ backup) Hlen) as (vs & rest & E & Hvs & G & M).
      exists (vs ++ [v]), rest. repeat split.
      * rewrite E. rewrite concat_app. simpl. now rewrite app_nil_r, <- app_assoc.
      * apply Forall_app. split; [assumption|]. now constructor.
      * simpl in *. rewrite concat_app. simpl. rewrite app_nil_r, app_assoc, G.
        now symmetry.
      * exact M.
    + exists [], s. repeat split.
      * constructor.
      * simpl. apply app_nil_r.
      * intros c Hc. exact (find_none _ _ F c Hc).
Qed.

(** X2: with no empty candidate, [separate_value_recursive] returns; the
    value is a run of candidates, value and rest put back together are
    the fragment, and no candidate stands at the anchored end of the
    rest: the peeling goes on as long as some candidate matches. *)
Theorem separate_value_recursive_maximal (s : str) (l : list str) (start : bool) :
  forallb nonempty l = true ->
  exists vs rest,
    separate_value_recursive s l start = Ok (concat vs, rest) /\
    Forall (fun v => In v l) vs /\
    glue start (concat vs) rest = s /\
    (forall c, In c l -> matches_at start rest c = false).
Proof.
  intros Hl. unfold separate_value_recursive.
  destruct (suffixes_sound l start Hl (S (length s)) s [] (Nat.lt_succ_diag_r _))
    as (vs & rest & E & Hvs & G & M).
  exists vs, rest. repeat split; try assumption.
  rewrite E. destruct start; simpl; [reflexivity|now rewrite app_nil_r].
Qed.

Lemma separate_value_recursive_maximal_witness :
  exists vs rest,
    separate_value_recursive "jarTpLt" (ZONING_SINGLE_DICT default_config) false
    = Ok (concat vs, rest) /\
    Forall (fun v => In v (ZONING_SINGLE_DICT default_config)) vs /\
    glue false (concat vs) rest = ("jarTpLt" : str) /\
    (forall c, In c (ZONING_SINGLE_DICT default_config) ->
               matches_at false rest c = false).
Proof.
  apply (separate_value_recursive_maximal "jarTpLt"
           (ZONING_SINGLE_DICT default_config) false).
  reflexivity.
Defined.

Lemma suffixes_raise (l : list str) (start : bool) :
  In [] l ->
  forall depth s backup,
    separate_suffixes_recurcive depth s l backup start = Raise RecursionError.
Proof.
  intros Hin. induction depth as [|depth IH]; intros s backup; [reflexivity|].
  assert (F : forall s, find (matches_at start s) l <> None).
  { intros s0 H. pose proof (find_none _ _ H [] Hin) as H1.
    now rewrite matches_at_nil in H1. }
  destruct start; simpl.
  - specialize (F s). unfold matches_at in F.
    destruct (find (fun v => Py.startswith s v) l) as [v|] eqn:E.
    + apply IH.
    + exfalso. now apply F.
  - specialize (F s). unfold matches_at in F.
    destruct (find (fun v => Py.endswith s v) l) as [v|] eqn:E.
    + apply IH.
    + exfalso. now apply F.
Qed.

(** X3: an empty candidate in the vocabulary makes
    [separate_value_recursive] recurse for ever on every fragment: the
    empty string matches at either end and never shortens the fragment,
    so the call ends in [RecursionError]. *)
Theorem empty_candidate_recursion_error (s : str) (l : list str) (start : bool) :
  In [] l -> separate_value_recursive s l start = Raise RecursionError.
Proof.
  intros Hin. unfold separate_value_recursive. now apply suffixes_raise.
Qed.

Lemma empty_candidate_recursion_error_witness :
  separate_value_recursive "jarLt" (strs ["Lt"; ""]) false = Raise RecursionError.
Proof.
  apply (empty_candidate_recursion_error "jarLt" (strs ["Lt"; ""]) false).
  simpl. right. now left.
Defined.

Lemma startswith_nil (s : str) : Py.startswith s [] = true.
Proof. now destruct s. Qed.

Lemma startswith_app_cases (v rest c : str) :
  Py.startswith (v ++ rest) c = true ->
  Py.startswith v c = true \/ Py.startswith c v = true.
Proof.
  revert c. induction v as [|a v IH]; intros c H.
  - right. apply startswith_nil.
  - destruct c as [|d c]; [left; reflexivity|].
    simpl in H |- *. apply andb_true_iff in H as [H1 H2].
    destruct (IH c H2) as [H|H]; [left|right]; rewrite H.
    + now rewrite H1.
    + apply Ascii.eqb_eq in H1. subst. now rewrite Ascii.eqb_refl.
Qed.

Lemma matches_at_glue (start : bool) (v t : str) :
  matches_at start (glue start v t) v = true.
Proof.
  destruct start; simpl.
  - apply startswith_app.
  - unfold Py.endswith. rewrite rev_app_distr. apply startswith_app.
Qed.

Lemma matches_at_glue_cases (start : bool) (v t c : str) :
  matches_at start (glue start v t) c = true ->
  matches_at start v c = true \/ matches_at start c v = true.
Proof.
  destruct start; simpl.
  - apply startswith_app_cases.
  - unfold Py.endswith. rewrite rev_app_distr. apply startswith_app_cases.
Qed.

Lemma code_free_inv (start : bool) (l : list str) (a b : str) :
  code_free start l = true -> In a l -> In b l ->
  matches_at start a b = true -> a = b.
Proof.
  intros H Ha Hb M. unfold code_free in H.
  rewrite forallb_forall in H. specialize (H a Ha).
  rewrite forallb_forall in H. specialize (H b Hb).
  rewrite M in H. simpl in H. now apply str_eqb_eq.
Qed.

Lemma find_code_free (start : bool) (l : list str) (v t : str) :
  code_free start l = true -> In v l ->
  find (matches_at start (glue start v t)) l = Some v.
Proof.
  intros Hc Hv.
  destruct (find (matches_at start (glue start v t)) l) as [c|] eqn:F.
  - apply find_some in F as [Hin M].
    apply matches_at_glue_cases in M as [M|M].
    + now rewrite (code_free_inv start l v c Hc Hv Hin M).
    + now rewrite (code_free_inv start l c v Hc Hin Hv M).
  - pose proof (find_none _ _ F v Hv) as H.
    now rewrite matches_at_glue in H.
Qed.

Lemma slice_but_last_app (x v : str) :
  v <> [] -> Py.slice_but_last (length v) (x ++ v) = x.
Proof.
  intros Hv. destruct v as [|c v]; [congruence|].
  unfold Py.slice_but_last. cbn [length].
  rewrite length_app. cbn [length].
  replace (length x + S (length v) - S (length v)) with (length x) by lia.
  now rewrite firstn_app, Nat.sub_diag, firstn_all, app_nil_r.
Qed.

Lemma slice_from_app (v x : str) : Py.slice_from (length v) (v ++ x) = x.
Proof.
  unfold Py.slice_from. rewrite skipn_app, Nat.sub_diag, skipn_all. reflexivity.
Qed.

Lemma suffixes_complete_start (l : list str) (t : str) :
  forallb nonempty l = true -> code_free true l = true ->
  (forall c, In c l -> matches_at true t c = false) ->
  forall vs, Forall (fun v => In v l) vs ->
  forall depth backup,
    length (concat vs ++ t) < depth ->
    separate_suffixes_recurcive depth (concat vs ++ t) l backup true
    = Ok (backup ++ concat vs, t).
Proof.
  intros Hl Hc Ht. induction vs as [|v vs IH]; intros Hvs depth backup Hd;
    (destruct depth as [|depth]; [lia|]); simpl.
  - change (fun value : str => Py.startswith t value) with (matches_at true t).
    rewrite (find_none_iff _ _ Ht). now rewrite app_nil_r.
  - inversion Hvs as [|? ? Hv Hvs']; subst.
    rewrite <- app_assoc.
    change (fun value : str => Py.startswith (v ++ concat vs ++ t) value)
      with (matches_at true (glue true v (concat vs ++ t))).
    rewrite (find_code_free true l v _ Hc Hv).
    rewrite slice_from_app.
    assert (Hne : v <> []).
    { rewrite forallb_forall in Hl. specialize (Hl v Hv). now destruct v. }
    rewrite IH.
    + now rewrite <- app_assoc.
    + assumption.
    + simpl in Hd. rewrite <- app_assoc, length_app in Hd.
      destruct v; [congruence|]. simpl in Hd. lia.
Qed.

Lemma suffixes_complete_end (l : list str) (t : str) :
  forallb nonempty l = true -> code_free false l = true ->
  (forall c, In c l -> matches_at false t c = false) ->
  forall vs, Forall (fun v => In v l) vs ->
  forall depth backup,
    length (t ++ concat vs) < depth ->
    separate_suffixes_recurcive depth (t ++ concat vs) l backup false
    = Ok (concat vs ++ backup, t).
Proof.
  intros Hl Hc Ht. induction vs as [|v vs IH] using rev_ind;
    intros Hvs depth backup Hd; (destruct depth as [|depth]; [lia|]); simpl.
  - rewrite app_nil_r.
    change (fun value : str => Py.endswith t value) with (matches_at false t).
    now rewrite (find_none_iff _ _ Ht).
  - apply Forall_app in Hvs as [Hvs' Hv]. inversion Hv as [|? ? Hv' _]; subst.
    rewrite concat_app. simpl. rewrite app_nil_r, app_assoc.
    change (fun value : str => Py.endswith ((t ++ concat vs) ++ v) value)
      with (matches_at false (glue false v (t ++ concat vs))).
    rewrite (find_code_free false l v _ Hc Hv').
    assert (Hne : v <> []).
    { rewrite forallb_forall in Hl. specialize (Hl v Hv'). now destruct v. }
    rewrite (slice_but_last_app _ _ Hne).
    rewrite IH.
    + now rewrite <- app_assoc.
    + assumption.
    + rewrite concat_app in Hd. simpl in Hd.
      rewrite app_nil_r, app_assoc, length_app in Hd.
      destruct v; [congruence|]. simpl in Hd. lia.
Qed.

(** X4: on a vocabulary without empty candidate in which no candidate
    stands at the anchored end of another one, [separate_value_recursive]
    peels a run of candidates whole, in whatever order they come, and
    stops at the text no candidate matches. *)
Theorem code_run_peeled_whole (l : list str) (start : bool) (vs : list str)
  (t : str) :
  forallb nonempty l = true ->
  code_free start l = true ->
  Forall (fun v => In v l) vs ->
  forallb (fun c => negb (matches_at start t c)) l = true ->
  separate_value_recursive (glue start (concat vs) t) l start
  = Ok (concat vs, t).
Proof.
  intros Hl Hc Hvs Ht.
  assert (Ht' : forall c, In c l -> matches_at start t c = false).
  { intros c Hin. rewrite forallb_forall in Ht. specialize (Ht c Hin).
    now apply negb_true_iff in Ht. }
  unfold separate_value_recursive. destruct start; unfold glue.
  - rewrite (suffixes_complete_start l t Hl Hc Ht' vs Hvs); [reflexivity|lia].
  - rewrite (suffixes_complete_end l t Hl Hc Ht' vs Hvs); [|lia].
    now rewrite app_nil_r.
Qed.

Lemma code_run_peeled_whole_witness :
  separate_value_recursive (glue false (concat (strs ["Lt"; "Tp"; "Bk"])) "jar")
    (ZONING_SINGLE_DICT default_config) false
  = Ok (concat (strs ["Lt"; "Tp"; "Bk"]), "jar" : str).
Proof.
  apply (code_run_peeled_whole (ZONING_SINGLE_DICT default_config) false
           (strs ["Lt"; "Tp"; "Bk"]) "jar").
  - reflexivity.
  - reflexivity.
  - repeat constructor; simpl; tauto.
  - reflexivity.
Defined.

(** ** C5: the recursive peeling of the zoning category *)

Lemma process_category_zoning (cfg : config) (d : part_dict) (i : nat)
  (p : part) (s : str) (start : bool) (value rest : str) :
  get_part d (KInt i) = Ok p ->
  separate_value_recursive s (ZONING_SINGLE_DICT cfg) start = Ok (value, rest) ->
  process_category cfg "zoning" d i s start
  = Ok (put d i (dict_set Py.str_eqb "zoning" value p), rest).
Proof.
  intros Hd E. rewrite (process_category_part cfg "zoning" d i p s start Hd).
  assert (P : peel_value cfg "zoning" s start
              = ('(value, rest) <-
                   separate_value_recursive s (ZONING_SINGLE_DICT cfg) start ;;
                 Ok (Some value, rest))) by reflexivity.
  rewrite P, E. reflexivity.
Qed.

(** C5, as the code has it (recursive suffix stripping).  With zoning
    candidates none of which is empty and none of which stands at the
    anchored end of another one, [process_category] peels a fragment
    made of a run of candidates and of a rest no candidate matches as
    follows: the zoning category gets the whole run as its single value
    (["TpLt"] for the candidates ["Tp"], ["Lt"]) and exactly the rest is
    left over: the recursion strips candidate after candidate and stops
    where none matches. *)
Theorem zoning_compound_peeled (cfg : config) (d : part_dict) (i : nat)
  (p : part) (start : bool) (vs : list str) (rest : str) :
  forallb nonempty (ZONING_SINGLE_DICT cfg) = true ->
  code_free start (ZONING_SINGLE_DICT cfg) = true ->
  Forall (fun v => In v (ZONING_SINGLE_DICT cfg)) vs ->
  forallb (fun c => negb (matches_at start rest c)) (ZONING_SINGLE_DICT cfg)
  = true ->
  get_part d (KInt i) = Ok p ->
  process_category cfg "zoning" d i (glue start (concat vs) rest) start
  = Ok (put d i (dict_set Py.str_eqb "zoning" (concat vs) p), rest).
Proof.
  intros Hl Hc Hvs Ht Hd.
  apply process_category_zoning; [exact Hd|].
  assert (Ht' : forall c, In c (ZONING_SINGLE_DICT cfg) ->
                          matches_at start rest c = false).
  { intros c Hin. rewrite forallb_forall in Ht. specialize (Ht c Hin).
    now apply negb_true_iff in Ht. }
  unfold separate_value_recursive. destruct start; unfold glue.
  - rewrite (suffixes_complete_start _ rest Hl Hc Ht' vs Hvs); [reflexivity|lia].
  - rewrite (suffixes_complete_end _ rest Hl Hc Ht' vs Hvs); [|lia].
    now rewrite app_nil_r.
Qed.

Lemma zoning_compound_peeled_witness :
  process_category default_config "zoning"
    [(KInt 0, VDict [("zoning" : str, [] : str)])] 0
    (glue true (concat (strs ["Tp"; "Lt"])) []) true
  = Ok (put [(KInt 0, VDict [("zoning" : str, [] : str)])] 0
          (dict_set Py.str_eqb "zoning" (concat (strs ["Tp"; "Lt"]))
             [("zoning" : str, [] : str)]),
        [] : str) /\
  process_category default_config "zoning"
    [(KInt 0, VDict [("zoning" : str, [] : str)])] 0
    (glue true (concat (strs ["Tp"; "Lt"])) "jar") true
  = Ok (put [(KInt 0, VDict [("zoning" : str, [] : str)])] 0
          (dict_set Py.str_eqb "zoning" (concat (strs ["Tp"; "Lt"]))
             [("zoning" : str, [] : str)]),
        "jar" : str).
Proof.
  split.
  - apply (zoning_compound_peeled default_config
             [(KInt 0, VDict [("zoning" : str, [] : str)])] 0
             [("zoning" : str, [] : str)] true (strs ["Tp"; "Lt"]) []).
    + reflexivity.
    + reflexivity.
    + repeat constructor; simpl; tauto.
    + reflexivity.
    + reflexivity.
  - apply (zoning_compound_peeled default_config
             [(KInt 0, VDict [("zoning" : str, [] : str)])] 0
             [("zoning" : str, [] : str)] true (strs ["Tp"; "Lt"]) "jar").
    + reflexivity.
    + reflexivity.
    + repeat constructor; simpl; tauto.
    + reflexivity.
    + reflexivity.
Defined.

(** C5, as stated, fails: the zoning candidates ["T"], ["Tp"], ["Lt"]
    include ["Tp"] and ["Lt"], none is empty, and the fragment ["TpLt"]
    peeled from the start gives the zoning category ["T"] and leaves
    ["pLt"]: [separate_value] takes the first candidate that matches,
    in catalogue order, and no candidate stands at the start of
    ["pLt"]. *)
Lemma t_ahead_splits_compound :
  In ("Tp" : str) (ZONING_SINGLE_DICT t_first_config) /\
  In ("Lt" : str) (ZONING_SINGLE_DICT t_first_config) /\
  forallb nonempty (ZONING_SINGLE_DICT t_first_config) = true /\
  separate_value_recursive "TpLt" (ZONING_SINGLE_DICT t_first_config) true
  = Ok ("T" : str, "pLt" : str) /\
  process_category t_first_config "zoning"
    [(KInt 0, VDict [("zoning" : str, [] : str)])] 0 "TpLt" true
  = Ok ([(KInt 0, VDict [("zoning" : str, "T" : str)])], "pLt" : str).
Proof.
  split; [simpl; tauto|]. split; [simpl; tauto|].
  split; [reflexivity|]. split; reflexivity.
Qed.

Lemma closes_first_category (c tail : str) :
  no_bracket c = true -> closes_first (c ++ "]"%char :: tail) = true.
Proof.
  induction c as [|ch c IH]; intros H; simpl.
  - reflexivity.
  - simpl in H. apply andb_true_iff in H as [H1 H2].
    apply andb_true_iff in H1 as [Ha Hb].
    apply negb_true_iff in Ha, Hb. rewrite Ha, Hb. now apply IH.
Qed.

Lemma split_structure_char (ch : ascii) (r : str) :
  Ascii.eqb ch "_" && negb (closes_first r) = false ->
  split_structure (ch :: r) = prepend [ch] (split_structure r).
Proof.
  intros H. simpl. rewrite H. now destruct (split_structure r).
Qed.

Lemma prepend_prepend (a b : str) (l : list str) :
  prepend a (prepend b l) = prepend (a ++ b) l.
Proof. destruct l; simpl; now rewrite <- ?app_assoc. Qed.

Lemma prepend_nil (l : list str) : l <> [] -> prepend [] l = l.
Proof. now destruct l. Qed.

Lemma split_structure_category (c tail : str) :
  no_bracket c = true ->
  split_structure (c ++ "]"%char :: tail)
  = prepend (c ++ ["]"%char]) (split_structure tail).
Proof.
  induction c as [|ch c IH]; intros H.
  - simpl. now destruct (split_structure tail).
  - pose proof H as H'. simpl in H. apply andb_true_iff in H as [_ H2].
    change ((ch :: c) ++ "]"%char :: tail) with (ch :: (c ++ "]"%char :: tail)).
    rewrite split_structure_char.
    + rewrite (IH H2), prepend_prepend. reflexivity.
    + rewrite (closes_first_category c tail H2). simpl. apply andb_false_r.
Qed.

Lemma split_structure_bracketed (c tail : str) :
  no_bracket c = true ->
  split_structure (bracketed c ++ tail)
  = prepend (bracketed c) (split_structure tail).
Proof.
  intros H. unfold bracketed.
  change (("[" ++ c ++ "]") ++ tail) with ("["%char :: ((c ++ ["]"%char]) ++ tail)).
  rewrite <- app_assoc. change (["]"%char] ++ tail) with ("]"%char :: tail).
  rewrite split_structure_char by reflexivity.
  rewrite (split_structure_category c tail H), prepend_prepend. reflexivity.
Qed.

Lemma split_structure_part (cs : list str) (tail : str) :
  forallb no_bracket cs = true ->
  split_structure (part_text cs ++ tail)
  = prepend (part_text cs) (split_structure tail).
Proof.
  unfold part_text. induction cs as [|c cs IH]; intros H; cbn [map concat].
  - symmetry. apply prepend_nil, split_structure_nonempty.
  - simpl in H. apply andb_true_iff in H as [H1 H2].
    rewrite <- app_assoc, (split_structure_bracketed _ _ H1), (IH H2).
    apply prepend_prepend.
Qed.

Lemma closes_first_template (parts : list (list str)) :
  closes_first (template_text parts) = false.
Proof.
  unfold template_text. induction parts as [|cs parts IH]; [reflexivity|].
  simpl. destruct (map part_text parts) as [|x r] eqn:E.
  - destruct cs; reflexivity.
  - destruct cs; [|reflexivity]. simpl. exact IH.
Qed.

Lemma split_structure_template (parts : list (list str)) :
  parts <> [] ->
  forallb (forallb no_bracket) parts = true ->
  split_structure (template_text parts) = map part_text parts.
Proof.
  unfold template_text.
  induction parts as [|cs parts IH]; intros Hne H; [congruence|].
  simpl in H. apply andb_true_iff in H as [H1 H2].
  destruct parts as [|cs' parts].
  - simpl. rewrite <- (app_nil_r (part_text cs)) at 1.
    rewrite (split_structure_part cs [] H1). simpl. now rewrite app_nil_r.
  - change (join "_" (map part_text (cs :: cs' :: parts)))
      with (part_text cs ++ "_"%char :: template_text (cs' :: parts)).
    rewrite (split_structure_part cs _ H1).
    simpl split_structure at 1.
    rewrite closes_first_template. simpl.
    unfold template_text. rewrite IH; [|discriminate|exact H2].
    simpl. now rewrite app_nil_r.
Qed.

Lemma findall_category (c tail : str) :
  no_bracket c = true ->
  forall acc,
    findall_groups (c ++ "]"%char :: tail) (Some acc)
    = match rev c ++ acc with
      | [] => findall_groups tail None
      | _ :: _ => rev (rev c ++ acc) :: findall_groups tail None
      end.
Proof.
  induction c as [|ch c IH]; intros H acc; simpl.
  - reflexivity.
  - simpl in H. apply andb_true_iff in H as [H1 H2].
    apply andb_true_iff in H1 as [_ Hb]. apply negb_true_iff in Hb.
    rewrite Hb, (IH H2), <- app_assoc. reflexivity.
Qed.

Lemma findall_part (cs : list str) (tail : str) :
  forallb (fun c => nonempty c && no_bracket c) cs = true ->
  findall_groups (part_text cs ++ tail) None = cs ++ findall_groups tail None.
Proof.
  unfold part_text. induction cs as [|c cs IH]; intros H; simpl; [reflexivity|].
  simpl in H. apply andb_true_iff in H as [H1 H2].
  apply andb_true_iff in H1 as [Hn Hb].
  unfold bracketed.
  change ((("[" ++ c ++ "]") ++ concat (map (fun c0 => "[" ++ c0 ++ "]") cs)) ++ tail)
    with ("["%char :: ((c ++ ["]"%char]) ++ concat (map bracketed cs)) ++ tail).
  cbn [findall_groups]. cbn.
  rewrite <- !app_assoc. change (["]"%char] ++ ?x) with ("]"%char :: x).
  simpl. rewrite (findall_category c _ Hb), app_nil_r, rev_involutive.
  destruct (rev c) eqn:E.
  - apply (f_equal (@rev ascii)) in E. rewrite rev_involutive in E.
    subst c. discriminate.
  - f_equal. apply IH. exact H2.
Qed.

Lemma lstrip_no_bracket (c : str) :
  no_bracket c = true -> Py.lstrip "[]" c = c.
Proof.
  destruct c as [|ch c]; [reflexivity|]. intros H. simpl in H.
  apply andb_true_iff in H as [H1 _]. apply andb_true_iff in H1 as [Ha Hb].
  apply negb_true_iff in Ha, Hb. simpl. unfold Py.char_in. simpl.
  now rewrite Ha, Hb.
Qed.

Lemma strip_no_bracket (c : str) :
  no_bracket c = true -> Py.strip "[]" c = c.
Proof.
  intros H. unfold Py.strip, Py.rstrip. rewrite (lstrip_no_bracket c H).
  rewrite lstrip_no_bracket; [apply rev_involutive|].
  unfold no_bracket. now rewrite forallb_rev.
Qed.

Lemma distinct_NoDup (l : list str) : distinct l = true -> NoDup l.
Proof.
  induction l as [|x l IH]; intros H; constructor;
    simpl in H; apply andb_true_iff in H as [H1 H2].
  - intros Hin. apply in_list_In in Hin. now rewrite Hin in H1.
  - now apply IH.
Qed.

Lemma part_categories_fold (cs : list str) :
  forallb no_bracket cs = true ->
  forall acc : part,
    NoDup (dict_keys acc ++ cs) ->
    fold_left (fun (p : part) word => dict_set Py.str_eqb (Py.strip "[]" word) [] p)
      cs acc
    = acc ++ empty_part cs.
Proof.
  induction cs as [|c cs IH]; intros H acc Hnd; cbn [fold_left].
  - symmetry. apply app_nil_r.
  - simpl in H. apply andb_true_iff in H as [H1 H2].
    rewrite (strip_no_bracket c H1).
    rewrite (dict_set_fresh Py.str_eqb str_eqb_eq).
    + rewrite (IH H2).
      * now rewrite <- app_assoc.
      * unfold dict_keys in *. rewrite map_app. simpl.
        rewrite <- app_assoc. exact Hnd.
    + apply NoDup_remove_2 in Hnd. intros Hin. apply Hnd.
      apply in_or_app. now left.
Qed.

Lemma categories_ok_inv (cs : list str) :
  categories_ok cs = true ->
  forallb (fun c => nonempty c && no_bracket c) cs = true /\
  forallb no_bracket cs = true /\ NoDup cs.
Proof.
  unfold categories_ok. intros H. apply andb_true_iff in H as [H1 H2].
  split; [assumption|]. split; [|now apply distinct_NoDup].
  rewrite forallb_forall in *. intros c Hc. specialize (H1 c Hc).
  now apply andb_true_iff in H1 as [_ H1].
Qed.

Lemma part_categories_text (cs : list str) :
  categories_ok cs = true -> part_categories (part_text cs) = empty_part cs.
Proof.
  intros H. apply categories_ok_inv in H as (H1 & H2 & H3).
  unfold part_categories.
  rewrite <- (app_nil_r (part_text cs)), (findall_part cs [] H1).
  cbn [findall_groups]. rewrite app_nil_r.
  exact (part_categories_fold cs H2 [] H3).
Qed.

(** X5: the structure compiler reads back what a template says: for a
    template written as parts joined by underscores, each part a row of
    bracketed categories (not empty, without bracket, distinct within
    the part; an underscore inside a category is no separator), the
    compiled parts are the given categories in order, every value empty. *)
Theorem template_compile_round_trip (parts : list (list str)) :
  parts <> [] ->
  forallb categories_ok parts = true ->
  template_parts (template_text parts) = map empty_part parts.
Proof.
  intros Hne H. unfold template_parts.
  rewrite split_structure_template.
  - rewrite map_map. apply map_ext_in. intros cs Hin.
    apply part_categories_text.
    rewrite forallb_forall in H. now apply H.
  - exact Hne.
  - rewrite forallb_forall in *. intros cs Hin.
    specialize (H cs Hin). now apply categories_ok_inv in H as (_ & H & _).
Qed.

Lemma template_compile_round_trip_witness :
  template_text
    [strs ["symmetry"]; strs ["type"];
     strs ["name"; "zoning"; "orientation"; "alphabetical_inc"];
     strs ["numerical_inc"]]
  = NAME_STRUCTURE default_config /\
  template_parts
    (template_text
       [strs ["symmetry"]; strs ["type"];
        strs ["name"; "zoning"; "orientation"; "alphabetical_inc"];
        strs ["numerical_inc"]])
  = map empty_part
      [strs ["symmetry"]; strs ["type"];
       strs ["name"; "zoning"; "orientation"; "alphabetical_inc"];
       strs ["numerical_inc"]].
Proof.
  split; [reflexivity|].
  apply (template_compile_round_trip
           [strs ["symmetry"]; strs ["type"];
            strs ["name"; "zoning"; "orientation"; "alphabetical_inc"];
            strs ["numerical_inc"]]).
  - discriminate.
  - reflexivity.
Defined.

Lemma first_split (x : str) (l : list str) :
  In x l -> exists before after, l = before ++ x :: after /\ ~ In x before.
Proof.
  induction l as [|a l IH]; simpl; [contradiction|].
  destruct (Py.str_eqb a x) eqn:E.
  - apply str_eqb_eq in E. subst a. intros _. exists [], l. auto.
  - apply str_eqb_neq in E. intros [H|H]; [exfalso; apply E; exact H|].
    destruct (IH H) as (before & after & -> & Hn).
    exists (a :: before), after. split; [reflexivity|].
    simpl. intros [H'|H']; auto.
Qed.

Lemma list_index_notin (x : str) (l : list str) :
  ~ In x l -> list_index x l = Raise ValueError.
Proof.
  induction l as [|a l IH]; intros H; simpl; [reflexivity|].
  rewrite (proj2 (str_eqb_neq a x)) by (intros ->; apply H; now left).
  rewrite IH by (intros H'; apply H; now right). reflexivity.
Qed.

Lemma get_before_after_split (m : str) (d : part_dict) (i : nat) (p : part)
  (before after : list str) :
  get_part d (KInt i) = Ok p ->
  dict_keys p = before ++ m :: after ->
  ~ In m before ->
  get_before_after_mandatory m i d = Ok (before, after).
Proof.
  intros H Hk Hn. unfold get_before_after_mandatory.
  rewrite H. cbn [bind]. cbv zeta. rewrite Hk.
  rewrite (list_index_app _ _ _ Hn). cbn [bind].
  assert (F : firstn (length before) (before ++ m :: after) = before).
  { now rewrite firstn_app, Nat.sub_diag, firstn_all, app_nil_r. }
  assert (S : skipn (length before + 1) (before ++ m :: after) = after).
  { rewrite skipn_app. rewrite skipn_all2 by lia.
    replace (length before + 1 - length before) with 1 by lia. reflexivity. }
  rewrite F, S.
  destruct (Nat.eqb (length before) 0) eqn:E0.
  - apply Nat.eqb_eq in E0. destruct before; [reflexivity|discriminate].
  - match goal with
    | |- context [Nat.eqb (length before) (length ?x - 1)] =>
        destruct (Nat.eqb (length before) (length x - 1)) eqn:E1
    end; [|reflexivity].
    apply Nat.eqb_eq in E1. rewrite length_app in E1. simpl in E1.
    destruct after; [reflexivity|simpl in E1; lia].
Qed.

(** X6: [get_before_after_mandatory] cuts the categories of a part at
    the first occurrence of the mandatory category: the categories
    before it, the category and the categories after it are the
    categories of the part, in order, whichever of its three branches
    runs; a part without the category raises [ValueError]. *)
Theorem before_after_partition (m : str) (i : nat) (d : part_dict) (p : part) :
  get_part d (KInt i) = Ok p ->
  if in_list m (dict_keys p)
  then exists before after,
         get_before_after_mandatory m i d = Ok (before, after) /\
         before ++ m :: after = dict_keys p /\
         ~ In m before
  else get_before_after_mandatory m i d = Raise ValueError.
Proof.
  intros H. destruct (in_list m (dict_keys p)) eqn:E.
  - apply in_list_In in E. destruct (first_split m _ E) as (b & a & Hk & Hn).
    exists b, a. split; [|split; [now symmetry|exact Hn]].
    now apply (get_before_after_split m d i p).
  - assert (Hn : ~ In m (dict_keys p)).
    { intros Hin. apply in_list_In in Hin. congruence. }
    unfold get_before_after_mandatory. rewrite H. cbn [bind]. cbv zeta.
    now rewrite (list_index_notin m _ Hn).
Qed.

Lemma before_after_partition_witness :
  exists before after,
    get_before_after_mandatory "name" 2
      (index_parts 0 (template_parts (NAME_STRUCTURE default_config)))
    = Ok (before, after) /\
    before ++ ("name" : str) :: after
    = strs ["name"; "zoning"; "orientation"; "alphabetical_inc"] /\
    ~ In ("name" : str) before.
Proof.
  exact (before_after_partition "name" 2
           (index_parts 0 (template_parts (NAME_STRUCTURE default_config)))
           (map (fun c => (c, []))
              (strs ["name"; "zoning"; "orientation"; "alphabetical_inc"]))
           eq_refl).
Defined.

(** ** What [rebuilt_name] writes *)

Lemma lstrip_head (chars s : str) :
  match Py.lstrip chars s with
  | [] => True
  | c :: _ => Py.char_in c chars = false
  end.
Proof.
  induction s as [|c s IH]; simpl; [exact I|].
  destruct (Py.char_in c chars) eqn:E; [exact IH|exact E].
Qed.

Lemma lstrip_suffix (chars s : str) : exists t, s = t ++ Py.lstrip chars s.
Proof.
  induction s as [|c s IH]; simpl; [now exists []|].
  destruct (Py.char_in c chars).
  - destruct IH as [t Ht]. exists (c :: t). simpl. now f_equal.
  - now exists [].
Qed.

Lemma rstrip_prefix (chars s : str) : exists t, s = Py.rstrip chars s ++ t.
Proof.
  unfold Py.rstrip. destruct (lstrip_suffix chars (rev s)) as [t Ht].
  exists (rev t). rewrite <- rev_app_distr, <- Ht. now rewrite rev_involutive.
Qed.

Lemma strip_trimmed (u : ascii) (s : str) :
  Py.startswith (Py.strip [u] s) [u] = false /\
  Py.endswith (Py.strip [u] s) [u] = false.
Proof.
  unfold Py.strip. split.
  - destruct (rstrip_prefix [u] (Py.lstrip [u] s)) as [t Ht].
    pose proof (lstrip_head [u] s) as Hh.
    destruct (Py.rstrip [u] (Py.lstrip [u] s)) as [|c y]; [reflexivity|].
    rewrite Ht in Hh. simpl in Hh |- *.
    apply orb_false_iff in Hh as [Hh _].
    rewrite Ascii.eqb_sym, Hh. reflexivity.
  - unfold Py.endswith, Py.rstrip. rewrite rev_involutive.
    pose proof (lstrip_head [u] (rev (Py.lstrip [u] s))) as Hh.
    destruct (Py.lstrip [u] (rev (Py.lstrip [u] s))) as [|c y]; [reflexivity|].
    simpl in Hh |- *. apply orb_false_iff in Hh as [Hh _].
    rewrite Ascii.eqb_sym, Hh. reflexivity.
Qed.

(** X7: a name [rebuilt_name] builds from the parts (no top-level
    ["bad_naming"]) neither starts nor ends with an underscore. *)
Theorem rebuilt_name_trimmed (d : part_dict) (s : str) :
  dict_get key_eqb (KStr "bad_naming") d = None ->
  rebuilt_name d = Ok s ->
  Py.startswith s "_" = false /\ Py.endswith s "_" = false.
Proof.
  intros Hb H. unfold rebuilt_name in H. rewrite Hb in H.
  destruct (rebuilt_loop d []) as [x|e]; [|discriminate].
  cbn [bind] in H. injection H as <-.
  exact (strip_trimmed "_" x).
Qed.

Lemma rebuilt_name_trimmed_witness :
  Py.startswith ("prp_jar" : str) "_" = false /\
  Py.endswith ("prp_jar" : str) "_" = false.
Proof.
  exact (rebuilt_name_trimmed prp_jar_part_dict "prp_jar" eq_refl eq_refl).
Defined.

Lemma concat_nil_forallb (vs : list str) :
  concat vs = [] -> forallb (fun v => Py.str_eqb v []) vs = true.
Proof.
  induction vs as [|v vs IH]; simpl; [reflexivity|].
  intros H. apply app_eq_nil in H as [-> H]. simpl. now apply IH.
Qed.

Lemma rebuilt_loop_filter (qs : list part) :
  forall (a : nat) (acc : str),
    rebuilt_loop (index_parts a qs) acc
    = Ok (acc ++ concat (map (fun x : str => x ++ ["_"%char])
                           (filter nonempty (map render qs)))).
Proof.
  induction qs as [|q qs IH]; intros a acc;
    cbn [index_parts rebuilt_loop map filter].
  - cbn. now rewrite app_nil_r.
  - fold (render q).
    destruct (forallb (fun v => Py.str_eqb v []) (dict_values q)) eqn:E.
    + assert (R : render q = []) by (apply all_empty_concat; exact E).
      rewrite IH, R. reflexivity.
    + rewrite IH.
      destruct (render q) as [|c x] eqn:C.
      * apply concat_nil_forallb in C. congruence.
      * cbn [nonempty map concat]. rewrite <- !app_assoc. reflexivity.
Qed.

Lemma concat_sep_join (sep : ascii) (l : list str) :
  l <> [] ->
  concat (map (fun x : str => x ++ [sep]) l) = join sep l ++ [sep].
Proof.
  induction l as [|x l IH]; intros H; [congruence|].
  destruct l as [|y l].
  - simpl. now rewrite app_nil_r.
  - change (concat (map (fun x0 : str => x0 ++ [sep]) (x :: y :: l)))
      with ((x ++ [sep]) ++ concat (map (fun x0 : str => x0 ++ [sep]) (y :: l))).
    rewrite IH by discriminate.
    change (join sep (x :: y :: l)) with (x ++ sep :: join sep (y :: l)).
    now rewrite <- !app_assoc.
Qed.

(** X8: what [rebuilt_name] writes for parts under the keys 0, 1, ...:
    the texts of the parts that hold some value, each the values of the
    part in order, joined by underscores and stripped of underscores at
    both ends; a part with every value empty leaves no trace, not even
    its separator. *)
Theorem rebuilt_name_joins_filled_parts (ps : list part) :
  rebuilt_name (index_parts 0 ps)
  = Ok (Py.strip "_" (join "_" (filter nonempty (map render ps)))).
Proof.
  unfold rebuilt_name. rewrite dict_get_index_parts_str.
  rewrite rebuilt_loop_filter. cbn [bind app]. f_equal.
  destruct (filter nonempty (map render ps)) as [|x l] eqn:E; [reflexivity|].
  rewrite concat_sep_join by discriminate.
  apply (strip_app_sep "_").
Qed.

(** ** [handle_bad_naming] *)

Lemma clear_loop (i : nat) (keys : list str) :
  forall (q : part) (d : part_dict),
    get_part d (KInt i) = Ok q ->
    for_each keys
      (fun d' key =>
         if negb (Py.str_eqb key "bad_naming")
         then set_item d' (KInt i) key []
         else Ok d')
      d
    = Ok (put d i (clear_keys keys q)).
Proof.
  unfold clear_keys.
  induction keys as [|k keys IH]; intros q d Hd; cbn [for_each fold_left].
  - now rewrite (put_same _ _ _ Hd).
  - destruct (negb (Py.str_eqb k "bad_naming")).
    + rewrite (set_item_put _ _ _ _ _ Hd). cbn [bind].
      rewrite (IH (dict_set Py.str_eqb k [] q)) by apply get_part_put_same.
      now rewrite put_put.
    + cbn [bind]. now apply IH.
Qed.

Lemma clear_keys_entries (suf : part) :
  forall pre : part,
    NoDup (dict_keys (pre ++ suf)) ->
    clear_keys (dict_keys suf) (pre ++ suf)
    = pre ++ map (fun e => (fst e, if Py.str_eqb (fst e) "bad_naming"
                                    then snd e else [])) suf.
Proof.
  unfold clear_keys.
  induction suf as [|[k v] suf IH]; intros pre Hnd; [reflexivity|].
  cbn [dict_keys map fold_left fst snd].
  assert (Hk : ~ In k (dict_keys pre)).
  { rewrite dict_keys_app in Hnd. simpl in Hnd.
    apply NoDup_remove_2 in Hnd. intros H. apply Hnd. apply in_or_app. now left. }
  assert (E : forall u, pre ++ (k, u) :: suf = (pre ++ [(k, u)]) ++ suf)
    by (intros u; now rewrite <- app_assoc).
  destruct (Py.str_eqb k "bad_naming"); cbn [negb].
  - rewrite E. fold (dict_keys suf). rewrite IH by (now rewrite <- E).
    now rewrite <- app_assoc.
  - rewrite (dict_set_app_notin Py.str_eqb str_eqb_eq) by exact Hk.
    rewrite E. fold (dict_keys suf).
    rewrite IH.
    + now rewrite <- app_assoc.
    + rewrite <- E. rewrite dict_keys_app in Hnd |- *. exact Hnd.
Qed.

Lemma dict_del_cleared (p : part) :
  NoDup (dict_keys p) ->
  dict_del Py.str_eqb "bad_naming"
    (map (fun e => (fst e, if Py.str_eqb (fst e) "bad_naming"
                           then snd e else [])) p)
  = cleared (dict_del Py.str_eqb "bad_naming" p).
Proof.
  induction p as [|[k v] p IH]; intros Hnd; [reflexivity|].
  cbn [map dict_del fst snd]. inversion Hnd as [|? ? Hk Hnd']; subst.
  rewrite (str_eqb_sym "bad_naming" k).
  destruct (Py.str_eqb k "bad_naming") eqn:E.
  - apply str_eqb_eq in E. subst k. unfold cleared. apply map_ext_in.
    intros [k' v'] Hin. cbn [fst snd].
    rewrite (proj2 (str_eqb_neq k' "bad_naming")); [reflexivity|].
    intros ->. apply Hk. now apply (in_map fst) in Hin.
  - unfold cleared. cbn [map fst]. f_equal. now apply IH.
Qed.

Lemma handle_bad_naming_part (d : part_dict) (i : nat) (p : part) :
  get_part d (KInt i) = Ok p ->
  NoDup (dict_keys p) ->
  handle_bad_naming d i =
  if dict_mem Py.str_eqb "bad_naming" p
  then Ok (put d i (cleared (dict_del Py.str_eqb "bad_naming" p)))
  else Raise KeyError.
Proof.
  intros Hd Hnd. unfold handle_bad_naming. rewrite Hd. cbn [bind].
  rewrite (clear_loop i (dict_keys p) p d Hd). cbn [bind].
  unfold del_item. rewrite get_part_put_same. cbn [bind].
  pose proof (clear_keys_entries p [] Hnd) as E. cbn [app] in E. rewrite E.
  match goal with
  | |- context [dict_mem Py.str_eqb ?k (map ?f p)] =>
      rewrite (dict_mem_keys p (map f p) k)
        by (unfold dict_keys; rewrite map_map; reflexivity)
  end.
  destruct (dict_mem Py.str_eqb "bad_naming" p); [|reflexivity].
  fold (put (put d i (map (fun e : str * str =>
                             (fst e, if Py.str_eqb (fst e) "bad_naming"
                                     then snd e else [])) p)) i
          (dict_del Py.str_eqb "bad_naming"
             (map (fun e : str * str =>
                     (fst e, if Py.str_eqb (fst e) "bad_naming"
                             then snd e else [])) p))).
  rewrite put_put. now rewrite (dict_del_cleared p Hnd).
Qed.

(** X9: [handle_bad_naming] erases the part: on a part that holds
    ["bad_naming"], every category of the part gets the empty string
    and the ["bad_naming"] entry itself is deleted, so nothing of the
    part is left for the rebuilt name; on a part without ["bad_naming"]
    the [del] raises [KeyError]. *)
Theorem handle_bad_naming_erases (d : part_dict) (i : nat) (p : part) :
  get_part d (KInt i) = Ok p ->
  NoDup (dict_keys p) ->
  handle_bad_naming d i =
  if dict_mem Py.str_eqb "bad_naming" p
  then Ok (put d i (cleared (dict_del Py.str_eqb "bad_naming" p)))
  else Raise KeyError.
Proof.
  intros Hd Hnd. now apply handle_bad_naming_part.
Qed.

Lemma handle_bad_naming_erases_witness :
  handle_bad_naming
    [(KInt 0, VDict [("symmetry" : str, []); ("bad_naming" : str, "foo" : str)])] 0
  = Ok [(KInt 0, VDict [("symmetry" : str, [])])].
Proof.
  apply (handle_bad_naming_erases
           [(KInt 0, VDict [("symmetry" : str, []);
                            ("bad_naming" : str, "foo" : str)])] 0
           [("symmetry" : str, []); ("bad_naming" : str, "foo" : str)]).
  - reflexivity.
  - repeat constructor; simpl; intuition discriminate.
Defined.

Lemma contains_char_in (c : ascii) (s : str) :
  Py.contains [c] s = Py.char_in c s.
Proof.
  unfold Py.char_in. induction s as [|d s IH]; [reflexivity|].
  cbn [Py.contains existsb]. rewrite IH. f_equal.
  cbn [Py.startswith]. rewrite startswith_nil. apply andb_true_r.
Qed.

Lemma char_in_app (c : ascii) (a b : str) :
  Py.char_in c (a ++ b) = Py.char_in c a || Py.char_in c b.
Proof. apply existsb_app. Qed.

Lemma partition_char_Some (sep : ascii) (x a b : str) :
  Py.partition_char sep x = Some (a, b) ->
  x = a ++ sep :: b /\ Py.char_in sep a = false.
Proof.
  revert a b. induction x as [|c x IH]; intros a b; simpl; [discriminate|].
  destruct (Ascii.eqb c sep) eqn:E.
  - apply Ascii.eqb_eq in E. subst c. intros H. injection H as <- <-. auto.
  - destruct (Py.partition_char sep x) as [[a' b']|]; [|discriminate].
    intros H. injection H as <- <-. destruct (IH a' b' eq_refl) as [-> Hc].
    split; [reflexivity|]. unfold Py.char_in in *. simpl.
    now rewrite Ascii.eqb_sym, E.
Qed.

Lemma partition_char_None (sep : ascii) (x : str) :
  Py.partition_char sep x = None -> Py.char_in sep x = false.
Proof.
  induction x as [|c x IH]; simpl; [reflexivity|].
  destruct (Ascii.eqb c sep) eqn:E; [discriminate|].
  destruct (Py.partition_char sep x) as [[a' b']|]; [discriminate|].
  intros _. unfold Py.char_in in *. simpl.
  rewrite Ascii.eqb_sym, E. now apply IH.
Qed.

Lemma char_in_rev (c : ascii) (s : str) : Py.char_in c (rev s) = Py.char_in c s.
Proof.
  unfold Py.char_in. induction s as [|d s IH]; [reflexivity|].
  simpl. rewrite existsb_app, IH. simpl. rewrite orb_false_r. apply orb_comm.
Qed.

(** A long name is its parent path followed by a last component
    without pipe. *)
Lemma rpartition_spec (s : str) :
  exists short,
    s = parent_path s ++ short /\
    Py.char_in "|" short = false /\
    (parent_path s = [] \/ exists b, parent_path s = b ++ ["|"%char]) /\
    Py.rpartition "|" s
    = (match parent_path s with [] => [] | _ :: _ => removelast (parent_path s) end,
       match parent_path s with [] => [] | _ :: _ => ["|"%char] end,
       short).
Proof.
  unfold parent_path, Py.rpartition.
  destruct (Py.partition_char "|" (rev s)) as [[a b]|] eqn:E.
  - apply partition_char_Some in E as [E Hc].
    apply (f_equal (@rev ascii)) in E. rewrite rev_involutive in E.
    rewrite rev_app_distr in E. simpl in E. rewrite <- app_assoc in E.
    exists (rev a). repeat split.
    + rewrite <- app_assoc. exact E.
    + now rewrite char_in_rev.
    + right. now exists (rev b).
    + destruct (rev b ++ ["|"%char]) as [|c x] eqn:F.
      * now apply app_eq_nil in F as [_ F].
      * rewrite <- F. now rewrite removelast_last.
  - apply partition_char_None in E. rewrite char_in_rev in E.
    exists s. repeat split; auto.
Qed.

Lemma partition_char_app (sep : ascii) (a r : str) :
  Py.char_in sep a = false ->
  Py.partition_char sep (a ++ sep :: r) = Some (a, r).
Proof.
  induction a as [|c a IH]; intros H; simpl.
  - now rewrite Ascii.eqb_refl.
  - unfold Py.char_in in H. simpl in H. apply orb_false_iff in H as [H1 H2].
    rewrite Ascii.eqb_sym, H1. now rewrite (IH H2).
Qed.

Lemma partition_char_none (sep : ascii) (a : str) :
  Py.char_in sep a = false -> Py.partition_char sep a = None.
Proof.
  induction a as [|c a IH]; intros H; simpl; [reflexivity|].
  unfold Py.char_in in H. simpl in H. apply orb_false_iff in H as [H1 H2].
  rewrite Ascii.eqb_sym, H1. now rewrite (IH H2).
Qed.

Lemma parent_path_app (parent short : str) :
  parent = [] \/ (exists b, parent = b ++ ["|"%char]) ->
  Py.char_in "|" short = false ->
  parent_path (parent ++ short) = parent.
Proof.
  intros Hp Hs. unfold parent_path, Py.rpartition.
  destruct Hp as [->|[b ->]].
  - simpl. rewrite partition_char_none by now rewrite char_in_rev. reflexivity.
  - rewrite <- app_assoc. simpl. rewrite rev_app_distr. simpl.
    rewrite <- app_assoc. simpl.
    rewrite partition_char_app by now rewrite char_in_rev.
    now rewrite !rev_involutive.
Qed.

Lemma split_app_sep_gen (sep : ascii) (a t : str) :
  Py.split sep (a ++ sep :: t) = Py.split sep a ++ Py.split sep t.
Proof.
  induction a as [|c a IH]; simpl.
  - now rewrite Ascii.eqb_refl.
  - destruct (Ascii.eqb c sep); [now rewrite IH|].
    rewrite IH. destruct (Py.split sep a) as [|h l] eqn:E; [|reflexivity].
    now destruct (split_nonempty sep a).
Qed.

Lemma split_no_sep (sep : ascii) (t : str) :
  Py.char_in sep t = false -> Py.split sep t = [t].
Proof.
  induction t as [|c t IH]; intros H; simpl; [reflexivity|].
  unfold Py.char_in in H. simpl in H. apply orb_false_iff in H as [H1 H2].
  rewrite Ascii.eqb_sym, H1. now rewrite (IH H2).
Qed.

Lemma last_split_app (parent short : str) :
  parent = [] \/ (exists b, parent = b ++ ["|"%char]) ->
  Py.char_in "|" short = false ->
  last (Py.split "|" (parent ++ short)) [] = short.
Proof.
  intros [->|[b ->]] Hs.
  - simpl. now rewrite split_no_sep.
  - rewrite <- app_assoc. simpl. rewrite split_app_sep_gen.
    rewrite (split_no_sep "|" short) by assumption.
    apply last_last.
Qed.

Lemma get_name_app (parent short : str) :
  parent ++ short <> [] ->
  parent = [] \/ (exists b, parent = b ++ ["|"%char]) ->
  Py.char_in "|" short = false ->
  get_name_from_item_data (parent ++ short) = Ok short.
Proof.
  intros Hne Hp Hs. unfold get_name_from_item_data.
  destruct (parent ++ short) as [|c x] eqn:E; [congruence|]. rewrite <- E.
  change (list_ascii_of_string "|") with ["|"%char].
  rewrite contains_char_in, char_in_app, Hs, orb_false_r.
  destruct (Py.char_in "|" parent) eqn:C.
  - now rewrite last_split_app.
  - destruct Hp as [->|[b ->]]; [reflexivity|].
    rewrite char_in_app in C. apply orb_false_iff in C as [_ C].
    discriminate.
Qed.

(** X10: [get_name_from_item_data] raises [ValueError] on the empty
    string and otherwise returns the last component of the long name:
    the long name is its parent path, which is empty or ends with a
    pipe, followed by the returned name, and the returned name holds no
    pipe. *)
Theorem short_name_is_last_component (long_name : str) :
  match long_name with
  | [] => get_name_from_item_data long_name = Raise ValueError
  | _ :: _ =>
      exists n,
        get_name_from_item_data long_name = Ok n /\
        long_name = parent_path long_name ++ n /\
        Py.contains "|" n = false /\
        (parent_path long_name = [] \/
         exists b, parent_path long_name = b ++ "|")
  end.
Proof.
  destruct long_name as [|c x] eqn:E; [reflexivity|]. rewrite <- E.
  destruct (rpartition_spec long_name) as (short & Hs & Hc & Hp & _).
  exists short. repeat split; try assumption.
  - rewrite Hs at 1. apply get_name_app; [|assumption|assumption].
    rewrite <- Hs, E. discriminate.
  - change (list_ascii_of_string "|") with ["|"%char].
    now rewrite contains_char_in.
Qed.

(** X11: the long name [set_new_long_name] returns keeps the parent
    path of the old long name and has the new short name for last
    component: [get_name_from_item_data] reads the new short name back
    from it. *)
Theorem new_long_name_round_trip (old_long_name short_name : str) :
  short_name <> [] ->
  Py.contains "|" short_name = false ->
  set_new_long_name old_long_name short_name
  = parent_path old_long_name ++ short_name /\
  parent_path (set_new_long_name old_long_name short_name)
  = parent_path old_long_name /\
  get_name_from_item_data (set_new_long_name old_long_name short_name)
  = Ok short_name.
Proof.
  intros Hne Hc.
  change (list_ascii_of_string "|") with ["|"%char] in Hc.
  rewrite contains_char_in in Hc.
  destruct (rpartition_spec old_long_name) as (short & Hs & _ & Hp & R).
  assert (E : set_new_long_name old_long_name short_name
              = parent_path old_long_name ++ short_name).
  { unfold set_new_long_name. rewrite R.
    destruct (parent_path old_long_name) as [|c x] eqn:P; [reflexivity|].
    destruct Hp as [Hp|[b Hp]]; [discriminate|].
    rewrite Hp, removelast_last, <- app_assoc. reflexivity. }
  rewrite E. split; [reflexivity|]. split.
  - now apply parent_path_app.
  - apply get_name_app; try assumption.
    intros H. apply app_eq_nil in H as [_ H]. congruence.
Qed.

Lemma new_long_name_round_trip_witness :
  set_new_long_name "|all|grp_body|prp_jar" "prp_vase"
  = parent_path "|all|grp_body|prp_jar" ++ ("prp_vase" : str) /\
  parent_path (set_new_long_name "|all|grp_body|prp_jar" "prp_vase")
  = parent_path "|all|grp_body|prp_jar" /\
  get_name_from_item_data (set_new_long_name "|all|grp_body|prp_jar" "prp_vase")
  = Ok ("prp_vase" : str).
Proof.
  apply (new_long_name_round_trip "|all|grp_body|prp_jar" "prp_vase").
  - discriminate.
  - reflexivity.
Defined.

(** ** C7: the numerical loop of [rename_non_unique_name] *)

Lemma with_short_name_parent (parent short new_short_name : str) :
  parent = [] \/ (exists b, parent = b ++ ["|"%char]) ->
  Py.char_in "|" short = false ->
  with_short_name (parent ++ short) new_short_name = parent ++ new_short_name.
Proof.
  intros Hp Hs. pose proof (parent_path_app parent short Hp Hs) as E.
  unfold parent_path in E. unfold with_short_name.
  destruct (Py.rpartition "|" (parent ++ short)) as [[before sep] after].
  now rewrite app_assoc, E.
Qed.

Lemma numbered_again (cfg : config) (d : part_dict) (i : nat) (p : part)
  (n m : Z) :
  set_item (numbered cfg d i p n) (KInt i) "numerical_inc" (n_inc_str cfg m)
  = Ok (numbered cfg d i p m).
Proof.
  unfold numbered.
  rewrite (set_item_put _ _ _ _ _ (get_part_put_same d i _)).
  rewrite put_put. now rewrite (dict_set_set Py.str_eqb str_eqb_eq).
Qed.

Lemma n_inc_loop_numbered (cfg : config) (objExists : str -> bool)
  (parent : str) (d : part_dict) (i : nat) (p : part) (n_inc : Z) (k : nat) :
  parent = [] \/ (exists b, parent = b ++ ["|"%char]) ->
  (forall j, j <= k ->
     exists s,
       rebuilt_name (numbered cfg d i p (n_inc + Z.of_nat j)) = Ok s /\
       Py.char_in "|" s = false /\
       objExists (parent ++ s) = Nat.ltb j k) ->
  forall (m fuel j : nat) (sj : str),
    j + m = k ->
    m < fuel ->
    rebuilt_name (numbered cfg d i p (n_inc + Z.of_nat j)) = Ok sj ->
    exists s,
      rebuilt_name (numbered cfg d i p (n_inc + Z.of_nat k)) = Ok s /\
      objExists (parent ++ s) = false /\
      n_inc_loop cfg objExists fuel (KInt i) (n_inc + Z.of_nat j) sj
        (parent ++ sj) (numbered cfg d i p (n_inc + Z.of_nat j))
      = Some (Ok (s, numbered cfg d i p (n_inc + Z.of_nat k))).
Proof.
  intros Hp Hc. induction m as [|m IH]; intros fuel j sj Hj Hf Hsj;
    (destruct fuel as [|fuel]; [lia|]).
  - assert (j = k) by lia. subst j.
    destruct (Hc k (Nat.le_refl k)) as (s & Es & _ & Ef).
    rewrite Nat.ltb_irrefl in Ef.
    assert (s = sj) by congruence. subst s.
    exists sj. split; [exact Hsj|]. split; [exact Ef|].
    cbn [n_inc_loop]. now rewrite Ef.
  - destruct (Hc j) as (s & Es & Hpipe & Eb); [lia|].
    assert (s = sj) by congruence. subst s.
    replace (Nat.ltb j k) with true in Eb
      by (symmetry; apply Nat.ltb_lt; lia).
    destruct (Hc (S j)) as (s1 & Es1 & Hpipe1 & _); [lia|].
    assert (Ez : (n_inc + Z.of_nat j + 1 = n_inc + Z.of_nat (S j))%Z) by lia.
    destruct (IH fuel (S j) s1) as (s & Esk & Ef & El);
      [lia|lia|exact Es1|].
    exists s. split; [exact Esk|]. split; [exact Ef|].
    cbn [n_inc_loop]. rewrite Eb.
    unfold set_inc. rewrite numbered_again. cbn [bind].
    rewrite Ez, Es1. cbn [bind].
    rewrite (with_short_name_parent parent sj s1 Hp Hpipe).
    exact El.
Qed.

(** C7, as the code has it (uniqueness resolution).  When the first
    increment slot of the part dictionary, in the order of its parts,
    is [numerical_inc] (no part up to that one holds
    [alphabetical_inc]), the loop writes the start number, zero-padded
    to the configured width, rebuilds the short name and tests the long
    name made of the parent path and of that short name; as long as the
    long name exists the number goes up by one.  The long name of the
    item is its parent path, empty or ending in a pipe, and a short
    name without pipe.  If the short names numbered [n_inc] to
    [n_inc + k] hold no pipe, the candidates of the numbers [n_inc] to
    [n_inc + k - 1] exist and that of [n_inc + k] does not, then, with
    fuel for more than [k] tests, the result is the rebuilt name
    numbered [n_inc + k], with the part dictionary that holds this
    number. *)
Theorem numerical_inc_first_free (cfg : config) (objExists : str -> bool)
  (parent short : str) (d : part_dict) (i : nat) (p : part) (a_inc : str)
  (n_inc : Z) (k fuel : nat) :
  find_inc_slot d = NumericalInc (KInt i) ->
  get_part d (KInt i) = Ok p ->
  parent = [] \/ (exists b, parent = b ++ ["|"%char]) ->
  Py.char_in "|" short = false ->
  (forall j, j <= k ->
     exists s,
       rebuilt_name (numbered cfg d i p (n_inc + Z.of_nat j)) = Ok s /\
       Py.char_in "|" s = false /\
       objExists (parent ++ s) = Nat.ltb j k) ->
  k < fuel ->
  exists s,
    rebuilt_name (numbered cfg d i p (n_inc + Z.of_nat k)) = Ok s /\
    objExists (parent ++ s) = false /\
    rename_non_unique_name cfg objExists fuel (parent ++ short) d a_inc n_inc
    = Some (Ok (s, numbered cfg d i p (n_inc + Z.of_nat k))).
Proof.
  intros Hslot Hd Hp Hshort Hc Hf.
  destruct (Hc 0) as (s0 & Es0 & Hpipe0 & _); [lia|].
  rewrite Z.add_0_r in Es0.
  destruct (n_inc_loop_numbered cfg objExists parent d i p n_inc k Hp Hc
              k fuel 0 s0) as (s & Es & Ef & El);
    [lia|exact Hf|now rewrite Z.add_0_r|].
  exists s. split; [exact Es|]. split; [exact Ef|].
  unfold rename_non_unique_name. rewrite Hslot.
  unfold set_inc. rewrite (set_item_put _ _ _ _ _ Hd). cbn [bind].
  fold (numbered cfg d i p n_inc). rewrite Es0. cbn [bind].
  rewrite (with_short_name_parent parent short s0 Hp Hshort).
  rewrite Z.add_0_r in El. exact El.
Qed.

Example obj_part_dict_inspected :
  inspect_name_structure default_config "obj_001" "[name]_[numerical_inc]"
  = Ok (obj_part_dict "001").
Proof. vm_compute. reflexivity. Qed.

Lemma numerical_inc_first_free_witness :
  rebuilt_name (obj_part_dict "011") = Ok ("obj_011" : str) /\
  scene_grp_obj_001_010 "|grp|obj_011" = false /\
  rename_non_unique_name default_config scene_grp_obj_001_010 11
    "|grp|obj_001" (obj_part_dict "001") "A" 1
  = Some (Ok ("obj_011" : str, obj_part_dict "011")).
Proof.
  destruct (numerical_inc_first_free default_config scene_grp_obj_001_010
              "|grp|" "obj_001" (obj_part_dict "001") 1
              [("numerical_inc" : str, "001" : str)] "A" 1 10 11)
    as (s & Es & Ef & El).
  - reflexivity.
  - reflexivity.
  - right. exists ("|grp" : str). reflexivity.
  - reflexivity.
  - intros j Hj.
    do 11 (destruct j as [|j];
           [eexists; split; [vm_compute; reflexivity|split; reflexivity]|]).
    lia.
  - lia.
  - assert (E : Ok s = Ok ("obj_011" : str) :> result str)
      by (rewrite <- Es; vm_compute; reflexivity).
    injection E as ->. split; [reflexivity|]. split; [exact Ef|exact El].
Defined.

(** C7, as stated, fails: under the default template the part
    dictionary of ["obj_001"] contains a [numerical_inc] category, of
    width 3, but the part before it holds [alphabetical_inc], which the
    slot search finds first; in the scene that holds ["obj_001"] to
    ["obj_010"] the letter ["A"] is written and the name returned is
    ["obj_001A"], not ["obj_011"]. *)
Lemma alphabetical_slot_found_first :
  inspect_name_structure default_config "obj_001" (NAME_STRUCTURE default_config)
  = Ok [(KInt 0, VDict [("symmetry" : str, [] : str)]);
        (KInt 1, VDict [("type" : str, "obj" : str)]);
        (KInt 2, VDict [("name" : str, "001" : str); ("zoning" : str, [] : str);
                        ("orientation" : str, [] : str);
                        ("alphabetical_inc" : str, [] : str)]);
        (KInt 3, VDict [("numerical_inc" : str, [] : str)])] /\
  INC_NUMBER_OF_DIGITS default_config = 3 /\
  rename_non_unique_name default_config scene_obj_001_010 11 "obj_001"
    [(KInt 0, VDict [("symmetry" : str, [] : str)]);
     (KInt 1, VDict [("type" : str, "obj" : str)]);
     (KInt 2, VDict [("name" : str, "001" : str); ("zoning" : str, [] : str);
                     ("orientation" : str, [] : str);
                     ("alphabetical_inc" : str, [] : str)]);
     (KInt 3, VDict [("numerical_inc" : str, [] : str)])] "A" 1
  = Some (Ok ("obj_001A" : str,
              [(KInt 0, VDict [("symmetry" : str, [] : str)]);
               (KInt 1, VDict [("type" : str, "obj" : str)]);
               (KInt 2, VDict [("name" : str, "001" : str);
                               ("zoning" : str, [] : str);
                               ("orientation" : str, [] : str);
                               ("alphabetical_inc" : str, "A" : str)]);
               (KInt 3, VDict [("numerical_inc" : str, [] : str)])])).
Proof.
  split; [vm_compute; reflexivity|]. split; [reflexivity|].
  vm_compute. reflexivity.
Qed.

(** ** The suffix loop of [rename_non_unique_name] *)

Lemma string_of_uint_digits (u : Decimal.uint) :
  forallb Py.is_digit (list_ascii_of_string (NilEmpty.string_of_uint u)) = true.
Proof. induction u; simpl; auto. Qed.

Lemma is_digit_not_pipe (s : str) :
  forallb Py.is_digit s = true -> Py.char_in "|" s = false.
Proof.
  unfold Py.char_in. induction s as [|c s IH]; [reflexivity|].
  cbn [forallb existsb]. intros H. apply andb_true_iff in H as [H1 H2].
  rewrite (IH H2), orb_false_r.
  destruct (Ascii.eqb "|" c) eqn:E; [|reflexivity].
  apply Ascii.eqb_eq in E. subst c. discriminate.
Qed.

Lemma str_of_Z_digits (k : Z) :
  (0 <= k)%Z ->
  str_of_Z k <> [] /\ Py.char_in "|" (str_of_Z k) = false.
Proof.
  intros Hk. unfold str_of_Z, Py.format_0d.
  replace (k <? 0)%Z with false by (symmetry; apply Z.ltb_ge; lia).
  cbn [list_ascii_of_string length Nat.sub Py.repeat_char repeat app].
  split.
  - intros H.
    destruct (Z.abs_N k) as [|p] eqn:E; [discriminate|].
    cbn [N.to_uint] in H.
    pose proof (Unsigned.to_uint_nonnil p) as Hn.
    destruct (Pos.to_uint p); try discriminate. now apply Hn.
  - apply is_digit_not_pipe, string_of_uint_digits.
Qed.

Lemma slice_but_last_snoc (x : str) (c : ascii) :
  Py.slice_but_last 1 (x ++ [c]) = x.
Proof. apply (slice_but_last_app x [c]). discriminate. Qed.

Lemma slice_but_last_one (p t : str) :
  t <> [] ->
  Py.slice_but_last 1 (p ++ t) = p ++ Py.slice_but_last 1 t.
Proof.
  intros Ht. destruct (exists_last Ht) as (t0 & c & ->).
  rewrite app_assoc. now rewrite !slice_but_last_snoc.
Qed.

Lemma slice_but_last_char_in (c : ascii) (t : str) :
  Py.char_in c t = false -> Py.char_in c (Py.slice_but_last 1 t) = false.
Proof.
  intros H. destruct t as [|d t] using rev_ind; [reflexivity|].
  rewrite slice_but_last_snoc.
  rewrite char_in_app in H. now apply orb_false_iff in H as [H _].
Qed.

Lemma suffix_loop_free (objExists : str -> bool) (parent : str) :
  forall (fuel : nat) (suffix : Z) (t l : str),
    (0 <= suffix)%Z ->
    t <> [] ->
    Py.char_in "|" t = false ->
    suffix_loop objExists fuel suffix (parent ++ t) = Some l ->
    exists t', l = parent ++ t' /\ Py.char_in "|" t' = false /\
               objExists l = false.
Proof.
  induction fuel as [|fuel IH]; intros suffix t l Hk Ht Hc H; [discriminate|].
  cbn [suffix_loop] in H.
  destruct (objExists (parent ++ t)) eqn:E.
  - rewrite (slice_but_last_one parent t Ht), <- app_assoc in H.
    destruct (str_of_Z_digits (suffix + 1)) as [Hn Hd]; [lia|].
    apply IH in H; try assumption; try lia.
    + intros F. apply app_eq_nil in F as [_ F]. congruence.
    + rewrite char_in_app, Hd, orb_false_r.
      now apply slice_but_last_char_in.
  - injection H as <-. now exists t.
Qed.

Lemma str_of_Z_two_digits (k : Z) :
  (10 <= k)%Z -> 2 <= length (str_of_Z k).
Proof.
  intros Hk. unfold str_of_Z, Py.format_0d.
  replace (k <? 0)%Z with false by (symmetry; apply Z.ltb_ge; lia).
  cbn [list_ascii_of_string length Nat.sub Py.repeat_char repeat app].
  pose proof (DecimalN.Unsigned.of_to (Z.abs_N k)) as E.
  assert (Hn : (10 <= Z.abs_N k)%N) by lia.
  destruct (N.to_uint (Z.abs_N k)) as [|u|u|u|u|u|u|u|u|u|u];
    try (destruct u; cbn in E;
         try (rewrite <- E in Hn; cbn in Hn; lia);
         cbn [NilEmpty.string_of_uint list_ascii_of_string length]; lia).
  cbn in E. rewrite <- E in Hn. lia.
Qed.

Lemma slice_but_last_length (l : str) :
  l <> [] -> length (Py.slice_but_last 1 l) = length l - 1.
Proof.
  intros H. destruct (exists_last H) as (x & c & ->).
  rewrite slice_but_last_snoc, length_app. simpl. lia.
Qed.

Lemma suffix_loop_returns (objExists : str -> bool) (bound : nat) :
  (forall x, objExists x = true -> length x <= bound) ->
  forall (fuel : nat) (suffix : Z) (l : str),
    (0 <= suffix)%Z ->
    l <> [] ->
    Z.to_nat (10 - suffix) + (bound + 1 - length l) < fuel ->
    exists l', suffix_loop objExists fuel suffix l = Some l'.
Proof.
  intros Hb. induction fuel as [|fuel IH]; intros suffix l Hs Hl Hf; [lia|].
  cbn [suffix_loop]. destruct (objExists l) eqn:E; [|now exists l].
  apply Hb in E.
  destruct (str_of_Z_digits (suffix + 1)) as [Hn _]; [lia|].
  assert (H1 : 1 <= length (str_of_Z (suffix + 1))).
  { destruct (str_of_Z (suffix + 1)); [congruence|simpl; lia]. }
  apply IH.
  - lia.
  - intros F. apply app_eq_nil in F as [_ F]. congruence.
  - rewrite length_app, (slice_but_last_length l Hl).
    assert (Hl1 : 1 <= length l) by (destruct l; [congruence|simpl; lia]).
    destruct (Z_lt_le_dec (suffix + 1) 10) as [Hlt|Hge].
    + lia.
    + pose proof (str_of_Z_two_digits (suffix + 1) Hge). lia.
Qed.

(** X12: in a scene whose long names are at most [bound] characters
    long, and with fuel for more than [bound + 10] tests, the branch of
    [rename_non_unique_name] for a part dictionary without increment
    slot returns: it leaves the dictionary as it is, and the short name
    it returns holds no pipe and, put after the parent path of the
    item's long name, names no object of the scene.  (From the suffix
    10 on every round makes the candidate longer, so the loop leaves
    the scene.) *)
Theorem suffixed_name_is_free (cfg : config) (objExists : str -> bool)
  (fuel : nat) (long_name : str) (d : part_dict) (a_inc : str) (n_inc : Z)
  (bound : nat) :
  find_inc_slot d = NoInc ->
  long_name <> [] ->
  (forall x, objExists x = true -> length x <= bound) ->
  bound + 10 < fuel ->
  exists n,
    rename_non_unique_name cfg objExists fuel long_name d a_inc n_inc
    = Some (Ok (n, d)) /\
    objExists (parent_path long_name ++ n) = false /\
    Py.contains "|" n = false.
Proof.
  intros Hslot Hne Hb Hf. unfold rename_non_unique_name. rewrite Hslot.
  destruct (rev long_name) as [|c x] eqn:R.
  { apply (f_equal (@rev ascii)) in R. rewrite rev_involutive in R.
    contradiction. }
  assert (L : long_name = rev x ++ [c]).
  { apply (f_equal (@rev ascii)) in R. rewrite rev_involutive in R.
    exact R. }
  destruct (rpartition_spec long_name) as (short & Hs & Hc & Hp & _).
  set (parent := parent_path long_name) in *.
  assert (Hinit :
    exists (suffix : Z) (t : str),
      (1 <= suffix)%Z /\ t <> [] /\ Py.char_in "|" t = false /\
      (if Py.isdigit [c]
       then ((Z.of_nat (nat_of_ascii c - 48) + 1)%Z,
             Py.slice_but_last 1 long_name
               ++ str_of_Z (Z.of_nat (nat_of_ascii c - 48) + 1))
       else (1%Z, long_name ++ "1"))
      = (suffix, parent ++ t)).
  { destruct (Py.isdigit [c]) eqn:D.
    - assert (Hshort : short <> []).
      { intros ->. rewrite app_nil_r in Hs.
        destruct Hp as [Hp|[b Hp]].
        - rewrite Hs, Hp in L. now destruct (rev x).
        - rewrite Hs, Hp in L. apply app_inj_tail in L as [_ <-].
          discriminate. }
      destruct (str_of_Z_digits (Z.of_nat (nat_of_ascii c - 48) + 1))
        as [Hn Hd]; [lia|].
      eexists _, (Py.slice_but_last 1 short ++ _).
      split; [|split; [|split]].
      + instantiate (1 := (Z.of_nat (nat_of_ascii c - 48) + 1)%Z). lia.
      + intros F. apply app_eq_nil in F as [_ F]. exact (Hn F).
      + rewrite char_in_app, Hd, orb_false_r.
        now apply slice_but_last_char_in.
      + rewrite Hs at 1. rewrite (slice_but_last_one parent short Hshort).
        now rewrite <- app_assoc.
    - exists 1%Z, (short ++ "1"). split; [lia|]. split; [|split].
      + intros F. now apply app_eq_nil in F as [_ F].
      + rewrite char_in_app, Hc. reflexivity.
      + rewrite Hs at 1. now rewrite <- app_assoc. }
  destruct Hinit as (suffix & t & Hk & Ht & Htc & Ei).
  rewrite Ei.
  destruct (suffix_loop_returns objExists bound Hb fuel suffix (parent ++ t))
    as (l & S); [lia| |lia|].
  { intros F. apply app_eq_nil in F as [_ F]. congruence. }
  rewrite S.
  destruct (suffix_loop_free objExists parent fuel suffix t l) as
    (t' & -> & Hc' & Hfree); [lia|exact Ht|exact Htc|exact S|].
  rewrite (last_split_app parent t' Hp Hc').
  exists t'. split; [reflexivity|]. split; [exact Hfree|].
  change (list_ascii_of_string "|") with ["|"%char].
  now rewrite contains_char_in.
Qed.

Lemma suffixed_name_is_free_witness :
  rename_non_unique_name default_config scene_grp_jar_1_2 20 "|grp|jar"
    [(KInt 0, VDict [("name" : str, "jar" : str)])] "A" 1
  = Some (Ok ("jar3" : str, [(KInt 0, VDict [("name" : str, "jar" : str)])])) /\
  scene_grp_jar_1_2 (parent_path "|grp|jar" ++ "jar3") = false /\
  Py.contains "|" "jar3" = false.
Proof.
  destruct (suffixed_name_is_free default_config scene_grp_jar_1_2 20
              "|grp|jar" [(KInt 0, VDict [("name" : str, "jar" : str)])]
              "A" 1 9) as (n & E & Hfree & Hpipe).
  - reflexivity.
  - discriminate.
  - intros x H. apply in_list_In in H.
    destruct H as [<-|[<-|[]]]; simpl; lia.
  - lia.
  - assert (X : Some (Ok (n, [(KInt 0, VDict [("name" : str, "jar" : str)])]))
                = Some (Ok ("jar3" : str,
                            [(KInt 0, VDict [("name" : str, "jar" : str)])])))
      by (rewrite <- E; vm_compute; reflexivity).
    injection X as ->.
    split; [exact E|]. split; [exact Hfree|exact Hpipe].
Defined.

Lemma suffix_step (objExists : str -> bool) (f : nat) (k : Z) (l : str) :
  objExists l = true ->
  suffix_loop objExists (S f) k l
  = suffix_loop objExists f (k + 1)
      (Py.slice_but_last 1 l ++ str_of_Z (k + 1)).
Proof. intros H. cbn [suffix_loop]. now rewrite H. Qed.

Ltac suffix_next H :=
  rewrite suffix_step by exact H;
  rewrite slice_but_last_one by discriminate;
  cbv [Py.slice_but_last length Nat.sub firstn];
  rewrite <- app_assoc;
  match goal with
  | |- context [str_of_Z ?k] =>
      let v := eval vm_compute in (str_of_Z k) in
      change (str_of_Z k) with v
  end;
  cbn [app].

(** X13: the suffix loop of [rename_non_unique_name] replaces one
    character per round, so it goes wrong once the counter has two
    digits: for a name that does not end in a digit and whose suffixed
    forms 1 to 10 all exist, the next candidate is the name followed by
    111, not by 11, and that is the name returned when it is free. *)
Theorem eleventh_suffix_is_111 (cfg : config) (objExists : str -> bool)
  (fuel : nat) (base : str) (c : ascii) (d : part_dict) (a_inc : str)
  (n_inc : Z) :
  find_inc_slot d = NoInc ->
  Py.is_digit c = false ->
  ten_suffixes_exist objExists (base ++ [c]) = true ->
  objExists ((base ++ [c]) ++ "111") = false ->
  10 < fuel ->
  rename_non_unique_name cfg objExists fuel (base ++ [c]) d a_inc n_inc
  = Some (Ok (last (Py.split "|" ((base ++ [c]) ++ "111")) [], d)).
Proof.
  intros Hslot Hc Hten Hfree Hfuel.
  unfold rename_non_unique_name. rewrite Hslot.
  rewrite rev_app_distr. cbn [rev app].
  replace (Py.isdigit [c]) with false
    by (cbn [Py.isdigit forallb]; now rewrite Hc).
  set (L := base ++ [c]) in *.
  unfold ten_suffixes_exist in Hten.
  cbn [strs map list_ascii_of_string forallb] in Hten.
  repeat (apply andb_true_iff in Hten as [?H Hten]).
  cbn [list_ascii_of_string] in Hfree |- *.
  do 11 (destruct fuel as [|fuel]; [lia|]).
  suffix_next H. suffix_next H0. suffix_next H1. suffix_next H2.
  suffix_next H3. suffix_next H4. suffix_next H5. suffix_next H6.
  suffix_next H7. suffix_next H8.
  cbn [suffix_loop]. rewrite Hfree. reflexivity.
Qed.

Lemma eleventh_suffix_is_111_witness :
  rename_non_unique_name default_config
    (fun s => in_list s (strs ["jar1"; "jar2"; "jar3"; "jar4"; "jar5"; "jar6";
                               "jar7"; "jar8"; "jar9"; "jar10"]))
    11 ("ja" ++ ["r"%char]) [(KInt 0, VDict [("name" : str, "jar" : str)])] "A" 1
  = Some (Ok (last (Py.split "|" (("ja" ++ ["r"%char]) ++ "111")) [],
              [(KInt 0, VDict [("name" : str, "jar" : str)])])).
Proof.
  apply (eleventh_suffix_is_111 default_config
           (fun s => in_list s (strs ["jar1"; "jar2"; "jar3"; "jar4"; "jar5";
                                      "jar6"; "jar7"; "jar8"; "jar9"; "jar10"]))
           11 "ja" "r" [(KInt 0, VDict [("name" : str, "jar" : str)])] "A" 1).
  - reflexivity.
  - reflexivity.
  - reflexivity.
  - reflexivity.
  - lia.
Defined.

Lemma name_split (p : part) :
  In ("name" : str) (dict_keys p) ->
  exists pb v pa,
    p = pb ++ ("name" : str, v) :: pa /\ ~ In ("name" : str) (dict_keys pb).
Proof.
  induction p as [|[k v] p IH]; simpl; [contradiction|].
  destruct (Py.str_eqb k "name") eqn:E.
  - apply str_eqb_eq in E. subst k. intros _. exists [], v, p. auto.
  - apply str_eqb_neq in E. intros [H|H]; [exfalso; apply E; exact H|].
    destruct (IH H) as (pb & v' & pa & -> & Hn).
    exists ((k, v) :: pb), v', pa. split; [reflexivity|].
    simpl. intros [H'|H']; auto.
Qed.

Lemma before_name_app (pb pa : part) (v : str) :
  ~ In ("name" : str) (dict_keys pb) ->
  before_name (pb ++ ("name" : str, v) :: pa) = pb.
Proof.
  induction pb as [|[k u] pb IH]; intros H.
  - reflexivity.
  - cbn [app before_name].
    rewrite (proj2 (str_eqb_neq k "name")) by (intros ->; apply H; now left).
    rewrite IH by (intros H'; apply H; now right). reflexivity.
Qed.

Lemma end_entries_app (cfg : config) (prefix_name : str) :
  forall (a b : part) (s : str),
    ~ In ("name" : str) (dict_keys a) ->
    end_entries cfg (a ++ b) s prefix_name =
    ('(a', r) <- end_entries cfg a s prefix_name ;;
     '(b', r') <- end_entries cfg b r prefix_name ;;
     Ok (a' ++ b', r')).
Proof.
  induction a as [|[k u] a IH]; intros b s Hn; simpl.
  - destruct (end_entries cfg b s prefix_name) as [[b' r']|e]; reflexivity.
  - case_str_eqb.
    + exfalso. apply Hn. left.
      match goal with H : Py.str_eqb k _ = true |- _ => apply str_eqb_eq in H end.
      assumption.
    + destruct (peel_value cfg k s false) as [[ov r1]|e]; simpl; [|reflexivity].
      rewrite IH by (intros H; apply Hn; now right).
      destruct (end_entries cfg a r1 prefix_name) as [[a' r']|e]; simpl;
        [|reflexivity].
      destruct (end_entries cfg b r' prefix_name) as [[b' r'']|e]; reflexivity.
Qed.

Lemma end_entries_no_name (cfg : config) (prefix_name : str) :
  forall (a : part) (s : str),
    ~ In ("name" : str) (dict_keys a) ->
    end_entries cfg a s prefix_name = end_entries cfg a s [].
Proof.
  induction a as [|[k u] a IH]; intros s Hn; simpl; [reflexivity|].
  case_str_eqb.
  - exfalso. apply Hn. left.
    match goal with H : Py.str_eqb k _ = true |- _ => apply str_eqb_eq in H end.
    assumption.
  - destruct (peel_value cfg k s false) as [[ov r1]|e]; simpl; [|reflexivity].
    now rewrite IH by (intros H; apply Hn; now right).
Qed.

Lemma prefix_of_both (P a r b : str) :
  P ++ a = r ++ b -> length P <= length r ->
  P ++ remove_prefix r P = r.
Proof.
  intros E Hl. unfold remove_prefix.
  assert (Hr : r = P ++ skipn (length P) r).
  { assert (H1 : firstn (length P) (P ++ a) = P)
      by now rewrite firstn_app, Nat.sub_diag, firstn_all, app_nil_r.
    rewrite E in H1. rewrite firstn_app in H1.
    replace (length P - length r) with 0 in H1 by lia.
    simpl in H1. rewrite app_nil_r in H1.
    rewrite <- H1 at 1. now rewrite firstn_skipn. }
  destruct P as [|c P]; [reflexivity|].
  rewrite Hr at 1. rewrite startswith_app. unfold Py.slice_from. now symmetry.
Qed.

Lemma extend_prefix_ok (d : part_dict) (i : nat) :
  forall (bs pre rest : part) (acc : str),
    get_part d (KInt i) = Ok (pre ++ bs ++ rest) ->
    NoDup (dict_keys (pre ++ bs ++ rest)) ->
    extend_prefix d i (dict_keys bs) acc = Ok (acc ++ render bs).
Proof.
  unfold extend_prefix.
  induction bs as [|[k v] bs IH]; intros pre rest acc Hd Hnd; simpl.
  - now rewrite app_nil_r.
  - unfold get_item at 1. rewrite Hd. simpl.
    rewrite (dict_get_app_notin Py.str_eqb str_eqb_eq)
      by (eapply NoDup_keys_mid; exact Hnd).
    simpl. rewrite str_eqb_refl. simpl.
    rewrite (IH (pre ++ [(k, v)]) rest).
    + rewrite render_cons. now rewrite app_assoc.
    + rewrite <- app_assoc. exact Hd.
    + rewrite <- app_assoc. exact Hnd.
Qed.

Lemma name_part_body_middle (cfg : config) (name : str) (i j : nat)
  (d : part_dict) (pb pa : part) (s : str) :
  vocabulary_ok cfg = true ->
  get_part d (KInt i) = Ok (pb ++ ("name" : str, [] : str) :: pa) ->
  fresh_part (pb ++ ("name" : str, [] : str) :: pa) ->
  pb <> [] ->
  pa <> [] ->
  peeled_apart cfg (pb ++ ("name" : str, [] : str) :: pa) s = true ->
  name_segment name j = Ok s ->
  exists bs r1 pa' r,
    start_entries cfg pb s = Ok (bs, r1) /\
    dict_keys bs = dict_keys pb /\
    end_entries cfg (rev pa) s [] = Ok (rev pa', r) /\
    dict_keys pa' = dict_keys pa /\
    render bs ++ remove_prefix r (render bs) = r /\
    r ++ render pa' = s /\
    name_part_body cfg name i j d []
    = Ok (put d i (bs ++ ("name" : str, remove_prefix r (render bs)) :: pa'),
          render bs).
Proof.
  intros Hv Hd Hf Hpb Hpa Hap Hs.
  set (p := pb ++ ("name" : str, [] : str) :: pa) in *.
  destruct Hf as [Hnd Hemp].
  assert (Hepb : Forall (fun e : str * str => snd e = []) pb).
  { unfold p in Hemp. now apply Forall_app in Hemp as [H _]. }
  assert (Hepa : Forall (fun e : str * str => snd e = []) pa).
  { unfold p in Hemp. apply Forall_app in Hemp as [_ H]. now inversion H. }
  assert (Hk : dict_keys p = dict_keys pb ++ ("name" : str) :: dict_keys pa).
  { unfold p. rewrite dict_keys_app. reflexivity. }
  assert (Hnb : ~ In ("name" : str) (dict_keys pb)).
  { rewrite Hk in Hnd. intros H.
    apply NoDup_remove_2 in Hnd. apply Hnd. apply in_or_app. now left. }
  assert (Hna : ~ In ("name" : str) (dict_keys pa)).
  { rewrite Hk in Hnd. apply NoDup_remove_2 in Hnd. intros H. apply Hnd.
    apply in_or_app. now right. }
  assert (Hin : In ("name" : str) (dict_keys p)).
  { rewrite Hk. apply in_or_app. right. now left. }
  (* the two peelings *)
  destruct (start_entries_render cfg Hv pb s Hepb) as (bs & r1 & Eb & Hkb & Hrs & _).
  assert (Es : start_entries cfg p s
               = Ok (bs ++ ("name" : str, r1) :: pa, [])).
  { unfold p. rewrite start_entries_app by assumption. rewrite Eb.
    reflexivity. }
  assert (Hna' : ~ In ("name" : str) (dict_keys (rev pa))).
  { rewrite dict_keys_rev. intros H. apply Hna. now apply in_rev. }
  assert (Hrpa : Forall (fun e : str * str => snd e = []) (rev pa))
    by now apply Forall_rev.
  destruct (end_entries_render cfg Hv (rev pa) s Hrpa)
    as (rp' & r & Ea & Hkr & _ & Hout).
  specialize (Hout Hna').
  set (pa' := rev rp').
  assert (Erp : rp' = rev pa') by (unfold pa'; now rewrite rev_involutive).
  assert (Hka : dict_keys pa' = dict_keys pa).
  { unfold pa'. rewrite dict_keys_rev, Hkr, dict_keys_rev.
    apply rev_involutive. }
  set (ps := bs ++ ("name" : str, r1) :: pa) in *.
  assert (Ee : end_entries cfg (rev ps) s (render bs)
               = Ok (rev (bs ++ ("name" : str, remove_prefix r (render bs))
                            :: pa'), r)).
  { unfold ps, pa'. rewrite rev_app_distr. simpl. rewrite <- app_assoc. simpl.
    rewrite end_entries_app by assumption.
    rewrite (end_entries_no_name cfg (render bs) (rev pa) s Hna'), Ea. simpl.
    rewrite rev_app_distr. simpl. rewrite rev_involutive, <- app_assoc.
    reflexivity. }
  exists bs, r1, pa', r.
  assert (Hkps : dict_keys ps = dict_keys p).
  { unfold ps. rewrite Hk, !dict_keys_app. simpl. now rewrite Hkb. }
  assert (Hnb' : ~ In ("name" : str) (dict_keys bs)) by now rewrite Hkb.
  set (pe := bs ++ ("name" : str, remove_prefix r (render bs)) :: pa') in *.
  assert (Hkpe : dict_keys pe = dict_keys p).
  { unfold pe. rewrite Hk, !dict_keys_app. simpl. now rewrite Hkb, Hka. }
  assert (Hl : length (render bs) <= length r).
  { unfold peeled_apart in Hap. rewrite Es in Hap. cbv zeta in Hap.
    unfold ps in Hap. rewrite (before_name_app bs pa r1 Hnb') in Hap.
    fold ps in Hap. rewrite Ee in Hap. now apply Nat.leb_le in Hap. }
  assert (Hre : r ++ render pa' = s) by (unfold pa'; exact Hout).
  assert (Hpre : render bs ++ remove_prefix r (render bs) = r).
  { apply (prefix_of_both (render bs) r1 r (render pa')); [congruence|exact Hl]. }
  split; [exact Eb|]. split; [exact Hkb|].
  split; [now rewrite <- Erp|]. split; [exact Hka|].
  split; [exact Hpre|]. split; [exact Hre|].
  (* the code *)
  unfold name_part_body, get_before_after_name.
  rewrite (get_before_after_split _ _ _ _ _ _ Hd Hk Hnb). cbn [bind].
  destruct (dict_keys pb) as [|b before] eqn:Ekb;
    [destruct pb; [congruence|discriminate]|].
  destruct (dict_keys pa) as [|a after] eqn:Eka;
    [destruct pa; [congruence|discriminate]|].
  assert (S0 : separate_part cfg p s true [] = Ok ps).
  { unfold separate_part.
    pose proof (start_keys_entries cfg p [] s Hnd) as H. simpl in H.
    rewrite H, Es. reflexivity. }
  assert (S1 : separate_part cfg ps s true [] = Ok ps).
  { unfold separate_part.
    assert (Hnd' : NoDup (dict_keys ps)) by now rewrite Hkps.
    pose proof (start_keys_entries cfg ps [] s Hnd') as H. simpl in H.
    rewrite H, (start_entries_again cfg _ _ _ _ Es). reflexivity. }
  assert (Hne : b :: before <> []) by discriminate.
  rewrite (separate_category_each_fix cfg name i j s true [] p ps
             (b :: before) Hs S0 S1 Hne d Hd).
  cbn [bind].
  assert (Hd1 : get_part (put d i ps) (KInt i) = Ok ps)
    by apply get_part_put_same.
  assert (Hx : extend_prefix (put d i ps) i (b :: before) []
               = Ok (render bs)).
  { rewrite <- Hkb.
    apply (extend_prefix_ok (put d i ps) i bs [] (("name" : str, r1) :: pa) []).
    - exact Hd1.
    - change (NoDup (dict_keys ps)). now rewrite Hkps. }
  rewrite Hx. cbn [bind].
  assert (E0 : separate_part cfg ps s false (render bs) = Ok pe).
  { unfold separate_part.
    pose proof (end_keys_entries cfg (render bs) (rev ps) [] s) as H.
    rewrite rev_involutive, app_nil_r, dict_keys_rev in H.
    rewrite H by now rewrite Hkps. rewrite Ee. simpl.
    rewrite rev_involutive, app_nil_r.
    rewrite (dict_mem_true pe) by (rewrite Hkpe; exact Hin).
    simpl. now destruct r. }
  assert (E1 : separate_part cfg pe s false (render bs) = Ok pe).
  { unfold separate_part.
    pose proof (end_keys_entries cfg (render bs) (rev pe) [] s) as H.
    rewrite rev_involutive, app_nil_r, dict_keys_rev in H.
    rewrite H by now rewrite Hkpe.
    rewrite (end_entries_again cfg _ _ _ _ _ Ee). simpl.
    rewrite rev_involutive, app_nil_r.
    rewrite (dict_mem_true pe) by (rewrite Hkpe; exact Hin).
    simpl. now destruct r. }
  assert (Hne' : rev (a :: after) <> []).
  { intros H. apply (f_equal (@length str)) in H.
    rewrite length_rev in H. discriminate. }
  rewrite (separate_category_each_fix cfg name i j s false (render bs) ps pe
             (rev (a :: after)) Hs E0 E1 Hne' (put d i ps) Hd1).
  cbn [bind]. now rewrite put_put.
Qed.

Lemma name_part_body_apart (cfg : config) (name : str) (i j : nat)
  (d : part_dict) (p : part) (s : str) :
  vocabulary_ok cfg = true ->
  get_part d (KInt i) = Ok p ->
  fresh_part p ->
  In ("name" : str) (dict_keys p) ->
  peeled_apart cfg p s = true ->
  name_segment name j = Ok s ->
  exists p1 prefix_name,
    name_part_body cfg name i j d [] = Ok (put d i p1, prefix_name) /\
    render p1 = s /\
    dict_keys p1 = dict_keys p.
Proof.
  intros Hv Hd Hf Hin Hpa Hs.
  destruct (name_split p Hin) as (pb & v & pa & Ep & Hnb).
  destruct Hf as [Hnd Hemp].
  assert (Hv0 : v = []).
  { rewrite Ep in Hemp. apply Forall_app in Hemp as [_ H].
    inversion H as [|? ? H0 _]. exact H0. }
  subst v.
  assert (Hepb : Forall (fun e : str * str => snd e = []) pb).
  { rewrite Ep in Hemp. now apply Forall_app in Hemp as [H _]. }
  assert (Hepa : Forall (fun e : str * str => snd e = []) pa).
  { rewrite Ep in Hemp. apply Forall_app in Hemp as [_ H].
    now inversion H. }
  assert (Hna : ~ In ("name" : str) (dict_keys pa)).
  { rewrite Ep, dict_keys_app in Hnd. simpl in Hnd.
    apply NoDup_remove_2 in Hnd. intros H. apply Hnd.
    apply in_or_app. now right. }
  assert (Hk : dict_keys p = dict_keys pb ++ ("name" : str) :: dict_keys pa).
  { rewrite Ep, dict_keys_app. reflexivity. }
  assert (Hf : fresh_part p) by (split; assumption).
  assert (Cb : dict_keys pb = [] \/ exists b before, dict_keys pb = b :: before)
    by (destruct (dict_keys pb); eauto).
  assert (Ca : dict_keys pa = [] \/ exists a after, dict_keys pa = a :: after)
    by (destruct (dict_keys pa); eauto).
  destruct Cb as [Eb|(b & before & Eb)]; destruct Ca as [Ea|(a & after & Ea)].
  - (* name alone *)
    unfold name_part_body, get_before_after_name.
    rewrite (get_before_after_split _ _ _ _ _ _ Hd Hk Hnb). cbn [bind].
    rewrite Eb, Ea.
    simpl. rewrite Hs. simpl. rewrite (set_item_put _ _ _ _ _ Hd). simpl.
    eexists _, _. split; [reflexivity|]. split.
    + destruct pb; [|discriminate]. destruct pa; [|discriminate].
      subst p. simpl. unfold render. simpl. apply app_nil_r.
    + apply (dict_keys_set_in Py.str_eqb str_eqb_eq). exact Hin.
  - (* name first *)
    unfold name_part_body, get_before_after_name.
    rewrite (get_before_after_split _ _ _ _ _ _ Hd Hk Hnb). cbn [bind].
    rewrite Eb, Ea.
    destruct (separate_part_name_end cfg p s Hv Hf Hin)
      as (p1 & E0 & E1 & Hr & Hkeys).
    assert (Hne : rev (a :: after) <> []).
    { intros H. apply (f_equal (@length str)) in H.
      rewrite length_rev in H. discriminate. }
    assert (Z1 : separate_category_each cfg [] name i j d true [] = Ok d)
      by reflexivity.
    rewrite Z1. cbn [bind].
    assert (Z2 : extend_prefix d i [] [] = Ok []) by reflexivity.
    rewrite Z2. cbn [bind].
    rewrite (separate_category_each_fix cfg name i j s false [] p p1
               (rev (a :: after)) Hs E0 E1 Hne d Hd).
    simpl. eexists _, _. split; [reflexivity|]. split; assumption.
  - (* name last *)
    unfold name_part_body, get_before_after_name.
    rewrite (get_before_after_split _ _ _ _ _ _ Hd Hk Hnb). cbn [bind].
    rewrite Eb, Ea.
    destruct (separate_part_name_start cfg p s Hv Hf Hin)
      as (p1 & E0 & E1 & Hr & Hkeys).
    assert (Hne : b :: before <> []) by discriminate.
    rewrite (separate_category_each_fix cfg name i j s true [] p p1
               (b :: before) Hs E0 E1 Hne d Hd).
    simpl. eexists _, _. split; [reflexivity|]. split; assumption.
  - (* name in the middle *)
    assert (Hpb : pb <> []) by (intros ->; discriminate).
    assert (Hpa0 : pa <> []) by (intros ->; discriminate).
    rewrite Ep in Hd, Hpa, Hf.
    destruct (name_part_body_middle cfg name i j d pb pa s Hv Hd Hf Hpb Hpa0
                Hpa Hs)
      as (bs & r1 & pa' & r & _ & Hkb & _ & Hka & Hpre & Hre & E).
    exists (bs ++ ("name" : str, remove_prefix r (render bs)) :: pa'), (render bs).
    split; [exact E|]. split.
    + rewrite render_app, render_cons, app_assoc, Hpre. exact Hre.
    + rewrite Ep, !dict_keys_app. simpl. now rewrite Hkb, Hka.
Qed.

(** X14: a part in which ["name"] stands between other categories, as
    in [[symmetry][name][zoning]], taken as the template has it and
    matched against its segment.  The categories before the name hold
    what the peeling from the start of the segment gives them, in
    order; the categories after it hold what the peeling from the end
    of the segment gives them; and when the two peelings do not
    overlap, the name is what the end peeling leaves, less the prefix
    the start peeling took, so that the segment is the values before
    the name, the name and the values after it, in this order.  The
    prefix returned is the text of the values before the name. *)
Theorem name_between_categories (cfg : config) (name : str) (i j : nat)
  (d : part_dict) (pb pa : part) (s : str) :
  vocabulary_ok cfg = true ->
  get_part d (KInt i) = Ok (pb ++ ("name" : str, [] : str) :: pa) ->
  fresh_part (pb ++ ("name" : str, [] : str) :: pa) ->
  pb <> [] ->
  pa <> [] ->
  peeled_apart cfg (pb ++ ("name" : str, [] : str) :: pa) s = true ->
  name_segment name j = Ok s ->
  exists bs r1 pa' r,
    start_entries cfg pb s = Ok (bs, r1) /\
    dict_keys bs = dict_keys pb /\
    end_entries cfg (rev pa) s [] = Ok (rev pa', r) /\
    dict_keys pa' = dict_keys pa /\
    render bs ++ remove_prefix r (render bs) = r /\
    r ++ render pa' = s /\
    name_part_body cfg name i j d []
    = Ok (put d i (bs ++ ("name" : str, remove_prefix r (render bs)) :: pa'),
          render bs).
Proof.
  intros Hv Hd Hf Hpb Hpa Hap Hs.
  now apply name_part_body_middle.
Qed.

Lemma name_between_categories_witness :
  name_part_body default_config "LjarTp" 0 0
    (index_parts 0 (template_parts "[symmetry][name][zoning]")) []
  = Ok ([(KInt 0, VDict [("symmetry" : str, "L" : str);
                         ("name" : str, "jar" : str);
                         ("zoning" : str, "Tp" : str)])],
        "L" : str).
Proof.
  destruct (name_between_categories default_config "LjarTp" 0 0
              (index_parts 0 (template_parts "[symmetry][name][zoning]"))
              [("symmetry" : str, [] : str)] [("zoning" : str, [] : str)]
              "LjarTp") as (bs & r1 & pa' & r & Hs & _ & He & _ & _ & _ & E).
  - reflexivity.
  - reflexivity.
  - split.
    + repeat constructor; simpl; intuition discriminate.
    + repeat constructor.
  - discriminate.
  - discriminate.
  - reflexivity.
  - reflexivity.
  - assert (X : Ok (bs, r1)
                = Ok ([("symmetry" : str, "L" : str)], "jarTp" : str)
                :> result (part * str))
      by (rewrite <- Hs; vm_compute; reflexivity).
    injection X as -> ->.
    assert (Y : Ok (rev pa', r)
                = Ok ([("zoning" : str, "Tp" : str)], "Ljar" : str)
                :> result (part * str))
      by (rewrite <- He; vm_compute; reflexivity).
    injection Y as Hr ->.
    apply (f_equal (@rev (str * str))) in Hr. rewrite rev_involutive in Hr.
    subst pa'. rewrite E. reflexivity.
Defined.

(** ** The Exact regime with ["name"] anywhere in its part *)

Lemma assign_keys (key : str) (ov : option str) (p : part) :
  In key (dict_keys p) -> dict_keys (assign key ov p) = dict_keys p.
Proof.
  intros H. destruct ov as [v|]; [|reflexivity].
  now apply (dict_keys_set_in Py.str_eqb str_eqb_eq).
Qed.

Lemma start_keys_keys (cfg : config) (keys : list str) :
  forall (p : part) (s : str) (p' : part) (r : str),
    (forall k, In k keys -> In k (dict_keys p)) ->
    start_keys cfg keys p s = Ok (p', r) ->
    dict_keys p' = dict_keys p.
Proof.
  induction keys as [|k keys IH]; intros p s p' r Hin H;
    cbn [start_keys] in H.
  - now injection H as <- _.
  - destruct (peel_value cfg k s true) as [[ov r1]|e]; cbn [bind] in H;
      [|discriminate].
    assert (Hk : dict_keys (assign k ov p) = dict_keys p)
      by (apply assign_keys, Hin; now left).
    destruct (Py.str_eqb k "name").
    + injection H as <- _. exact Hk.
    + apply IH in H.
      * now rewrite H.
      * intros k' Hk'. rewrite Hk. apply Hin. now right.
Qed.

Lemma dict_mem_set_other (c k v : str) (p : part) :
  c <> k ->
  dict_mem Py.str_eqb c (dict_set Py.str_eqb k v p) = dict_mem Py.str_eqb c p.
Proof.
  intros H. unfold dict_mem.
  rewrite (dict_get_set_other Py.str_eqb str_eqb_eq); [reflexivity|].
  intros E. apply H. now symmetry.
Qed.

Lemma separate_part_same_categories (cfg : config) (p p1 : part) (s : str) :
  separate_part cfg p s true [] = Ok p1 -> same_categories p1 p.
Proof.
  unfold separate_part. intros H.
  destruct (start_keys cfg (dict_keys p) p s) as [[p' r]|e] eqn:E;
    simpl in H; [|discriminate].
  apply start_keys_keys in E; [|auto].
  assert (Hp : same_categories p' p).
  { intros c _. now apply dict_mem_keys. }
  destruct r as [|c r]; [now injection H as <-|].
  match type of H with
  | (if negb ?b then _ else _) = _ => destruct b
  end; simpl in H; injection H as <-; [exact Hp|].
  intros k Hk. rewrite dict_mem_set_other by exact Hk. now apply Hp.
Qed.

Lemma name_count_cons (q : part) (todo : list part) :
  name_count (q :: todo)
  = (if dict_mem Py.str_eqb "name" q then 1 else 0) + name_count todo.
Proof.
  unfold name_count. cbn [filter].
  now destruct (dict_mem Py.str_eqb "name" q).
Qed.

Lemma exact_loop_plain (cfg : config) (name : str) :
  vocabulary_ok cfg = true ->
  forall (todo done : list part) (prefix_name : str),
    Forall part_declared todo ->
    name_count todo = 0 ->
    (forall j, j < length todo ->
               exists s, name_segment name (length done + j) = Ok s) ->
    exists todo',
      exact_loop cfg name (map KInt (seq (length done) (length todo)))
        (index_parts 0 (done ++ todo)) prefix_name
      = Ok (index_parts 0 (done ++ todo')) /\
      (forall j q', nth_error todo' j = Some q' ->
         exists s q,
           nth_error todo j = Some q /\
           name_segment name (length done + j) = Ok s /\
           render q' = s /\
           (dict_mem Py.str_eqb "name" q = false ->
            separate_part cfg q s true [] = Ok q')) /\
      Forall2 same_categories todo' todo.
Proof.
  intros Hv. induction todo as [|q todo IH]; intros done prefix_name Hok Hc Hseg.
  - exists []. simpl. repeat split; [|constructor].
    intros [|j] q' H; discriminate.
  - inversion Hok as [|? ? (Hf & Hne & Hb) Hok']; subst.
    rewrite name_count_cons in Hc.
    destruct (dict_mem Py.str_eqb "name" q) eqn:Hm; [simpl in Hc; lia|].
    simpl in Hc.
    destruct (Hseg 0) as [s Hs]; [simpl; lia|]. rewrite Nat.add_0_r in Hs.
    pose proof (get_part_index_mid 0 done todo q) as Hd.
    rewrite Nat.add_0_r in Hd.
    assert (Hn : ~ In ("name" : str) (dict_keys q)).
    { intros H. apply (dict_mem_In Py.str_eqb str_eqb_eq) in H. congruence. }
    destruct (separate_part_plain cfg q s Hv Hf Hn Hb)
      as (p1 & E0 & E1 & Hr & _).
    destruct (IH (done ++ [p1]) prefix_name Hok' Hc) as (todo' & E & Hseg' & Hk).
    { intros j Hj. rewrite length_app. simpl.
      replace (length done + 1 + j) with (length done + S j) by lia.
      apply Hseg. simpl. lia. }
    rewrite length_app in E. simpl in E. rewrite Nat.add_1_r in E.
    rewrite <- !app_assoc in E. simpl in E.
    exists (p1 :: todo'). split; [|split].
    + cbn [length seq map exact_loop]. rewrite Hd. cbn [bind int_of_key].
      change (dict_mem Py.str_eqb "name" q = false) in Hm.
      match goal with
      | |- context [dict_mem ?e ?k q] =>
          replace (dict_mem e k q) with false by (symmetry; exact Hm)
      end.
      rewrite (separate_category_each_fix cfg name (length done) (length done)
                 s true [] q p1 (dict_keys q) Hs E0 E1 Hne _ Hd).
      cbn [bind].
      pose proof (put_index_mid 0 done todo q p1) as Hp.
      rewrite Nat.add_0_r in Hp. rewrite Hp. exact E.
    + intros [|j] q' H; simpl in H.
      * injection H as <-. exists s, q. rewrite Nat.add_0_r. auto.
      * destruct (Hseg' j q' H) as (sj & qj & Hqj & Hsj & Hrj & Hpj).
        rewrite length_app in Hsj. simpl in Hsj.
        replace (length done + 1 + j) with (length done + S j) in Hsj by lia.
        exists sj, qj. auto.
    + constructor; [|exact Hk].
      now apply (separate_part_same_categories cfg q p1 s).
Qed.

Lemma exact_loop_apart (cfg : config) (name : str) :
  vocabulary_ok cfg = true ->
  forall (todo done : list part),
    Forall part_declared todo ->
    name_count todo <= 1 ->
    (forall j q, nth_error todo j = Some q ->
       exists s, name_segment name (length done + j) = Ok s /\
                 (dict_mem Py.str_eqb "name" q = true ->
                  peeled_apart cfg q s = true)) ->
    exists todo',
      exact_loop cfg name (map KInt (seq (length done) (length todo)))
        (index_parts 0 (done ++ todo)) []
      = Ok (index_parts 0 (done ++ todo')) /\
      (forall j q', nth_error todo' j = Some q' ->
         exists s q,
           nth_error todo j = Some q /\
           name_segment name (length done + j) = Ok s /\
           render q' = s /\
           (dict_mem Py.str_eqb "name" q = false ->
            separate_part cfg q s true [] = Ok q')) /\
      Forall2 same_categories todo' todo.
Proof.
  intros Hv. induction todo as [|q todo IH]; intros done Hok Hc Hseg.
  - exists []. simpl. repeat split; [|constructor].
    intros [|j] q' H; discriminate.
  - inversion Hok as [|? ? (Hf & Hne & Hb) Hok']; subst.
    rewrite name_count_cons in Hc.
    destruct (Hseg 0 q eq_refl) as (s & Hs & Hpa). rewrite Nat.add_0_r in Hs.
    pose proof (get_part_index_mid 0 done todo q) as Hd.
    rewrite Nat.add_0_r in Hd.
    assert (Hseg1 : forall p1 : part, forall j, j < length todo ->
              exists s, name_segment name (length (done ++ [p1]) + j) = Ok s).
    { intros p1 j Hj. rewrite length_app. simpl.
      replace (length done + 1 + j) with (length done + S j) by lia.
      destruct (nth_error todo j) as [qj|] eqn:En.
      - destruct (Hseg (S j) qj En) as (sj & Hsj & _). eauto.
      - apply nth_error_None in En. lia. }
    pose proof (put_index_mid 0 done todo q) as Hp.
    rewrite Nat.add_0_r in Hp.
    destruct (dict_mem Py.str_eqb "name" q) eqn:Hm.
    + assert (Hin : In ("name" : str) (dict_keys q))
        by now apply (dict_mem_In Py.str_eqb str_eqb_eq).
      destruct (name_part_body_apart cfg name (length done) (length done) _ q s
                  Hv Hd Hf Hin (Hpa eq_refl) Hs) as (p1 & pre & E & Hr & Hk1).
      destruct (exact_loop_plain cfg name Hv todo (done ++ [p1]) pre Hok')
        as (todo' & El & Hseg' & Hk); [simpl in Hc; lia|apply Hseg1|].
      rewrite length_app in El. simpl in El. rewrite Nat.add_1_r in El.
      rewrite <- !app_assoc in El. simpl in El.
      exists (p1 :: todo'). split; [|split].
      * cbn [length seq map exact_loop]. rewrite Hd. cbn [bind int_of_key].
        change (dict_mem Py.str_eqb "name" q = true) in Hm.
        match goal with
        | |- context [dict_mem ?e ?k q] =>
            replace (dict_mem e k q) with true by (symmetry; exact Hm)
        end.
        rewrite E. cbn [bind]. rewrite Hp. exact El.
      * intros [|j] q' H; simpl in H.
        -- injection H as <-. exists s, q. rewrite Nat.add_0_r.
           repeat split; try assumption. intros F.
           change (dict_mem Py.str_eqb "name" q = false) in F. congruence.
        -- destruct (Hseg' j q' H) as (sj & qj & Hqj & Hsj & Hrj & Hpj).
           rewrite length_app in Hsj. simpl in Hsj.
           replace (length done + 1 + j) with (length done + S j) in Hsj by lia.
           exists sj, qj. auto.
      * constructor; [|exact Hk]. intros c _. now apply dict_mem_keys.
    + assert (Hn : ~ In ("name" : str) (dict_keys q)).
      { intros H. apply (dict_mem_In Py.str_eqb str_eqb_eq) in H. congruence. }
      destruct (separate_part_plain cfg q s Hv Hf Hn Hb)
        as (p1 & E0 & E1 & Hr & _).
      destruct (IH (done ++ [p1]) Hok') as (todo' & El & Hseg' & Hk).
      { simpl in Hc. lia. }
      { intros j qj Hj. rewrite length_app. simpl.
        replace (length done + 1 + j) with (length done + S j) by lia.
        apply (Hseg (S j) qj Hj). }
      rewrite length_app in El. simpl in El. rewrite Nat.add_1_r in El.
      rewrite <- !app_assoc in El. simpl in El.
      exists (p1 :: todo'). split; [|split].
      * cbn [length seq map exact_loop]. rewrite Hd. cbn [bind int_of_key].
        change (dict_mem Py.str_eqb "name" q = false) in Hm.
        match goal with
        | |- context [dict_mem ?e ?k q] =>
            replace (dict_mem e k q) with false by (symmetry; exact Hm)
        end.
        rewrite (separate_category_each_fix cfg name (length done) (length done)
                   s true [] q p1 (dict_keys q) Hs E0 E1 Hne _ Hd).
        cbn [bind]. rewrite Hp. exact El.
      * intros [|j] q' H; simpl in H.
        -- injection H as <-. exists s, q. rewrite Nat.add_0_r. auto.
        -- destruct (Hseg' j q' H) as (sj & qj & Hqj & Hsj & Hrj & Hpj).
           rewrite length_app in Hsj. simpl in Hsj.
           replace (length done + 1 + j) with (length done + S j) in Hsj by lia.
           exists sj, qj. auto.
      * constructor; [|exact Hk].
        now apply (separate_part_same_categories cfg q p1 s).
Qed.

Lemma structure_declared_parts (name_structure : str) :
  structure_declared name_structure = true ->
  Forall part_declared (template_parts name_structure).
Proof.
  unfold structure_declared, template_parts. intros H.
  rewrite forallb_forall in H. apply Forall_forall. intros q Hq.
  specialize (H q Hq). cbv zeta in H.
  apply andb_true_iff in H as [Hne Hb].
  apply in_map_iff in Hq as [t [<- _]].
  repeat split.
  - apply part_categories_fresh.
  - apply part_categories_fresh.
  - intros E. rewrite E in Hne. discriminate.
  - intros Hin. apply in_list_In in Hin. rewrite Hin in Hb. discriminate.
Qed.

Lemma nth_error_combine_In {A B : Type} (l1 : list A) (l2 : list B) :
  forall (j : nat) (a : A) (b : B),
    nth_error l1 j = Some a -> nth_error l2 j = Some b ->
    In (a, b) (combine l1 l2).
Proof.
  revert l2. induction l1 as [|x l1 IH]; intros l2 [|j] a b H1 H2;
    destruct l2 as [|y l2]; simpl in *; try discriminate.
  - injection H1 as <-. injection H2 as <-. now left.
  - right. now apply (IH l2 j).
Qed.

Lemma exact_inspect_apart (cfg : config) (name_structure name : str) :
  vocabulary_ok cfg = true ->
  structure_declared name_structure = true ->
  single_name name_structure = true ->
  exact name_structure name ->
  peels_apart cfg name_structure name = true ->
  exists qs,
    inspect_name_structure cfg name name_structure = Ok (index_parts 0 qs) /\
    map render qs = Py.split "_" name /\
    Forall2 same_categories qs (template_parts name_structure) /\
    (forall j q' q s,
       nth_error qs j = Some q' ->
       nth_error (template_parts name_structure) j = Some q ->
       nth_error (Py.split "_" name) j = Some s ->
       dict_mem Py.str_eqb "name" q = false ->
       separate_part cfg q s true [] = Ok q').
Proof.
  intros Hv Hs H1 He Hpa. unfold exact, segment_count, part_count in He.
  unfold inspect_name_structure.
  rewrite build_part_dict_template.
  destruct (classify_index_parts cfg 0 (template_parts name_structure))
    as (o & m & E & Hl).
  rewrite E. cbn [bind].
  assert (Hp : length (template_parts name_structure)
               = length (split_structure name_structure))
    by apply length_map.
  assert (Hm : length m <= length (split_structure name_structure)).
  { rewrite Hl, <- Hp. apply filter_length_le. }
  rewrite (proj2 (Nat.ltb_ge _ _)) by (rewrite He; exact Hm).
  rewrite (proj2 (Nat.ltb_ge _ _)) by lia.
  rewrite (proj2 (Nat.eqb_eq _ _) He).
  rewrite dict_keys_index_parts.
  destruct (exact_loop_apart cfg name Hv (template_parts name_structure) []
              (structure_declared_parts _ Hs)) as (qs & El & Hseg & Hk).
  { unfold single_name in H1. now apply Nat.leb_le in H1. }
  { intros j q Hq. simpl. unfold name_segment.
    destruct (nth_error (Py.split "_" name) j) as [s|] eqn:En.
    - exists s. split; [reflexivity|]. intros Hn.
      unfold peels_apart in Hpa. rewrite forallb_forall in Hpa.
      specialize (Hpa (q, s) (nth_error_combine_In _ _ j q s Hq En)).
      cbn [fst snd] in Hpa.
      change (dict_mem Py.str_eqb "name" q = true) in Hn.
      match type of Hpa with
      | negb ?b || _ = true => replace b with true in Hpa by (symmetry; exact Hn)
      end.
      exact Hpa.
    - apply nth_error_None in En.
      assert (j < length (template_parts name_structure))
        by (apply nth_error_Some; congruence).
      lia. }
  simpl in El. exists qs. split; [exact El|].
  assert (Hlen : length qs = length (template_parts name_structure))
    by (eapply Forall2_length; exact Hk).
  split; [|split; [exact Hk|]].
  - apply nth_error_ext. intros j. rewrite nth_error_map.
    destruct (nth_error qs j) as [q|] eqn:Eq; simpl.
    + destruct (Hseg j q Eq) as (sj & qj & _ & Hsj & Hrj & _).
      simpl in Hsj. unfold name_segment in Hsj.
      destruct (nth_error (Py.split "_" name) j); congruence.
    + symmetry. apply nth_error_None. apply nth_error_None in Eq. lia.
  - intros j q' q s Hq' Hq Hsj Hn.
    destruct (Hseg j q' Hq') as (sj & qj & Hqj & Hs' & _ & Hp').
    simpl in Hs'. unfold name_segment in Hs'. rewrite Hsj in Hs'.
    injection Hs' as <-. rewrite Hq in Hqj. injection Hqj as <-.
    now apply Hp'.
Qed.

(** X15: the round trip of the Exact regime with ["name"] anywhere in
    its part.  Under a template whose every part declares a category,
    none called ["bad_naming"], with ["name"] in at most one part, and a
    vocabulary without empty candidate: for a name with as many segments
    as the template has parts, none of them empty, in which the prefix
    peeled from the start of the name's segment and the suffix peeled
    from its end do not overlap, rebuilding what the inspector returns
    gives the name back. *)
Theorem exact_round_trip_apart (cfg : config) (name_structure name : str) :
  vocabulary_ok cfg = true ->
  structure_declared name_structure = true ->
  single_name name_structure = true ->
  exact name_structure name ->
  peels_apart cfg name_structure name = true ->
  segments_nonempty name = true ->
  rebuild_of_inspect cfg name name_structure = Ok name.
Proof.
  intros Hv Hs H1 He Hpa Hn.
  destruct (exact_inspect_apart cfg name_structure name Hv Hs H1 He Hpa)
    as (qs & E & Hm & _ & _).
  unfold rebuild_of_inspect. rewrite E. cbn [bind].
  now apply rebuilt_name_index.
Qed.

Lemma exact_round_trip_apart_witness :
  rebuild_of_inspect default_config "prp_LjarTpA"
    "[type]_[symmetry][name][zoning][alphabetical_inc]"
  = Ok ("prp_LjarTpA" : str).
Proof.
  apply (exact_round_trip_apart default_config
           "[type]_[symmetry][name][zoning][alphabetical_inc]" "prp_LjarTpA");
    reflexivity.
Defined.

Lemma edit_loop_parts (category v : str) :
  forall todo done : list part,
    for_each (map KInt (seq (length done) (length todo)))
      (fun d' index =>
         match dict_get key_eqb index d' with
         | None => Raise KeyError
         | Some entry =>
             if value_has category entry then set_item d' index category v
             else Ok d'
         end)
      (index_parts 0 (done ++ todo))
    = Ok (index_parts 0 (done ++ map (edit_part category v) todo)).
Proof.
  induction todo as [|q todo IH]; intros done.
  - reflexivity.
  - cbn [length seq map for_each].
    pose proof (get_part_index_mid 0 done todo q) as Hd.
    rewrite Nat.add_0_r in Hd.
    rewrite (get_part_inv _ _ _ Hd). cbn [value_has].
    pose proof (put_index_mid 0 done todo q) as Hp.
    rewrite Nat.add_0_r in Hp.
    unfold edit_part at 1.
    destruct (dict_mem Py.str_eqb category q).
    + rewrite (set_item_put _ _ _ _ _ Hd). cbn [bind]. rewrite Hp.
      specialize (IH (done ++ [dict_set Py.str_eqb category v q])).
      rewrite length_app in IH. simpl in IH. rewrite Nat.add_1_r in IH.
      rewrite <- !app_assoc in IH. exact IH.
    + cbn [bind].
      specialize (IH (done ++ [q])).
      rewrite length_app in IH. simpl in IH. rewrite Nat.add_1_r in IH.
      rewrite <- !app_assoc in IH. exact IH.
Qed.

Lemma edit_loop_index (category v : str) (qs : list part) :
  edit_loop category v (index_parts 0 qs)
  = Ok (index_parts 0 (map (edit_part category v) qs)).
Proof.
  unfold edit_loop. rewrite dict_keys_index_parts.
  exact (edit_loop_parts category v qs []).
Qed.

Lemma segments_nonempty_name (name : str) :
  segments_nonempty name = true -> name <> [].
Proof. intros H ->. discriminate. Qed.

Lemma rename_exact (category : str) (cfg : config) (long_name name v : str)
  (qs : list part) :
  get_name_from_item_data long_name = Ok name ->
  name <> [] ->
  inspect_name_structure cfg name (NAME_STRUCTURE cfg) = Ok (index_parts 0 qs) ->
  rename_with_category category cfg long_name v
  = rebuilt_name (index_parts 0 (map (edit_part category v) qs)).
Proof.
  intros Hg Hne Hi. unfold rename_with_category. rewrite Hg. cbn [bind].
  destruct name as [|c x]; [congruence|].
  rewrite Hi. cbn [bind]. now rewrite edit_loop_index.
Qed.

Lemma edit_part_absent (category v : str) (q t : part) :
  category <> "bad_naming" ->
  same_categories q t ->
  dict_mem Py.str_eqb category t = false ->
  edit_part category v q = q.
Proof.
  intros Hc Hs Ht. unfold edit_part. now rewrite (Hs category Hc), Ht.
Qed.

(** X16: an edit of a category the template does not hold changes
    nothing: in the Exact regime (conditions of the round trip), the
    name [rename_with_type] or any of its siblings hands on is the name
    of the item. *)
Theorem edit_of_absent_category (category : str) (cfg : config)
  (long_name name v : str) :
  vocabulary_ok cfg = true ->
  structure_declared (NAME_STRUCTURE cfg) = true ->
  single_name (NAME_STRUCTURE cfg) = true ->
  get_name_from_item_data long_name = Ok name ->
  exact (NAME_STRUCTURE cfg) name ->
  peels_apart cfg (NAME_STRUCTURE cfg) name = true ->
  segments_nonempty name = true ->
  Py.str_eqb category "bad_naming" = false ->
  category_absent category (NAME_STRUCTURE cfg) = true ->
  rename_with_category category cfg long_name v = Ok name.
Proof.
  intros Hv Hs H1 Hg He Hpa Hn Hc Ha.
  apply str_eqb_neq in Hc.
  destruct (exact_inspect_apart cfg _ name Hv Hs H1 He Hpa)
    as (qs & E & Hm & Hk & _).
  rewrite (rename_exact category cfg long_name name v qs Hg
             (segments_nonempty_name _ Hn) E).
  replace (map (edit_part category v) qs) with qs.
  - now apply rebuilt_name_index.
  - unfold category_absent in Ha. rewrite forallb_forall in Ha.
    clear E Hm. induction Hk as [|q t qs ts Hqt Hk IH]; [reflexivity|].
    cbn [map]. rewrite (edit_part_absent category v q t Hc Hqt).
    + f_equal. apply IH. intros p Hp. apply Ha. now right.
    + specialize (Ha t (or_introl eq_refl)). now apply negb_true_iff in Ha.
Qed.

Lemma edit_of_absent_category_witness :
  rename_with_symmetry example_config "|all|prp_jarLt" "L"
  = Ok ("prp_jarLt" : str).
Proof.
  apply (edit_of_absent_category "symmetry" example_config "|all|prp_jarLt"
           "prp_jarLt" "L"); reflexivity.
Defined.

Lemma split_segments_free (sep : ascii) (s : str) :
  Forall (fun x => Py.char_in sep x = false) (Py.split sep s).
Proof.
  induction s as [|c s IH]; simpl; [repeat constructor|].
  destruct (Ascii.eqb c sep) eqn:E; [constructor; [reflexivity|exact IH]|].
  destruct (Py.split sep s) as [|h t]; [repeat constructor|].
  - unfold Py.char_in. simpl. now rewrite Ascii.eqb_sym, E.
  - inversion IH as [|? ? Hh Ht]; subst. constructor; [|exact Ht].
    unfold Py.char_in in *. simpl. now rewrite Ascii.eqb_sym, E, Hh.
Qed.

Lemma split_join (sep : ascii) (l : list str) :
  l <> [] ->
  Forall (fun x => Py.char_in sep x = false) l ->
  Py.split sep (join sep l) = l.
Proof.
  induction l as [|x l IH]; intros Hne H; [congruence|].
  inversion H as [|? ? Hx Hl]; subst.
  destruct l as [|y l].
  - simpl. now apply split_no_sep.
  - change (join sep (x :: y :: l)) with (x ++ sep :: join sep (y :: l)).
    rewrite split_app_sep_gen, (split_no_sep sep x Hx), IH;
      [reflexivity|discriminate|exact Hl].
Qed.

Lemma nth_error_set_nth {A : Type} (x : A) (l : list A) :
  forall i j,
    nth_error (set_nth i x l) j
    = if Nat.eqb j i
      then match nth_error l i with Some _ => Some x | None => None end
      else nth_error l j.
Proof.
  induction l as [|y l IH]; intros i j.
  - simpl. destruct (Nat.eqb j i); destruct i, j; reflexivity.
  - destruct i as [|i], j as [|j]; simpl; try reflexivity. apply IH.
Qed.

Lemma Forall_set_nth {A : Type} (P : A -> Prop) (x : A) (l : list A) :
  forall i, P x -> Forall P l -> Forall P (set_nth i x l).
Proof.
  induction l as [|y l IH]; intros i Hx H; [destruct i; constructor|].
  inversion H; subst. destruct i; simpl; constructor; auto.
Qed.

Lemma set_nth_nonempty {A : Type} (x : A) (l : list A) (i : nat) :
  l <> [] -> set_nth i x l <> [].
Proof. destruct l, i; simpl; congruence. Qed.

Lemma Forall2_nth_error {A B : Type} (R : A -> B -> Prop) (l1 : list A)
  (l2 : list B) :
  Forall2 R l1 l2 ->
  forall j a, nth_error l1 j = Some a ->
              exists b, nth_error l2 j = Some b /\ R a b.
Proof.
  induction 1 as [|x y l1 l2 Hxy H IH]; intros [|j] a Hj; simpl in *;
    try discriminate.
  - injection Hj as <-. eauto.
  - now apply IH.
Qed.

Lemma nth_error_seq_combine {B : Type} (l : list B) :
  forall (a j : nat) (b : B),
    nth_error l j = Some b -> In (a + j, b) (combine (seq a (length l)) l).
Proof.
  induction l as [|x l IH]; intros a [|j] b H; simpl in *; try discriminate.
  - injection H as <-. left. now rewrite Nat.add_0_r.
  - right. replace (a + S j) with (S a + j) by lia. now apply IH.
Qed.

Lemma separate_part_single (cfg : config) (category v s : str) (q' : part) :
  Py.str_eqb category "name" = false ->
  Py.str_eqb category "bad_naming" = false ->
  separate_part cfg [(category, [])] s true [] = Ok q' ->
  exists ov rest,
    peel_value cfg category s true = Ok (ov, rest) /\
    render (edit_part category v q') = v ++ rest.
Proof.
  intros Hn Hb H. unfold separate_part in H.
  cbn [dict_keys map fst start_keys] in H.
  destruct (peel_value cfg category s true) as [[ov r]|e]; cbn [bind] in H;
    [|discriminate].
  exists ov, r. split; [reflexivity|].
  rewrite Hn in H. cbn [bind] in H.
  assert (Ha : assign category ov [(category, [])]
               = [(category, assigned ov [])]).
  { destruct ov as [x|]; [|reflexivity].
    cbn [assign dict_set assigned]. now rewrite str_eqb_refl. }
  rewrite Ha in H.
  assert (Hm : forall (x : str) (rest' : part),
             dict_mem Py.str_eqb category ((category, x) :: rest') = true).
  { intros x rest'. unfold dict_mem. cbn [dict_get].
    now rewrite str_eqb_refl. }
  destruct r as [|c r].
  - injection H as <-. unfold edit_part. rewrite Hm.
    cbn [dict_set]. rewrite str_eqb_refl. reflexivity.
  - assert (Hnm : dict_mem Py.str_eqb "name" [(category, assigned ov [])] = false).
    { unfold dict_mem. cbn [dict_get].
      now rewrite (str_eqb_sym "name" category), Hn. }
    match type of H with
    | (if negb ?b then Ok ?X else ?Y) = _ =>
        assert (H' : q' = X)
          by (replace b with false in H by (symmetry; exact Hnm);
              change (negb false) with true in H; cbv iota in H;
              congruence)
    end.
    clear H. rewrite H'.
    assert (Hds : forall (k r0 x : str),
               Py.str_eqb k category = false ->
               dict_set Py.str_eqb k r0 [(category, x)]
               = [(category, x); (k, r0)]).
    { intros k r0 x Hk. cbn [dict_set]. now rewrite Hk. }
    rewrite Hds by (rewrite str_eqb_sym; exact Hb).
    unfold edit_part. rewrite Hm.
    cbn [dict_set]. rewrite str_eqb_refl.
    unfold render. cbn [dict_values map snd concat].
    now rewrite app_nil_r.
Qed.

Lemma category_alone_at_inv (category name_structure : str) (i : nat) :
  category_alone_at category name_structure i = true ->
  nth_error (template_parts name_structure) i = Some [(category, [])] /\
  (forall j p, nth_error (template_parts name_structure) j = Some p ->
               j <> i -> dict_mem Py.str_eqb category p = false).
Proof.
  unfold category_alone_at. intros H. apply andb_true_iff in H as [H Hi].
  apply Nat.ltb_lt in Hi. rewrite forallb_forall in H.
  assert (Hj : forall j p, nth_error (template_parts name_structure) j = Some p ->
     (if Nat.eqb j i
      then match p with
           | [(c, _)] => Py.str_eqb c category
           | _ => false
           end
      else negb (dict_mem Py.str_eqb category p)) = true).
  { intros j p Hp.
    exact (H (j, p) (nth_error_seq_combine _ 0 j p Hp)). }
  split.
  - destruct (nth_error (template_parts name_structure) i) as [p|] eqn:E;
      [|apply nth_error_None in E; lia].
    specialize (Hj i p E). rewrite Nat.eqb_refl in Hj.
    assert (Hf : fresh_part p)
      by (apply (template_parts_fresh name_structure);
          eapply nth_error_In; exact E).
    destruct p as [|[c x] [|e p]]; try discriminate.
    apply str_eqb_eq in Hj. subst c.
    destruct Hf as [_ Hf]. inversion Hf as [|? ? Hx _]; subst.
    simpl in Hx. now subst x.
  - intros j p Hp Hne. specialize (Hj j p Hp).
    rewrite (proj2 (Nat.eqb_neq j i) Hne) in Hj.
    now apply negb_true_iff in Hj.
Qed.

Lemma rebuilt_name_filled (ps : list part) :
  rebuilt_name (index_parts 0 ps)
  = Ok (Py.strip "_" (join "_" (filter nonempty (map render ps)))).
Proof.
  unfold rebuilt_name. rewrite dict_get_index_parts_str.
  rewrite rebuilt_loop_filter. cbn [bind app]. f_equal.
  destruct (filter nonempty (map render ps)) as [|x l] eqn:E; [reflexivity|].
  rewrite concat_sep_join by discriminate.
  apply (strip_app_sep "_").
Qed.

(** X17: an edit of a category that stands alone in its part, as
    [[type]] or [[numerical_inc]] in the default template.  Conditions:
    no candidate of a vocabulary is empty; every part of the template
    declares a category and none is called bad_naming; at most one part
    holds name; the short name of the item is not empty and has as many
    segments as the template has parts (Exact regime); in the part
    holding name the peelings from the two ends of its segment do not
    overlap; the category edited is not name, its part is part [i] and
    holds nothing else, and no other part holds it; [s] is segment [i]
    of the name.  Then, whatever the new value [v], the inspector
    peels from [s] what it recognises as the category and leaves a rest,
    the two making up [s], and the edit hands on the segments of the
    name with segment [i] replaced by [v] followed by that rest, less
    the segments that are empty, joined by underscores and stripped of
    underscores at both ends.  When moreover no segment of the name is
    empty and [v] is not empty and holds no underscore, that is the
    segments joined by underscores with segment [i] replaced by [v]
    followed by the rest. *)
Theorem edit_of_category_alone (category : str) (cfg : config)
  (long_name name v : str) (i : nat) (s : str) :
  vocabulary_ok cfg = true ->
  structure_declared (NAME_STRUCTURE cfg) = true ->
  single_name (NAME_STRUCTURE cfg) = true ->
  get_name_from_item_data long_name = Ok name ->
  name <> [] ->
  exact (NAME_STRUCTURE cfg) name ->
  peels_apart cfg (NAME_STRUCTURE cfg) name = true ->
  Py.str_eqb category "name" = false ->
  category_alone_at category (NAME_STRUCTURE cfg) i = true ->
  nth_error (Py.split "_" name) i = Some s ->
  exists ov rest,
    peel_value cfg category s true = Ok (ov, rest) /\
    assigned ov [] ++ rest = s /\
    rename_with_category category cfg long_name v
    = Ok (Py.strip "_"
            (join "_" (filter nonempty
                         (set_nth i (v ++ rest) (Py.split "_" name))))) /\
    (segments_nonempty name = true ->
     nonempty v = true ->
     Py.char_in "_" v = false ->
     rename_with_category category cfg long_name v
     = Ok (join "_" (set_nth i (v ++ rest) (Py.split "_" name)))).
Proof.
  intros Hv Hs H1 Hg Hne0 He Hpa Hcn Hal Hsi.
  destruct (category_alone_at_inv _ _ _ Hal) as [Hti Hto].
  assert (Hcb : Py.str_eqb category "bad_naming" = false).
  { apply str_eqb_neq. intros ->.
    pose proof (structure_declared_parts _ Hs) as Hd.
    rewrite Forall_forall in Hd.
    destruct (Hd _ (nth_error_In _ _ Hti)) as (_ & _ & Hb).
    apply Hb. now left. }
  destruct (exact_inspect_apart cfg _ name Hv Hs H1 He Hpa)
    as (qs & E & Hm & Hk & Hp).
  assert (Hlen : length qs = length (Py.split "_" name))
    by (rewrite <- Hm; symmetry; apply length_map).
  destruct (nth_error qs i) as [q'|] eqn:Eq;
    [|apply nth_error_None in Eq;
      assert (i < length (Py.split "_" name))
        by (apply nth_error_Some; congruence); lia].
  assert (Hsep : separate_part cfg [(category, [])] s true [] = Ok q').
  { apply (Hp i q' _ s Eq Hti Hsi). unfold dict_mem. cbn [dict_get].
    now rewrite (str_eqb_sym "name" category), Hcn. }
  destruct (separate_part_single cfg category v s q' Hcn Hcb Hsep)
    as (ov & rest & Epeel & Hr).
  destruct (peel_value_glue cfg category s true Hv Hcn)
    as (ov' & r' & Epeel' & Hglue).
  rewrite Epeel in Epeel'. injection Epeel' as <- <-.
  cbn [glue] in Hglue.
  exists ov, rest. split; [exact Epeel|]. split; [exact Hglue|].
  rewrite (rename_exact category cfg long_name name v qs Hg Hne0 E).
  assert (Hmap : map render (map (edit_part category v) qs)
                 = set_nth i (v ++ rest) (Py.split "_" name)).
  { apply nth_error_ext. intros j.
    rewrite nth_error_set_nth, !nth_error_map.
    destruct (Nat.eqb j i) eqn:Ej.
    - apply Nat.eqb_eq in Ej. subst j. rewrite Eq, Hsi. cbn [option_map].
      now rewrite Hr.
    - apply Nat.eqb_neq in Ej. rewrite <- Hm, nth_error_map.
      destruct (nth_error qs j) as [q|] eqn:Eqj; [|reflexivity].
      cbn [option_map]. f_equal. f_equal.
      destruct (Forall2_nth_error _ _ _ Hk j q Eqj) as (t & Ht & Hqt).
      apply (edit_part_absent category v q t); try assumption.
      + now apply str_eqb_neq.
      + now apply (Hto j t). }
  split.
  { rewrite rebuilt_name_filled. now rewrite Hmap. }
  intros Hn Hvn Hvu.
  assert (Hfree : Forall (fun x => Py.char_in "_" x = false)
                    (set_nth i (v ++ rest) (Py.split "_" name))).
  { apply Forall_set_nth; [|apply split_segments_free].
    rewrite char_in_app, Hvu. cbn [orb].
    pose proof (split_segments_free "_" name) as F.
    rewrite Forall_forall in F. specialize (F s (nth_error_In _ _ Hsi)).
    rewrite <- Hglue, char_in_app in F. now apply orb_false_iff in F as [_ F]. }
  assert (Hne : set_nth i (v ++ rest) (Py.split "_" name) <> [])
    by apply set_nth_nonempty, split_nonempty.
  apply rebuilt_name_index.
  - rewrite Hmap. symmetry. now apply split_join.
  - unfold segments_nonempty. rewrite (split_join "_" _ Hne Hfree).
    unfold segments_nonempty in Hn. rewrite forallb_forall in Hn |- *.
    intros x Hx. apply In_nth_error in Hx as [j Hj].
    rewrite nth_error_set_nth in Hj.
    destruct (Nat.eqb j i).
    + rewrite Hsi in Hj. injection Hj as <-. now destruct v.
    + apply Hn. eapply nth_error_In; exact Hj.
Qed.

Lemma edit_of_category_alone_witness :
  (exists ov rest,
     peel_value default_config "type" "prpfoo" true = Ok (ov, rest) /\
     assigned ov [] ++ rest = ("prpfoo" : str) /\
     rename_with_type default_config "|all|L_prpfoo_jarLt_001" "grp"
     = Ok (Py.strip "_"
             (join "_" (filter nonempty
                          (set_nth 1 ("grp" ++ rest)
                             (Py.split "_" "L_prpfoo_jarLt_001"))))) /\
     rename_with_type default_config "|all|L_prpfoo_jarLt_001" "grp"
     = Ok (join "_" (set_nth 1 ("grp" ++ rest)
                       (Py.split "_" "L_prpfoo_jarLt_001")))) /\
  (exists ov rest,
     peel_value default_config "numerical_inc" "001" true = Ok (ov, rest) /\
     assigned ov [] ++ rest = ("001" : str) /\
     rename_with_n_inc default_config "L_prp_jar_001" []
     = Ok (Py.strip "_"
             (join "_" (filter nonempty
                          (set_nth 3 ([] ++ rest)
                             (Py.split "_" "L_prp_jar_001")))))).
Proof.
  split.
  - destruct (edit_of_category_alone "type" default_config
                "|all|L_prpfoo_jarLt_001" "L_prpfoo_jarLt_001" "grp" 1 "prpfoo")
      as (ov & rest & Hp & Hg & Hr & Hj);
      try reflexivity; try discriminate.
    exists ov, rest. repeat split; try assumption.
    apply Hj; reflexivity.
  - destruct (edit_of_category_alone "numerical_inc" default_config
                "L_prp_jar_001" "L_prp_jar_001" [] 3 "001")
      as (ov & rest & Hp & Hg & Hr & _);
      try reflexivity; try discriminate.
    exists ov, rest. repeat split; assumption.
Defined.

(** The two edits of the witness, evaluated: the new type is written in
    front of the text the inspector did not recognise, and an empty
    increment takes its segment away. *)
Example edit_of_category_alone_values :
  rename_with_type default_config "|all|L_prpfoo_jarLt_001" "grp"
  = Ok ("L_grpfoo_jarLt_001" : str) /\
  rename_with_n_inc default_config "L_prp_jar_001" []
  = Ok ("L_prp_jar" : str).
Proof. split; vm_compute; reflexivity. Qed.

Lemma find_inc_slot_same (qs ts : list part) :
  Forall2 same_categories qs ts ->
  forall a, find_inc_slot (index_parts a qs) = find_inc_slot (index_parts a ts).
Proof.
  induction 1 as [|q t qs ts Hqt Hk IH]; intros a; [reflexivity|].
  cbn [index_parts find_inc_slot value_has].
  rewrite (Hqt "alphabetical_inc") by discriminate.
  rewrite (Hqt "numerical_inc") by discriminate.
  now rewrite IH.
Qed.

(** X18: in the Exact regime (conditions of the round trip) the
    increment slot [rename_non_unique_name] looks for in what the
    inspector returns is decided by the template alone, whatever the
    name: it is the slot of the template's own dictionary.  Under the
    default template that is the alphabetical increment of the third
    part, which comes before the numerical one of the fourth. *)
Theorem inc_slot_by_template (cfg : config) (name_structure name : str) :
  vocabulary_ok cfg = true ->
  structure_declared name_structure = true ->
  single_name name_structure = true ->
  exact name_structure name ->
  peels_apart cfg name_structure name = true ->
  exists d,
    inspect_name_structure cfg name name_structure = Ok d /\
    find_inc_slot d
    = find_inc_slot (index_parts 0 (template_parts name_structure)).
Proof.
  intros Hv Hs H1 He Hpa.
  destruct (exact_inspect_apart cfg _ name Hv Hs H1 He Hpa)
    as (qs & E & _ & Hk & _).
  exists (index_parts 0 qs). split; [exact E|].
  now apply find_inc_slot_same.
Qed.

Lemma inc_slot_by_template_witness :
  exists d,
    inspect_name_structure default_config "L_prp_jarLt_001"
      (NAME_STRUCTURE default_config) = Ok d /\
    find_inc_slot d = AlphabeticalInc (KInt 2).
Proof.
  apply (inc_slot_by_template default_config (NAME_STRUCTURE default_config)
           "L_prp_jarLt_001"); reflexivity.
Defined.

Lemma add_missing_spec (others defaults : list str) :
  forall acc c,
    In c (add_missing others defaults acc) <->
    In c acc \/ (In c defaults /\ ~ In c others).
Proof.
  unfold add_missing.
  induction defaults as [|v defaults IH]; intros acc c; cbn [fold_left].
  - simpl. tauto.
  - rewrite IH.
    destruct (in_list v acc) eqn:Ea; destruct (in_list v others) eqn:Eo;
      cbn [negb andb].
    + apply in_list_In in Ea, Eo. simpl. split; [tauto|].
      intros [H|[[->|H] Hn]]; tauto.
    + apply in_list_In in Ea. simpl. split; [tauto|].
      intros [H|[[->|H] Hn]]; tauto.
    + apply in_list_In in Eo. simpl. split; [tauto|].
      intros [H|[[->|H] Hn]]; tauto.
    + assert (Hno : ~ In v others).
      { intros H. apply in_list_In in H. congruence. }
      rewrite in_app_iff. simpl. split.
      * intros [[H|[->|[]]]|[H Hn]]; tauto.
      * intros [H|[[->|H] Hn]]; tauto.
Qed.

Lemma split_checkbox_fold (entries : list (str * bool)) :
  forall o m,
    fold_left
      (fun '(optional_categories, mandatory_categories) '(key, value) =>
         if value : bool
         then (optional_categories ++ [key], mandatory_categories)
         else (optional_categories, mandatory_categories ++ [key]))
      entries (o, m)
    = (o ++ map fst (filter snd entries),
       m ++ map fst (filter (fun e => negb (snd e)) entries)).
Proof.
  induction entries as [|[k b] entries IH]; intros o m; cbn [fold_left].
  - simpl. now rewrite !app_nil_r.
  - destruct b; rewrite IH; simpl; now rewrite <- app_assoc.
Qed.

Lemma split_checkbox_spec (entries : list (str * bool)) :
  split_checkbox entries
  = (map fst (filter snd entries),
     map fst (filter (fun e => negb (snd e)) entries)).
Proof. unfold split_checkbox. now rewrite split_checkbox_fold. Qed.

Lemma checkbox_key (entries : list (str * bool)) (c : str) :
  NoDup (dict_keys entries) ->
  In c (map fst (filter snd entries)) ->
  In c (map fst (filter (fun e => negb (snd e)) entries)) -> False.
Proof.
  induction entries as [|[k b] entries IH]; intros Hnd Ho Hm; [contradiction|].
  inversion Hnd as [|? ? Hk Hnd']; subst.
  assert (Hin : forall f, In c (map fst (filter f entries)) ->
                          In c (dict_keys entries)).
  { intros f H. apply in_map_iff in H as [[k' b'] [<- H]].
    apply filter_In in H as [H _]. now apply (in_map fst) in H. }
  destruct b; simpl in Ho, Hm.
  - destruct Ho as [->|Ho]; [apply Hk; now apply (Hin _ Hm)|]. now apply IH.
  - destruct Hm as [->|Hm]; [apply Hk; now apply (Hin _ Ho)|]. now apply IH.
Qed.

(** X19: the optional and the mandatory categories that
    [build_categories_dict] computes from the check boxes of a preset:
    no category is in both lists, every default category is in one of
    them, and a category with a check box is optional when the box is
    ticked and mandatory when it is not. *)
Theorem categories_partition (entries : list (str * bool)) :
  distinct (dict_keys entries) = true ->
  let '(optional_categories, mandatory_categories) :=
    build_categories_dict (Some entries) in
  (forall c, In c optional_categories -> ~ In c mandatory_categories) /\
  (forall c, In c (OPTIONAL_CATEGORIES default_config
                     ++ MANDATORY_CATEGORIES default_config) ->
             In c optional_categories \/ In c mandatory_categories) /\
  (entries <> [] ->
   forall c b, In (c, b) entries ->
               if b : bool then In c optional_categories
               else In c mandatory_categories).
Proof.
  intros Hd. apply distinct_NoDup in Hd.
  destruct entries as [|e entries].
  { cbn [build_categories_dict]. split; [|split].
    - intros c Ho Hm. simpl in Ho, Hm.
      repeat (destruct Ho as [<-|Ho]; [intuition discriminate|]).
      contradiction.
    - intros c H. apply in_app_or in H. tauto.
    - congruence. }
  set (es := e :: entries) in *.
  unfold build_categories_dict. fold es.
  rewrite split_checkbox_spec.
  set (o0 := map fst (filter snd es)).
  set (m0 := map fst (filter (fun e0 => negb (snd e0)) es)).
  set (m1 := add_missing o0 (MANDATORY_CATEGORIES default_config) m0).
  set (o1 := add_missing m1 (OPTIONAL_CATEGORIES default_config) o0).
  assert (Hm1 : forall c, In c m1 <->
            In c m0 \/ (In c (MANDATORY_CATEGORIES default_config)
                        /\ ~ In c o0))
    by apply add_missing_spec.
  assert (Ho1 : forall c, In c o1 <->
            In c o0 \/ (In c (OPTIONAL_CATEGORIES default_config)
                        /\ ~ In c m1))
    by apply add_missing_spec.
  split; [|split].
  - intros c Ho Hm. apply Ho1 in Ho. destruct Ho as [Ho|[_ Ho]]; [|tauto].
    apply Hm1 in Hm. destruct Hm as [Hm|[_ Hm]]; [|tauto].
    exact (checkbox_key es c Hd Ho Hm).
  - intros c H. apply in_app_or in H.
    destruct (in_list c m1) eqn:Em.
    + right. now apply in_list_In.
    + assert (Hn : ~ In c m1).
      { intros F. apply in_list_In in F. congruence. }
      left. apply Ho1. destruct H as [H|H]; [tauto|].
      left. destruct (in_list c o0) eqn:Eo; [now apply in_list_In|].
      exfalso. apply Hn. apply Hm1. right. split; [exact H|].
      intros F. apply in_list_In in F. congruence.
  - intros _ c b Hin. destruct b.
    + apply Ho1. left. unfold o0.
      apply in_map_iff. exists (c, true). split; [reflexivity|].
      apply filter_In. auto.
    + apply Hm1. left. unfold m0.
      apply in_map_iff. exists (c, false). split; [reflexivity|].
      apply filter_In. auto.
Qed.

Lemma categories_partition_witness :
  let '(optional_categories, mandatory_categories) :=
    build_categories_dict
      (Some [("type" : str, true); ("zoning" : str, false);
             ("orientation" : str, true); ("symmetry" : str, true)]) in
  (forall c, In c optional_categories -> ~ In c mandatory_categories) /\
  (forall c, In c (OPTIONAL_CATEGORIES default_config
                     ++ MANDATORY_CATEGORIES default_config) ->
             In c optional_categories \/ In c mandatory_categories) /\
  ([("type" : str, true); ("zoning" : str, false);
    ("orientation" : str, true); ("symmetry" : str, true)] <> [] ->
   forall c b,
     In (c, b) [("type" : str, true); ("zoning" : str, false);
                ("orientation" : str, true); ("symmetry" : str, true)] ->
     if b : bool then In c optional_categories
     else In c mandatory_categories).
Proof.
  exact (categories_partition
           [("type" : str, true); ("zoning" : str, false);
            ("orientation" : str, true); ("symmetry" : str, true)] eq_refl).
Defined.

Lemma dict_values_set (k v : str) (d : list (str * str)) (u : str) :
  In u (dict_values (dict_set Py.str_eqb k v d)) ->
  u = v \/ In u (dict_values d).
Proof.
  induction d as [|[k0 v0] d IH]; simpl.
  - intros [H|[]]. now left.
  - destruct (Py.str_eqb k k0); simpl.
    + intros [H|H]; [now left|right; now right].
    + intros [H|H]; [right; now left|].
      destruct (IH H) as [E|E]; [now left|right; now right].
Qed.

Lemma dict_get_value_In (k v : str) (d : list (str * str)) :
  dict_get Py.str_eqb k d = Some v -> In v (dict_values d).
Proof.
  induction d as [|[k0 v0] d IH]; simpl; [discriminate|].
  destruct (Py.str_eqb k k0).
  - intros H. injection H as ->. now left.
  - intros H. right. now apply IH.
Qed.

Lemma compounds_apart_spec (compounds : list (str * (str * str))) :
  compounds_apart compounds = true ->
  forall key a b, In (key, (a, b)) compounds ->
    ~ In a (map fst compounds) /\ ~ In b (map fst compounds).
Proof.
  unfold compounds_apart. intros H key a b Hin.
  rewrite forallb_forall in H. specialize (H _ Hin). cbn [fst snd] in H.
  apply andb_true_iff in H as [Ha Hb].
  apply negb_true_iff in Ha, Hb.
  split; intros F; apply in_list_In in F; congruence.
Qed.

Lemma add_compounds_cons (key a b : str) (compounds : list (str * (str * str)))
  (d : list (str * str)) (x y : str) :
  dict_get Py.str_eqb a d = Some x ->
  dict_get Py.str_eqb b d = Some y ->
  add_compounds ((key, (a, b)) :: compounds) d
  = add_compounds compounds (dict_set Py.str_eqb key (x ++ y) d).
Proof.
  intros Ha Hb. unfold add_compounds. cbn [for_each]. now rewrite Ha, Hb.
Qed.

Lemma add_compounds_spec (compounds : list (str * (str * str))) :
  forall d,
    NoDup (map fst compounds) ->
    (forall key a b, In (key, (a, b)) compounds ->
       ~ In a (map fst compounds) /\ ~ In b (map fst compounds)) ->
    (forall n, In n (single_names compounds) ->
       dict_get Py.str_eqb n d <> None) ->
    exists d',
      add_compounds compounds d = Ok d' /\
      (forall key a b, In (key, (a, b)) compounds ->
         exists x y, dict_get Py.str_eqb a d = Some x /\
                     dict_get Py.str_eqb b d = Some y /\
                     dict_get Py.str_eqb key d' = Some (x ++ y)) /\
      (forall k, ~ In k (map fst compounds) ->
         dict_get Py.str_eqb k d' = dict_get Py.str_eqb k d) /\
      (forall v, In v (dict_values d') ->
         In v (dict_values d) \/
         exists key a b x y,
           In (key, (a, b)) compounds /\
           dict_get Py.str_eqb a d = Some x /\
           dict_get Py.str_eqb b d = Some y /\ v = x ++ y).
Proof.
  induction compounds as [|[key [a b]] compounds IH]; intros d Hnd Hap Hin.
  - exists d. split; [reflexivity|]. split; [contradiction|].
    split; [reflexivity|]. intros v Hv. now left.
  - inversion Hnd as [|? ? Hk Hnd']; subst.
    destruct (dict_get Py.str_eqb a d) as [x|] eqn:Ea;
      [|exfalso; apply (Hin a); [simpl; auto|exact Ea]].
    destruct (dict_get Py.str_eqb b d) as [y|] eqn:Eb;
      [|exfalso; apply (Hin b); [simpl; auto|exact Eb]].
    rewrite (add_compounds_cons key a b compounds d x y Ea Eb).
    set (d1 := dict_set Py.str_eqb key (x ++ y) d).
    assert (Hother : forall n, n <> key ->
              dict_get Py.str_eqb n d1 = dict_get Py.str_eqb n d).
    { intros n Hn. unfold d1.
      apply (dict_get_set_other Py.str_eqb str_eqb_eq). congruence. }
    assert (Hap' : forall key' a' b', In (key', (a', b')) compounds ->
              (a' <> key /\ b' <> key) /\
              ~ In a' (map fst compounds) /\ ~ In b' (map fst compounds)).
    { intros key' a' b' H.
      destruct (Hap key' a' b' (or_intror H)) as [Ha' Hb'].
      cbn [map fst In] in Ha', Hb'. repeat split; intros F; subst; tauto. }
    destruct (IH d1 Hnd') as (d' & E & Hc & Hk' & Hv).
    { intros key' a' b' H. now apply (Hap' key' a' b'). }
    { intros n Hn. unfold single_names in Hn. apply in_flat_map in Hn.
      destruct Hn as ([key' [a' b']] & Hc' & Hn). cbn [fst snd] in Hn.
      destruct (Hap' key' a' b' Hc') as [[Ha' Hb'] _].
      assert (Hne : n <> key) by (destruct Hn as [<-|[<-|[]]]; assumption).
      rewrite (Hother n Hne). apply Hin. unfold single_names.
      apply in_flat_map. exists (key', (a', b')). split; [now right|exact Hn]. }
    exists d'. split; [exact E|]. split; [|split].
    + intros key' a' b' [H|H].
      * injection H as <- <- <-. exists x, y. split; [exact Ea|].
        split; [exact Eb|]. rewrite (Hk' key Hk). unfold d1.
        apply (dict_get_set_same Py.str_eqb str_eqb_eq).
      * destruct (Hc key' a' b' H) as (x' & y' & Ex & Ey & Eg).
        destruct (Hap' key' a' b' H) as [[Ha' Hb'] _].
        exists x', y'. rewrite <- (Hother a' Ha'), <- (Hother b' Hb'). auto.
    + intros k Hnk. cbn [map fst In] in Hnk.
      rewrite Hk' by tauto. apply Hother. intros ->. tauto.
    + intros v Hv'.
      destruct (Hv v Hv') as [H|(key' & a' & b' & x' & y' & H & Ex & Ey & ->)].
      * unfold d1 in H. apply dict_values_set in H.
        destruct H as [->|H]; [|now left].
        right. exists key, a, b, x, y. split; [now left|auto].
      * destruct (Hap' key' a' b' H) as [[Ha' Hb'] _].
        right. exists key', a', b', x', y'. split; [now right|].
        rewrite <- (Hother a' Ha'), <- (Hother b' Hb'). auto.
Qed.

Lemma add_compounds_keyerror (compounds : list (str * (str * str))) :
  forall d,
    (forall key a b, In (key, (a, b)) compounds ->
       ~ In a (map fst compounds) /\ ~ In b (map fst compounds)) ->
    (exists n, In n (single_names compounds) /\
               dict_get Py.str_eqb n d = None) ->
    add_compounds compounds d = Raise KeyError.
Proof.
  induction compounds as [|[key [a b]] compounds IH]; intros d Hap (n & Hn & En).
  - contradiction.
  - destruct (dict_get Py.str_eqb a d) as [x|] eqn:Ea;
      [|unfold add_compounds; cbn [for_each]; now rewrite Ea].
    destruct (dict_get Py.str_eqb b d) as [y|] eqn:Eb;
      [|unfold add_compounds; cbn [for_each]; now rewrite Ea, Eb].
    rewrite (add_compounds_cons key a b compounds d x y Ea Eb).
    assert (Hap' : forall key' a' b', In (key', (a', b')) compounds ->
              (a' <> key /\ b' <> key) /\
              ~ In a' (map fst compounds) /\ ~ In b' (map fst compounds)).
    { intros key' a' b' H.
      destruct (Hap key' a' b' (or_intror H)) as [Ha' Hb'].
      cbn [map fst In] in Ha', Hb'. repeat split; intros F; subst; tauto. }
    apply IH.
    + intros key' a' b' H. now apply (Hap' key' a' b').
    + exists n. unfold single_names in Hn. cbn [flat_map fst snd] in Hn.
      cbn [app In] in Hn.
      destruct Hn as [<-|[<-|Hn]]; [congruence|congruence|].
      split; [exact Hn|].
      apply in_flat_map in Hn.
      destruct Hn as ([key' [a' b']] & Hc' & Hn). cbn [fst snd] in Hn.
      destruct (Hap' key' a' b' Hc') as [[Ha' Hb'] _].
      assert (Hne : key <> n) by (destruct Hn as [<-|[<-|[]]]; congruence).
      now rewrite (dict_get_set_other Py.str_eqb str_eqb_eq key n _ d Hne).
Qed.

Lemma compounds_built_spec (compounds : list (str * (str * str)))
  (single_dict : list (str * str)) :
  distinct (map fst compounds) = true ->
  compounds_apart compounds = true ->
  compounds_built compounds (add_compounds compounds) single_dict.
Proof.
  intros Hd Hap. apply distinct_NoDup in Hd.
  pose proof (compounds_apart_spec compounds Hap) as Hap'.
  unfold compounds_built.
  destruct (forallb (fun n => dict_mem Py.str_eqb n single_dict)
              (single_names compounds)) eqn:E.
  - rewrite forallb_forall in E.
    destruct (add_compounds_spec compounds single_dict Hd Hap')
      as (d & Ed & Hc & Hk & _).
    { intros n Hn F. specialize (E n Hn). unfold dict_mem in E.
      rewrite F in E. discriminate. }
    exists d. auto.
  - apply add_compounds_keyerror; [exact Hap'|].
    assert (Hex : existsb (fun n => negb (dict_mem Py.str_eqb n single_dict))
                    (single_names compounds) = true).
    { clear -E. induction (single_names compounds) as [|n l IH]; simpl in *;
        [discriminate|].
      destruct (dict_mem Py.str_eqb n single_dict); simpl in *; auto. }
    apply existsb_exists in Hex. destruct Hex as (n & Hn & Hm).
    exists n. split; [exact Hn|].
    unfold dict_mem in Hm.
    now destruct (dict_get Py.str_eqb n single_dict).
Qed.

(** X20: [build_zoning_dict] and [build_orientation_dict] on any
    dictionary of single tokens: when one of the names they read (Top,
    Left, ..., North, ...) is no key they raise [KeyError]; otherwise
    every compound key (Top_Left, ...) holds the token of its first name
    followed by the token of its second name, as the single dictionary
    has them, whatever it held before, and every other key holds what
    it held. *)
Theorem compound_dicts_built (single_dict : list (str * str)) :
  compounds_built zoning_compounds build_zoning_dict single_dict /\
  compounds_built orientation_compounds build_orientation_dict single_dict.
Proof.
  split.
  - apply (compounds_built_spec zoning_compounds); reflexivity.
  - apply (compounds_built_spec orientation_compounds); reflexivity.
Qed.

(** X21: every token of the dictionary [build_zoning_dict] returns, a
    single one or a compound, is read back whole by the inspector: on a
    vocabulary of single tokens without empty string in which no token
    stands at the anchored end of another, [separate_value_recursive]
    over the single tokens peels the token from a fragment that carries
    it at the anchored end of a text no token matches. *)
Theorem zoning_token_read_back (zoning_single_dict zoning_dict : list (str * str))
  (start : bool) (v t : str) :
  build_zoning_dict zoning_single_dict = Ok zoning_dict ->
  forallb nonempty (dict_values zoning_single_dict) = true ->
  code_free start (dict_values zoning_single_dict) = true ->
  forallb (fun c => negb (matches_at start t c))
    (dict_values zoning_single_dict) = true ->
  In v (dict_values zoning_dict) ->
  separate_value_recursive (glue start v t) (dict_values zoning_single_dict)
    start = Ok (v, t).
Proof.
  intros Hb Hl Hc Ht Hv.
  set (l := dict_values zoning_single_dict) in *.
  assert (Hvs : exists vs, Forall (fun c => In c l) vs /\ v = concat vs).
  { assert (Hap : forall key a b, In (key, (a, b)) zoning_compounds ->
              ~ In a (map fst zoning_compounds) /\
              ~ In b (map fst zoning_compounds))
      by (apply compounds_apart_spec; reflexivity).
    assert (Hnd : NoDup (map fst zoning_compounds))
      by (apply distinct_NoDup; reflexivity).
    assert (Hin : forall n, In n (single_names zoning_compounds) ->
              dict_get Py.str_eqb n zoning_single_dict <> None).
    { intros n Hn F. unfold build_zoning_dict in Hb.
      rewrite (add_compounds_keyerror zoning_compounds zoning_single_dict Hap)
        in Hb; [discriminate|]. exists n. auto. }
    destruct (add_compounds_spec zoning_compounds zoning_single_dict Hnd Hap Hin)
      as (d & Ed & _ & _ & Hvals).
    unfold build_zoning_dict in Hb. rewrite Ed in Hb. injection Hb as ->.
    destruct (Hvals v Hv) as [H|(key & a & b & x & y & _ & Ex & Ey & ->)].
    - exists [v]. split; [now constructor|]. simpl. now rewrite app_nil_r.
    - exists [x; y]. split.
      + constructor; [now apply (dict_get_value_In a)|].
        constructor; [now apply (dict_get_value_In b)|constructor].
      + simpl. now rewrite app_nil_r. }
  destruct Hvs as (vs & Hvs & ->).
  assert (Ht' : forall c, In c l -> matches_at start t c = false).
  { intros c Hin. rewrite forallb_forall in Ht. specialize (Ht c Hin).
    now apply negb_true_iff in Ht. }
  unfold separate_value_recursive. destruct start; unfold glue.
  - rewrite (suffixes_complete_start l t Hl Hc Ht' vs Hvs); [reflexivity|lia].
  - rewrite (suffixes_complete_end l t Hl Hc Ht' vs Hvs); [|lia].
    now rewrite app_nil_r.
Qed.

Lemma zoning_token_read_back_witness :
  separate_value_recursive (glue false "TpLt" "jar")
    (dict_values default_zoning_single_dict) false
  = Ok ("TpLt" : str, "jar" : str).
Proof.
  apply (zoning_token_read_back default_zoning_single_dict
           (match build_zoning_dict default_zoning_single_dict with
            | Ok d => d
            | Raise _ => []
            end)).
  - reflexivity.
  - reflexivity.
  - reflexivity.
  - reflexivity.
  - apply in_list_In. reflexivity.
Defined.

Lemma name_segment_pos (name : str) (pos : nat) (s : str) :
  name_segment name pos = Ok s ->
  Nat.eqb pos (length (Py.split "_" name)) = false.
Proof.
  unfold name_segment. intros H.
  destruct (nth_error (Py.split "_" name) pos) eqn:E; [|discriminate].
  apply Nat.eqb_neq. intros ->.
  assert (F : nth_error (Py.split "_" name) (length (Py.split "_" name)) = None)
    by (apply nth_error_None; lia).
  congruence.
Qed.

(** The part after the first [separate_category] from the start, on a
    part without ["name"]: the template's categories with what was
    peeled, then the rest, if any, under ["bad_naming"]. *)
Lemma separate_part_plain_shape (cfg : config) (p : part) (s : str) :
  vocabulary_ok cfg = true ->
  fresh_part p ->
  ~ In ("name" : str) (dict_keys p) ->
  ~ In ("bad_naming" : str) (dict_keys p) ->
  exists p' r p1,
    dict_keys p' = dict_keys p /\
    render p' ++ r = s /\
    p1 = match r with
         | [] => p'
         | _ :: _ => p' ++ [("bad_naming" : str, r)]
         end /\
    separate_part cfg p s true [] = Ok p1 /\
    separate_part cfg p1 s true [] = Ok p1.
Proof.
  intros Hv [Hnd Hp] Hn Hb.
  destruct (start_entries_render cfg Hv p s Hp) as (p' & r & E & Hk & Hr & _).
  pose proof (start_keys_entries cfg p [] s Hnd) as E0. simpl in E0.
  rewrite E in E0. simpl in E0.
  pose proof (start_entries_again cfg _ _ _ _ E) as E'.
  assert (Hnd' : NoDup (dict_keys p')) by now rewrite Hk.
  exists p', r. eexists. split; [exact Hk|]. split; [exact Hr|].
  split; [reflexivity|].
  destruct r as [|c r]; cbv iota.
  - split.
    + unfold separate_part. rewrite E0. reflexivity.
    + unfold separate_part.
      pose proof (start_keys_entries cfg p' [] s Hnd') as E1. simpl in E1.
      rewrite E' in E1. simpl in E1. now rewrite E1.
  - set (p1 := p' ++ [("bad_naming" : str, c :: r)]).
    assert (Hk1 : dict_keys p1 = dict_keys p ++ ["bad_naming" : str]).
    { unfold p1. rewrite dict_keys_app, Hk. reflexivity. }
    assert (Hn1 : ~ In ("name" : str) (dict_keys p1)).
    { rewrite Hk1. intros H. apply in_app_or in H as [H|[H|[]]];
        [auto|discriminate]. }
    assert (Hnd1 : NoDup (dict_keys p1)).
    { rewrite Hk1. apply NoDup_app; [assumption|repeat constructor; auto|].
      intros x Hx [Hx'|[]]. subst. auto. }
    split.
    + unfold separate_part. rewrite E0. cbn [bind].
      rewrite (dict_mem_false p') by now rewrite Hk. cbn [negb].
      now rewrite (dict_set_fresh Py.str_eqb str_eqb_eq) by now rewrite Hk.
    + unfold separate_part.
      pose proof (start_keys_entries cfg p1 [] s Hnd1) as E1. simpl in E1.
      rewrite E1. unfold p1 at 1.
      rewrite start_entries_app by now rewrite Hk.
      rewrite E'. simpl. fold p1.
      rewrite (dict_mem_false p1) by assumption. simpl.
      f_equal. apply dict_set_same.
      etransitivity;
        [apply (dict_get_app_notin Py.str_eqb str_eqb_eq); now rewrite Hk|].
      reflexivity.
Qed.

(** The loop of [check_optional_part]: after the first round the part
    is at its fixed point; the flag says whether a category got a value. *)
Lemma optional_loop_fix (cfg : config) (name : str) (i pos : nat) (s : str)
  (p1 : part) (categories : list str) :
  name_segment name pos = Ok s ->
  separate_part cfg p1 s true [] = Ok p1 ->
  (forall c, In c categories -> dict_get Py.str_eqb c p1 <> None) ->
  forall (d : part_dict) (b : bool),
    get_part d (KInt i) = Ok p1 ->
    for_each categories
      (fun '(d', part_filled) (category : str) =>
         d'' <- separate_category cfg name i pos d' true [] ;;
         v <- get_item d'' (KInt i) category ;;
         Ok (d'', match v with [] => part_filled | _ :: _ => true end))
      (d, b)
    = Ok (d, b || negb (unfilled categories p1)).
Proof.
  intros Hs H1. induction categories as [|c categories IH]; intros Hc d b Hd.
  - simpl. now rewrite orb_false_r.
  - cbn [for_each].
    rewrite (separate_category_part _ _ _ _ _ _ _ _ _ Hd Hs), H1. cbn [bind].
    rewrite (put_same _ _ _ Hd).
    unfold get_item. rewrite Hd. cbn [bind].
    destruct (dict_get Py.str_eqb c p1) as [v|] eqn:Ev;
      [|exfalso; apply (Hc c); [now left|exact Ev]].
    cbn [bind].
    rewrite IH; [|intros c' Hc'; apply Hc; now right|exact Hd].
    f_equal. f_equal. unfold unfilled. cbn [forallb]. rewrite Ev.
    destruct v; cbn [negb andb orb].
    + reflexivity.
    + now rewrite orb_true_r.
Qed.

Lemma optional_loop (cfg : config) (name : str) (i pos : nat) (s : str)
  (p p1 : part) (categories : list str) :
  name_segment name pos = Ok s ->
  separate_part cfg p s true [] = Ok p1 ->
  separate_part cfg p1 s true [] = Ok p1 ->
  (forall c, In c categories -> dict_get Py.str_eqb c p1 <> None) ->
  categories <> [] ->
  forall d : part_dict,
    get_part d (KInt i) = Ok p ->
    for_each categories
      (fun '(d', part_filled) (category : str) =>
         d'' <- separate_category cfg name i pos d' true [] ;;
         v <- get_item d'' (KInt i) category ;;
         Ok (d'', match v with [] => part_filled | _ :: _ => true end))
      (d, false)
    = Ok (put d i p1, negb (unfilled categories p1)).
Proof.
  intros Hs H0 H1 Hc Hne d Hd.
  destruct categories as [|c categories]; [congruence|].
  cbn [for_each].
  rewrite (separate_category_part _ _ _ _ _ _ _ _ _ Hd Hs), H0. cbn [bind].
  unfold get_item. rewrite get_part_put_same. cbn [bind].
  destruct (dict_get Py.str_eqb c p1) as [v|] eqn:Ev;
    [|exfalso; apply (Hc c); [now left|exact Ev]].
  cbn [bind].
  rewrite (optional_loop_fix cfg name i pos s p1 categories Hs H1);
    [|intros c' Hc'; apply Hc; now right|apply get_part_put_same].
  f_equal. f_equal. unfold unfilled. cbn [forallb]. rewrite Ev.
  destruct v; cbn [negb andb orb]; reflexivity.
Qed.

Lemma dict_get_app_in (c : str) (a b : part) :
  In c (dict_keys a) ->
  dict_get Py.str_eqb c (a ++ b) = dict_get Py.str_eqb c a.
Proof.
  induction a as [|[k v] a IH]; simpl; [contradiction|].
  destruct (Py.str_eqb c k) eqn:E; [reflexivity|].
  intros [H|H]; [|now apply IH].
  subst. rewrite str_eqb_refl in E. discriminate.
Qed.

Lemma forallb_ext_In {A : Type} (f g : A -> bool) (l : list A) :
  (forall x, In x l -> f x = g x) -> forallb f l = forallb g l.
Proof.
  induction l as [|a l IH]; intros H; [reflexivity|].
  cbn [forallb]. rewrite (H a) by now left.
  rewrite IH; [reflexivity|]. intros x Hx. apply H. now right.
Qed.

Lemma unfilled_all_empty (a : part) :
  NoDup (dict_keys a) ->
  unfilled (dict_keys a) a = true ->
  Forall (fun e => snd e = []) a.
Proof.
  induction a as [|[k v] a IH]; intros Hnd H; [constructor|].
  inversion Hnd as [|? ? Hk Hnd']; subst.
  unfold unfilled in H. cbn [dict_keys map fst forallb] in H.
  apply andb_true_iff in H as [H0 H].
  cbn [dict_get] in H0. rewrite str_eqb_refl in H0.
  constructor.
  - destruct v; [reflexivity|discriminate].
  - apply IH; [exact Hnd'|].
    unfold unfilled. rewrite forallb_forall in H |- *.
    intros c Hc. specialize (H c Hc). cbn [dict_get] in H.
    destruct (Py.str_eqb c k) eqn:E; [|exact H].
    apply str_eqb_eq in E. subst. contradiction.
Qed.

Lemma all_empty_eq (a b : part) :
  dict_keys a = dict_keys b ->
  Forall (fun e => snd e = []) a ->
  Forall (fun e => snd e = []) b ->
  a = b.
Proof.
  revert b. induction a as [|[k v] a IH]; intros [|[k' v'] b] Hk Ha Hb;
    try discriminate; [reflexivity|].
  simpl in Hk. injection Hk as -> Hk.
  inversion Ha as [|? ? Hv Ha']; inversion Hb as [|? ? Hv' Hb']; subst.
  simpl in Hv, Hv'. subst. f_equal. now apply IH.
Qed.

Lemma cleared_all_empty (a : part) :
  Forall (fun e => snd e = []) a -> cleared a = a.
Proof.
  induction 1 as [|[k v] a Hv _ IH]; [reflexivity|].
  simpl in Hv. subst. unfold cleared in *. cbn [map fst]. now rewrite IH.
Qed.

Lemma dict_del_app_last (k : str) (v : str) (a : part) :
  ~ In k (dict_keys a) ->
  dict_del Py.str_eqb k (a ++ [(k, v)]) = a.
Proof.
  induction a as [|[k' v'] a IH]; intros H; cbn [app dict_del].
  - now rewrite str_eqb_refl.
  - destruct (Py.str_eqb k k') eqn:E.
    + apply str_eqb_eq in E. subst. exfalso. apply H. now left.
    + f_equal. apply IH. intros F. apply H. now right.
Qed.

Lemma optional_step (cfg : config) (name : str) (len_name_parts : nat)
  (traverse : nat -> nat -> part_dict -> result part_dict)
  (i pos : nat) (d : part_dict) (p : part) (s : str) :
  vocabulary_ok cfg = true ->
  get_part d (KInt i) = Ok p ->
  part_declared p ->
  ~ In ("name" : str) (dict_keys p) ->
  name_segment name pos = Ok s ->
  s <> [] ->
  i <> len_name_parts ->
  exists p1,
    separate_part cfg p s true [] = Ok p1 /\
    check_optional_part cfg name len_name_parts traverse i pos d
    = if unfilled (dict_keys p) p1
      then traverse (i + 1) pos d
      else traverse (i + 1) (pos + 1) (put d i p1).
Proof.
  intros Hv Hd (Hf & Hne & Hb) Hn Hs Hs0 Hi.
  destruct (separate_part_plain_shape cfg p s Hv Hf Hn Hb)
    as (p' & r & p1 & Hk & Hr & Hp1 & E0 & E1).
  exists p1. split; [exact E0|].
  assert (Hkeys : forall c, In c (dict_keys p) -> In c (dict_keys p'))
    by (intros c Hc; now rewrite Hk).
  assert (Hget : forall c, In c (dict_keys p) ->
            dict_get Py.str_eqb c p1 = dict_get Py.str_eqb c p').
  { intros c Hc. subst p1. destruct r; [reflexivity|].
    apply dict_get_app_in. now apply Hkeys. }
  assert (Hsome : forall c, In c (dict_keys p) ->
            dict_get Py.str_eqb c p1 <> None).
  { intros c Hc. rewrite (Hget c Hc).
    intros F. apply (dict_get_None Py.str_eqb str_eqb_eq) in F.
    apply F. now apply Hkeys. }
  assert (Hun : unfilled (dict_keys p) p1 = unfilled (dict_keys p') p').
  { rewrite <- Hk. unfold unfilled. apply forallb_ext_In. intros c Hc.
    rewrite Hk in Hc. now rewrite (Hget c Hc). }
  unfold check_optional_part. rewrite Hd. cbn [bind].
  rewrite (optional_loop cfg name i pos s p p1 (dict_keys p) Hs E0 E1 Hsome Hne d Hd).
  cbn [bind]. rewrite get_part_put_same. cbn [bind].
  rewrite Hun.
  destruct (unfilled (dict_keys p') p') eqn:Eu; cbn [negb]; [|reflexivity].
  destruct Hf as [Hnd Hp].
  assert (Hnd' : NoDup (dict_keys p')) by now rewrite Hk.
  pose proof (unfilled_all_empty p' Hnd' Eu) as Hall.
  assert (Ep : p' = p) by (apply all_empty_eq; assumption).
  rewrite (render_empty _ Hall) in Hr. cbn [app] in Hr. subst r.
  destruct s as [|c s]; [congruence|].
  subst p1 p'.
  assert (Hm : dict_mem Py.str_eqb "bad_naming"
                 (p ++ [("bad_naming" : str, c :: s)]) = true).
  { apply dict_mem_true. rewrite dict_keys_app. apply in_or_app. right.
    now left. }
  rewrite Hm.
  replace (Nat.eqb i len_name_parts) with false
    by (symmetry; now apply Nat.eqb_neq).
  cbn [negb andb].
  assert (Hnd1 : NoDup (dict_keys (p ++ [("bad_naming" : str, c :: s)]))).
  { rewrite dict_keys_app. apply NoDup_app; [assumption|repeat constructor; auto|].
    intros x Hx [Hx'|[]]. subst. auto. }
  rewrite (handle_bad_naming_part _ i _ (get_part_put_same d i _) Hnd1).
  rewrite Hm. cbn [bind].
  rewrite (dict_del_app_last _ _ _ Hb), (cleared_all_empty _ Hp).
  rewrite put_put. now rewrite (put_same _ _ _ Hd).
Qed.

(** X22: one step of the traversal at an optional part, on a non-empty
    segment.  When no category of the part gets a value from the start
    of the segment, the part is left as the template has it (the
    ["bad_naming"] entry that took the segment is deleted again) and
    the same segment goes to the next part; otherwise the part keeps
    what was peeled, the unrecognised rest under ["bad_naming"], and the
    next part gets the next segment.  The test [part_index !=
    len_name_parts] holds at every part, the last one included. *)
Theorem optional_part_step (cfg : config) (name : str)
  (len_name_parts depth i pos : nat) (optional_parts mandatory_parts : list key)
  (d : part_dict) (p : part) (s : str) :
  vocabulary_ok cfg = true ->
  key_in (KInt i) optional_parts = true ->
  get_part d (KInt i) = Ok p ->
  part_declared p ->
  ~ In ("name" : str) (dict_keys p) ->
  name_segment name pos = Ok s ->
  s <> [] ->
  i <> len_name_parts ->
  exists p1,
    separate_part cfg p s true [] = Ok p1 /\
    traverse_name_parts (S depth) cfg name len_name_parts i pos
      optional_parts mandatory_parts d
    = if unfilled (dict_keys p) p1
      then traverse_name_parts depth cfg name len_name_parts (i + 1) pos
             optional_parts mandatory_parts d
      else traverse_name_parts depth cfg name len_name_parts (i + 1) (pos + 1)
             optional_parts mandatory_parts (put d i p1).
Proof.
  intros Hv Ho Hd Hp Hn Hs Hs0 Hi.
  destruct (optional_step cfg name len_name_parts
              (fun part_index' in_name_pos' d' =>
                 traverse_name_parts depth cfg name len_name_parts part_index'
                   in_name_pos' optional_parts mandatory_parts d')
              i pos d p s Hv Hd Hp Hn Hs Hs0 Hi) as (p1 & E0 & E).
  exists p1. split; [exact E0|].
  cbn [traverse_name_parts]. unfold traverse_body.
  rewrite (name_segment_pos name pos s Hs), Ho. exact E.
Qed.

Lemma optional_part_step_witness :
  exists p1,
    separate_part default_config [("symmetry" : str, [] : str)] "prp" true []
    = Ok p1 /\
    traverse_name_parts 5 default_config "prp_jar" 4 0 0
      [KInt 0; KInt 3] [KInt 1; KInt 2]
      (index_parts 0 (template_parts (NAME_STRUCTURE default_config)))
    = if unfilled (dict_keys [("symmetry" : str, [] : str)]) p1
      then traverse_name_parts 4 default_config "prp_jar" 4 (0 + 1) 0
             [KInt 0; KInt 3] [KInt 1; KInt 2]
             (index_parts 0 (template_parts (NAME_STRUCTURE default_config)))
      else traverse_name_parts 4 default_config "prp_jar" 4 (0 + 1) (0 + 1)
             [KInt 0; KInt 3] [KInt 1; KInt 2]
             (put (index_parts 0 (template_parts (NAME_STRUCTURE default_config)))
                0 p1).
Proof.
  apply (optional_part_step default_config "prp_jar" 4 4 0 0
           [KInt 0; KInt 3] [KInt 1; KInt 2]
           (index_parts 0 (template_parts (NAME_STRUCTURE default_config)))
           [("symmetry" : str, [] : str)] "prp").
  - reflexivity.
  - reflexivity.
  - reflexivity.
  - split; [split|split].
    + repeat constructor. simpl. tauto.
    + repeat constructor.
    + discriminate.
    + simpl. intros [H|[]]. discriminate.
  - simpl. intros [H|[]]. discriminate.
  - reflexivity.
  - discriminate.
  - discriminate.
Defined.

(** X23: one step of the traversal at a mandatory part that holds a
    single category, not ["name"], of the mandatory list (as [[type]]):
    the category takes the whole segment as it is, without any look at
    the vocabulary, and the next part gets the next segment. *)
Theorem mandatory_part_takes_segment (cfg : config) (name : str)
  (len_name_parts depth i pos : nat) (optional_parts mandatory_parts : list key)
  (d : part_dict) (c u s : str) :
  key_in (KInt i) optional_parts = false ->
  key_in (KInt i) mandatory_parts = true ->
  get_part d (KInt i) = Ok [(c, u)] ->
  Py.str_eqb c "name" = false ->
  in_list c (MANDATORY_CATEGORIES cfg) = true ->
  name_segment name pos = Ok s ->
  traverse_name_parts (S depth) cfg name len_name_parts i pos
    optional_parts mandatory_parts d
  = traverse_name_parts depth cfg name len_name_parts (i + 1) (pos + 1)
      optional_parts mandatory_parts (put d i [(c, s)]).
Proof.
  intros Ho Hm Hd Hn Hc Hs.
  cbn [traverse_name_parts]. unfold traverse_body.
  rewrite (name_segment_pos name pos s Hs), Ho, Hm.
  unfold check_mandatory_part. rewrite Hd. cbn [bind].
  replace (dict_mem Py.str_eqb "name" [(c, u)]) with false.
  2:{ unfold dict_mem. cbn [dict_get]. rewrite str_eqb_sym, Hn. reflexivity. }
  unfold handle_other_mandatory_category. rewrite Hd. cbn [bind].
  cbn [dict_keys map fst for_each]. rewrite Hc.
  unfold get_before_after_mandatory. rewrite Hd. cbn [bind].
  cbn [dict_keys map fst list_index]. rewrite str_eqb_refl. cbn [bind].
  cbn [Nat.eqb Nat.add skipn]. cbn [bind].
  unfold separate_category_each. cbn [rev for_each bind last map].
  rewrite Hs. cbn [bind].
  rewrite (set_item_put _ _ _ _ _ Hd). cbn [bind].
  cbn [dict_set]. rewrite str_eqb_refl. reflexivity.
Qed.

Lemma mandatory_part_takes_segment_witness :
  traverse_name_parts 4 default_config "foo_jar" 4 1 0
    [KInt 0; KInt 3] [KInt 1; KInt 2]
    (index_parts 0 (template_parts (NAME_STRUCTURE default_config)))
  = traverse_name_parts 3 default_config "foo_jar" 4 (1 + 1) (0 + 1)
      [KInt 0; KInt 3] [KInt 1; KInt 2]
      (put (index_parts 0 (template_parts (NAME_STRUCTURE default_config))) 1
         [("type" : str, "foo" : str)]).
Proof.
  apply (mandatory_part_takes_segment default_config "foo_jar" 4 3 1 0
           [KInt 0; KInt 3] [KInt 1; KInt 2]
           (index_parts 0 (template_parts (NAME_STRUCTURE default_config)))
           "type" [] "foo"); reflexivity.
Defined.

Lemma unbound_loop (categories mandatory_categories : list str) (i : nat)
  (d : part_dict) :
  forallb (fun c => negb (in_list c mandatory_categories)) categories = true ->
  for_each categories
    (fun (bound : option (list str * list str)) (category : str) =>
       if in_list category mandatory_categories
       then ba <- get_before_after_mandatory category i d ;; Ok (Some ba)
       else Ok bound)
    None
  = Ok None.
Proof.
  induction categories as [|c categories IH]; intros H; [reflexivity|].
  cbn [forallb] in H. apply andb_true_iff in H as [Hc H].
  apply negb_true_iff in Hc. cbn [for_each]. rewrite Hc. cbn [bind].
  now apply IH.
Qed.

(** X24: a part that is not optional and holds neither ["name"] nor a
    category of the mandatory list (a part of categories of the user's
    own) stops the traversal: [handle_other_mandatory_category] reads
    [before_name_categories], which its loop never bound, and raises
    [UnboundLocalError]. *)
Theorem part_without_mandatory_category_raises (cfg : config) (name : str)
  (len_name_parts depth i pos : nat) (optional_parts mandatory_parts : list key)
  (d : part_dict) (p : part) (s : str) :
  key_in (KInt i) optional_parts = false ->
  key_in (KInt i) mandatory_parts = true ->
  get_part d (KInt i) = Ok p ->
  dict_mem Py.str_eqb "name" p = false ->
  forallb (fun c => negb (in_list c (MANDATORY_CATEGORIES cfg))) (dict_keys p)
  = true ->
  name_segment name pos = Ok s ->
  traverse_name_parts (S depth) cfg name len_name_parts i pos
    optional_parts mandatory_parts d
  = Raise UnboundLocalError.
Proof.
  intros Ho Hm Hd Hn Hc Hs.
  cbn [traverse_name_parts]. unfold traverse_body.
  rewrite (name_segment_pos name pos s Hs), Ho, Hm.
  unfold check_mandatory_part. rewrite Hd. cbn [bind]. rewrite Hn.
  unfold handle_other_mandatory_category. rewrite Hd. cbn [bind].
  now rewrite (unbound_loop _ _ i d Hc).
Qed.

Lemma part_without_mandatory_category_raises_witness :
  traverse_name_parts 2 foo_config "prp_jar_x" 4 3 2
    [KInt 0] [KInt 1; KInt 2; KInt 3]
    (index_parts 0 (template_parts (NAME_STRUCTURE foo_config)))
  = Raise UnboundLocalError.
Proof.
  apply (part_without_mandatory_category_raises foo_config "prp_jar_x" 4 1 3 2
           [KInt 0] [KInt 1; KInt 2; KInt 3]
           (index_parts 0 (template_parts (NAME_STRUCTURE foo_config)))
           [("foo" : str, [] : str)] "x"); reflexivity.
Defined.

Lemma bind_ext {A B : Type} (c : result A) (k k' : A -> result B) :
  (forall x, k x = k' x) -> bind c k = bind c k'.
Proof. intros H. destruct c; simpl; [apply H|reflexivity]. Qed.

Ltac ext_step H :=
  first
    [ apply H
    | reflexivity
    | apply bind_ext; intros
    | match goal with
      | |- context [match ?x with _ => _ end] => destruct x
      end ].

Lemma check_optional_part_ext (cfg : config) (name : str) (len_name_parts : nat)
  (f g : nat -> nat -> part_dict -> result part_dict) (i pos : nat)
  (d : part_dict) :
  (forall pos' d', f (i + 1) pos' d' = g (i + 1) pos' d') ->
  check_optional_part cfg name len_name_parts f i pos d
  = check_optional_part cfg name len_name_parts g i pos d.
Proof.
  intros H. unfold check_optional_part. repeat ext_step H.
Qed.

Lemma check_mandatory_part_ext (cfg : config) (name : str)
  (f g : nat -> nat -> part_dict -> result part_dict) (i pos : nat)
  (d : part_dict) :
  (forall pos' d', f (i + 1) pos' d' = g (i + 1) pos' d') ->
  check_mandatory_part cfg name f i pos d
  = check_mandatory_part cfg name g i pos d.
Proof.
  intros H. unfold check_mandatory_part, handle_name_category,
    handle_other_mandatory_category.
  repeat ext_step H.
Qed.

Lemma key_in_below (n i : nat) (l : list key) :
  keys_below n l = true -> key_in (KInt i) l = true -> i < n.
Proof.
  unfold keys_below, key_in. intros Hl Hi.
  apply existsb_exists in Hi as (k & Hk & E).
  apply key_eqb_eq in E. subst k.
  rewrite forallb_forall in Hl. specialize (Hl _ Hk). cbn in Hl.
  now apply Nat.ltb_lt.
Qed.

(** X25: the traversal visits a template part at most once and stops
    after the last one: with the part keys below [len_name_parts], a
    call at [part_index] nests at most [len_name_parts - part_index + 1]
    calls of [traverse_name_parts], so any two depth budgets above
    [len_name_parts - part_index] give the same result. *)
Theorem traversal_depth_bounded (cfg : config) (name : str)
  (len_name_parts : nat) (optional_parts mandatory_parts : list key) :
  keys_below len_name_parts (optional_parts ++ mandatory_parts) = true ->
  forall (depth depth' i pos : nat) (d : part_dict),
    len_name_parts - i < depth ->
    len_name_parts - i < depth' ->
    traverse_name_parts depth cfg name len_name_parts i pos
      optional_parts mandatory_parts d
    = traverse_name_parts depth' cfg name len_name_parts i pos
        optional_parts mandatory_parts d.
Proof.
  intros Hk. unfold keys_below in Hk. rewrite forallb_app in Hk.
  apply andb_true_iff in Hk as [Hko Hkm].
  induction depth as [|n IH]; intros depth' i pos d H1 H2; [lia|].
  destruct depth' as [|m]; [lia|].
  cbn [traverse_name_parts]. unfold traverse_body.
  destruct (Nat.eqb pos (length (Py.split "_" name))); [reflexivity|].
  destruct (key_in (KInt i) optional_parts) eqn:Eo.
  - pose proof (key_in_below _ _ _ Hko Eo) as Hi.
    apply check_optional_part_ext. intros pos' d'. apply IH; lia.
  - destruct (key_in (KInt i) mandatory_parts) eqn:Em; [|reflexivity].
    pose proof (key_in_below _ _ _ Hkm Em) as Hi.
    apply check_mandatory_part_ext. intros pos' d'. apply IH; lia.
Qed.

Lemma traversal_depth_bounded_witness :
  traverse_name_parts 5 default_config "prp_jar_001" 4 0 0
    [KInt 0; KInt 3] [KInt 1; KInt 2]
    (index_parts 0 (template_parts (NAME_STRUCTURE default_config)))
  = traverse_name_parts 1000 default_config "prp_jar_001" 4 0 0
      [KInt 0; KInt 3] [KInt 1; KInt 2]
      (index_parts 0 (template_parts (NAME_STRUCTURE default_config))).
Proof.
  apply (traversal_depth_bounded default_config "prp_jar_001" 4
           [KInt 0; KInt 3] [KInt 1; KInt 2]).
  - reflexivity.
  - simpl. lia.
  - simpl. lia.
Defined.
